(** * GEM-ML example notebooks: a shallow embedding of the notebook code

  The repository consists of Jupyter notebooks that configure and run
  eo-learn workflows.  The code cells that carry logic of their own are
  embedded here as Rocq functions:

  - [Py], [Float64], [NumPy]: the Python values, binary64 numbers and
    NumPy arrays the cells compute with;
  - [Evalscript]: the [evaluatePixel] function of the reference
    evalscript (01_DataAcquisition);
  - [Testing]: [torchify], [nan_to_value] and the [Torchify] class
    (Example_Treecurrent/04_Testing);
  - [EOLearn]: EOPatches, EONodes and the execution of an EOWorkflow;
  - [DataAcquisition], [ModelForward], [DataNormalization],
    [Configuration]: the cells of the respective notebooks;
  - [TorchifyInPlace], [Tiles], [DataAcquisitionCells], [Storage],
    [RasterMerge], [EvalscriptSetup]: further cells of these notebooks,
    and [Torchify] on the memory that NumPy views share.

  Calls into libraries whose code is not part of the notebooks are
  parameters of the sections that use them. *)

From Stdlib Require Import ZArith List Bool Lia Ascii String QArith.
From Stdlib Require Import Floats.SpecFloat.
From stdpp Require Import base option list strings pretty gmap.

Local Open Scope Z_scope.

(* ===================================================================== *)
(** ** Python values, exceptions and results *)
(* ===================================================================== *)

Module Py.

(** The exception classes the cells can meet.  [KeyboardInterrupt] and
    [SystemExit] derive from [BaseException] only, the others from
    [Exception]. *)
Inductive exn_class :=
| AxisError | ValueError | KeyError | IndexError | NameError | TypeError
| AttributeError
| OverflowError | DownloadFailedException | RuntimeError
| KeyboardInterrupt | SystemExit.

Record exn := mk_exn { exn_cls : exn_class; exn_msg : string }.

(** [isinstance(e, Exception)] *)
Definition is_Exception (e : exn) : bool :=
  match exn_cls e with
  | KeyboardInterrupt | SystemExit => false
  | _ => true
  end.

(** The outcome of evaluating an expression: a value or a raised
    exception. *)
Inductive result (A : Type) :=
| Ok (a : A)
| Raised (e : exn).
Arguments Ok {A} a.
Arguments Raised {A} e.

#[global] Instance result_ret : MRet result := fun A a => Ok a.
#[global] Instance result_bind : MBind result := fun A B f r =>
  match r with
  | Ok a => f a
  | Raised e => Raised e
  end.
#[global] Instance result_fmap : FMap result := fun A B f r =>
  match r with
  | Ok a => Ok (f a)
  | Raised e => Raised e
  end.

Definition is_Ok {A} (r : result A) : bool :=
  match r with Ok _ => true | Raised _ => false end.

End Py.
Export Py.

(* ===================================================================== *)
(** ** binary64 arithmetic (Python [float], JavaScript [Number]) *)
(* ===================================================================== *)

Module Float64.

Definition prec : Z := 53.
Definition emax : Z := 1024.

Definition mul : spec_float -> spec_float -> spec_float := SFmul prec emax.
Definition div : spec_float -> spec_float -> spec_float := SFdiv prec emax.
Definition ltb : spec_float -> spec_float -> bool := SFltb.
Definition eqb : spec_float -> spec_float -> bool := SFeqb.

(** [float(z)] for a Python [int]: round to nearest even. *)
Definition of_Z (z : Z) : spec_float := binary_normalize prec emax z 0 false.

(** The decimal literal [m / 10^k], correctly rounded. *)
Definition of_decimal (m : Z) (k : positive) : spec_float :=
  div (of_Z m) (of_Z (Z.pow 10 (Z.pos k))).

(** The literals that occur in the cells. *)
Definition lit_0_1 : spec_float := Eval vm_compute in of_decimal 1 1.
Definition lit_0_05 : spec_float := Eval vm_compute in of_decimal 5 2.
Definition one : spec_float := Eval vm_compute in of_Z 1.

Definition is_nan (f : spec_float) : bool :=
  match f with S754_nan => true | _ => false end.

Definition is_zero (f : spec_float) : bool :=
  match f with S754_zero _ => true | _ => false end.

(** Exact comparison of a Python [int] with a [float], as the comparison
    operators of Python do it: the integer is not rounded.  [None] when
    the float is NaN. *)
Definition Z_compare (c : Z) (f : spec_float) : option comparison :=
  match f with
  | S754_nan => None
  | S754_zero _ => Some (c ?= 0)
  | S754_infinity s => Some (if s then Gt else Lt)
  | S754_finite s m e =>
      let v := if s then Z.neg m else Z.pos m in
      match e with
      | Z0 => Some (c ?= v)
      | Z.pos p => Some (c ?= v * 2 ^ Z.pos p)
      | Z.neg p => Some (c * 2 ^ Z.pos p ?= v)
      end
  end.

(** [c >= f] *)
Definition Z_geb (c : Z) (f : spec_float) : bool :=
  match Z_compare c f with
  | Some (Eq | Gt) => true
  | _ => false
  end.

(** [c == f] *)
Definition Z_eqb (c : Z) (f : spec_float) : bool :=
  match Z_compare c f with
  | Some Eq => true
  | _ => false
  end.

End Float64.

(* ===================================================================== *)
(** ** Python objects and NumPy arrays *)
(* ===================================================================== *)

Module NumPy.

(** An array element.  The arrays of the notebooks are float32 bands,
    uint8 and bool masks. *)
Inductive scalar :=
| SBool (b : bool)
| SInt (z : Z)
| SFloat (f : spec_float).

(** Truth value of an element: nonzero; NaN counts as nonzero. *)
Definition nonzero (x : scalar) : bool :=
  match x with
  | SBool b => b
  | SInt z => negb (z =? 0)
  | SFloat f => negb (Float64.is_zero f)
  end.

Definition scalar_isnan (x : scalar) : bool :=
  match x with
  | SFloat f => Float64.is_nan f
  | _ => false
  end.

(** An n-dimensional array: its shape and its elements in row-major
    (C) order. *)
Record ndarray := mk_ndarray { shape : list nat; flat : list scalar }.

Definition prod_shape (sh : list nat) : nat := foldr Nat.mul 1%nat sh.

(** [array.size] *)
Definition size (a : ndarray) : nat := prod_shape (shape a).
(** [array.ndim] *)
Definition ndim (a : ndarray) : nat := length (shape a).

Definition wf (a : ndarray) : Prop := length (flat a) = size a.

(** The flat offset of a multi-index, [None] when it is out of bounds
    or of the wrong length. *)
Fixpoint ravel (sh idx : list nat) : option nat :=
  match sh, idx with
  | [], [] => Some 0%nat
  | d :: sh', i :: idx' =>
      if (i <? d)%nat then
        r ← ravel sh' idx'; Some (i * prod_shape sh' + r)%nat
      else None
  | _, _ => None
  end.

(** [array[idx]] for a full multi-index. *)
Definition get (a : ndarray) (idx : list nat) : option scalar :=
  j ← ravel (shape a) idx; flat a !! j.

(** [np.all(array)] *)
Definition np_all (a : ndarray) : bool := forallb nonzero (flat a).

(** [np.count_nonzero(array)] *)
Definition count_nonzero (a : ndarray) : nat :=
  length (filter (fun x => nonzero x = true) (flat a)).

(** [np.isnan(array)], as the list of flags in row-major order. *)
Definition np_isnan (a : ndarray) : list bool := map scalar_isnan (flat a).

(** The rows of the transposed [n x c] matrix stored in [l]. *)
Definition transpose_flat (n c : nat) (l : list scalar) : list scalar :=
  ci ← seq 0 c; omap (fun i => l !! (i * c + ci)%nat) (seq 0 n).

(** [np.moveaxis(array, -1, 0)]: the last axis becomes the first one.
    A 0-dimensional array has no axis [-1]. *)
Definition moveaxis_last_first (a : ndarray) : result ndarray :=
  match last (shape a) with
  | None => Raised (mk_exn AxisError "source: axis -1 is out of bounds for array of dimension 0")
  | Some c =>
      let front := removelast (shape a) in
      Ok (mk_ndarray (c :: front) (transpose_flat (prod_shape front) c (flat a)))
  end.

(** [array.squeeze()]: every axis of length one is removed. *)
Definition squeeze_all (a : ndarray) : ndarray :=
  mk_ndarray (filter (fun d => d <> 1%nat) (shape a)) (flat a).

(** [array.squeeze(axis)] for an integer [axis]: negative axes count
    from the end; the axis must exist and have length one. *)
Definition squeeze_axis (axis : Z) (a : ndarray) : result ndarray :=
  let n := Z.of_nat (ndim a) in
  if (axis <? - n) || (n <=? axis) then
    Raised (mk_exn AxisError "axis is out of bounds")
  else
    let k := Z.to_nat (if axis <? 0 then axis + n else axis) in
    match shape a !! k with
    | Some 1%nat => Ok (mk_ndarray (delete k (shape a)) (flat a))
    | _ => Raised (mk_exn ValueError
                     "cannot select an axis to squeeze out which has size not equal to one")
    end.

End NumPy.

(* ===================================================================== *)
(** ** Python objects *)
(* ===================================================================== *)

Module PyObj.

(** The builtin objects that the cells pass as parameters or store in the
    META_INFO dictionary of an EOPatch. *)
Inductive pyobj :=
| PyNone
| PyBool (b : bool)
| PyInt (z : Z)
| PyFloat (f : spec_float).

(** [type(v) == int]: true for [int] objects only; [type(True)] is
    [bool]. *)
Definition type_is_int (v : pyobj) : bool :=
  match v with PyInt _ => true | _ => false end.

(** The integer value of a [bool] or an [int]. *)
Definition as_int (v : pyobj) : option Z :=
  match v with
  | PyBool b => Some (Z.b2z b)
  | PyInt z => Some z
  | _ => None
  end.

(** [a == b] on builtin objects: numbers compare by value across [bool],
    [int] and [float]; [None] equals only itself. *)
Definition py_eq (a b : pyobj) : bool :=
  match a, b with
  | PyNone, PyNone => true
  | PyNone, _ | _, PyNone => false
  | PyFloat f, PyFloat g => Float64.eqb f g
  | PyFloat f, _ => match as_int b with Some z => Float64.Z_eqb z f | None => false end
  | _, PyFloat g => match as_int a with Some z => Float64.Z_eqb z g | None => false end
  | _, _ => match as_int a, as_int b with
            | Some x, Some y => x =? y
            | _, _ => false
            end
  end.

(** [bool(v)] *)
Definition truthy (v : pyobj) : bool :=
  match v with
  | PyNone => false
  | PyBool b => b
  | PyInt z => negb (z =? 0)
  | PyFloat f => negb (Float64.is_zero f)
  end.

(** The value stored when [v] is assigned into a float array: [None]
    becomes NaN, an [int] is rounded and must fit. *)
Definition to_float (v : pyobj) : result spec_float :=
  match v with
  | PyNone => Ok S754_nan
  | PyBool b => Ok (Float64.of_Z (Z.b2z b))
  | PyInt z =>
      match Float64.of_Z z with
      | S754_infinity _ =>
          Raised (mk_exn OverflowError "int too large to convert to float")
      | f => Ok f
      end
  | PyFloat f => Ok f
  end.

End PyObj.
Export PyObj.

(* ===================================================================== *)
(** ** 01_DataAcquisition: the evalscript of [task_reference] *)
(* ===================================================================== *)

Module Evalscript.

(** The utility functions that Sentinel Hub provides to every evalscript.
    [index(a, b)] is the normalised difference of two band values. *)
Class Utilities := { index : spec_float -> spec_float -> spec_float }.

(** A JavaScript value of the script: a number or a boolean. *)
Inductive jsval :=
| JNum (f : spec_float)
| JBool (b : bool).

(** [!x] for a number: true for [0], [-0] and [NaN]. *)
Definition js_not (x : spec_float) : bool :=
  Float64.is_zero x || Float64.is_nan x.

(** [a > b] on numbers. *)
Definition js_gt (a b : spec_float) : bool := Float64.ltb b a.

(** One pixel of the input, with the bands that [setup] requests. *)
Record Samples := mk_Samples {
  B02 : spec_float; B03 : spec_float; B04 : spec_float; B08 : spec_float;
  B8A : spec_float; B11 : spec_float; dataMask : spec_float; CLM : spec_float
}.

(** The object that [evaluatePixel] returns: one array per output id. *)
Record Outputs := mk_Outputs {
  out_B02 : list jsval; out_B03 : list jsval; out_B04 : list jsval;
  out_B08 : list jsval; out_B8A : list jsval; out_B11 : list jsval;
  out_NDWI : list jsval;
  out_reference : list jsval;
  out_dmask_reference : list jsval;
  out_cmask_reference : list jsval
}.

Definition js_zero : spec_float := S754_zero false.

Definition evaluatePixel `{Utilities} (samples : Samples) : Outputs :=
  (* calculate NDWI *)
  let val := index (B03 samples) (B8A samples) in
  (* classify water *)
  let water := js_zero in
  let water := if js_gt val Float64.lit_0_1 then Float64.one else js_zero in
  {| out_B02 := [JNum (B02 samples)];
     out_B03 := [JNum (B03 samples)];
     out_B04 := [JNum (B04 samples)];
     out_B08 := [JNum (B08 samples)];
     out_B8A := [JNum (B8A samples)];
     out_B11 := [JNum (B11 samples)];
     out_NDWI := [JNum val];
     out_reference := [JNum water];
     out_dmask_reference := [JNum (dataMask samples)];
     out_cmask_reference := [JBool (js_not (CLM samples))] |}.

End Evalscript.

(* ===================================================================== *)
(** ** Example_Treecurrent/04_Testing: [Torchify] *)
(* ===================================================================== *)

Module Testing.
Import NumPy.

(** The element types of the arrays, and the conversion of a Python
    object to an element of such a type.  An assignment
    [array[mask] = value] converts [value] to the element type of [array]
    before it writes, whether or not [mask] selects an element: a float
    is rounded to the precision of the type, and the conversion raises
    where the type cannot hold the value, such as [OverflowError] for an
    [int] out of the range of an integer type.  The conversion is code of
    NumPy and a parameter here. *)
Class Casting := {
  dtype : Type;
  astype : dtype -> pyobj -> result scalar
}.

(** [def torchify(array): return np.moveaxis(array, -1, 0)] *)
Definition torchify (array : ndarray) : result ndarray :=
  moveaxis_last_first array.

(** [def nan_to_value(array, value=0)], on an array of element type [dt]:
    [value] is converted to [dt] and the entries flagged by [np.isnan] are
    overwritten by it.  The assignment is in place: [array] is the view
    returned by [np.moveaxis], so the caller's array changes as well; the
    function is embedded by the array it returns. *)
Definition nan_to_value `{Casting} (dt : dtype) (array : ndarray) (value : pyobj)
  : result ndarray :=
  v ← astype dt value;
  Ok (mk_ndarray (shape array)
        (map (fun x => if scalar_isnan x then v else x) (flat array))).

(** [class Torchify], with the defaults of [__init__]. *)
Record Torchify := mk_Torchify { squeeze : pyobj; nanvalue : pyobj }.

Definition Torchify_init_default : Torchify :=
  {| squeeze := PyBool false; nanvalue := PyInt 0 |}.

(** The three [return] statements of [__call__]. *)
Inductive squeeze_branch :=
| SqueezeAll
| SqueezeAxis (axis : Z)
| NoSqueeze.

(** The [if]/[elif]/[else] chain of [__call__]. *)
Definition select_branch (self : Torchify) : squeeze_branch :=
  if py_eq (squeeze self) (PyBool true) then SqueezeAll
  else if type_is_int (squeeze self) then
    match squeeze self with
    | PyInt axis => SqueezeAxis axis
    | _ => NoSqueeze
    end
  else NoSqueeze.

Definition run_branch (b : squeeze_branch) (array_ : ndarray) : result ndarray :=
  match b with
  | SqueezeAll => Ok (squeeze_all array_)
  | SqueezeAxis axis => squeeze_axis axis array_
  | NoSqueeze => Ok array_
  end.

(** [Torchify.__call__] on an array of element type [dt] *)
Definition Torchify_call `{Casting} (self : Torchify) (dt : dtype) (array : ndarray)
  : result ndarray :=
  array_ ← torchify array;
  array_ ← nan_to_value dt array_ (nanvalue self);
  run_branch (select_branch self) array_.

End Testing.

(* ===================================================================== *)
(** ** Cells with effects: state and exceptions *)
(* ===================================================================== *)

Module Effects.

(** A computation over a state of type [S] that returns a value or raises
    an exception; the state reached when the exception is raised is
    kept. *)
Definition M (S A : Type) : Type := S -> result A * S.

Section Ops.
Context {S : Type}.

Definition ret {A} (a : A) : M S A := fun s => (Ok a, s).

Definition bind {A B} (m : M S A) (k : A -> M S B) : M S B :=
  fun s => match m s with
           | (Ok a, s') => k a s'
           | (Raised e, s') => (Raised e, s')
           end.

Definition raise {A} (e : exn) : M S A := fun s => (Raised e, s).

(** The outcome of a call without effects on the state. *)
Definition lift {A} (r : result A) : M S A := fun s => (r, s).

Definition modify (f : S -> S) : M S unit := fun s => (Ok tt, f s).

Definition gets {A} (f : S -> A) : M S A := fun s => (Ok (f s), s).

(** [try: body / except Exception as e: handler(e)].  An exception that
    does not derive from [Exception] passes through. *)
Definition try_except {A} (body : M S A) (handler : exn -> M S A) : M S A :=
  fun s => match body s with
           | (Raised e, s') =>
               if is_Exception e then handler e s' else (Raised e, s')
           | r => r
           end.

(** [for x in xs: body(x)] *)
Fixpoint for_each {X} (xs : list X) (body : X -> M S unit) : M S unit :=
  match xs with
  | [] => ret tt
  | x :: xs' => bind (body x) (fun _ => for_each xs' body)
  end.

End Ops.

#[global] Instance M_ret {S} : MRet (M S) := fun A a => ret a.
#[global] Instance M_bind {S} : MBind (M S) := fun A B k m => bind m k.

End Effects.

(* ===================================================================== *)
(** ** eo-learn: EOPatches, tasks and workflows *)
(* ===================================================================== *)

Module EOLearn.
Import NumPy Effects.

Inductive FeatureType :=
| DATA | MASK | SCALAR | LABEL | VECTOR
| DATA_TIMELESS | MASK_TIMELESS | SCALAR_TIMELESS | LABEL_TIMELESS | VECTOR_TIMELESS
| META_INFO.

#[global] Instance FeatureType_eq_dec : EqDecision FeatureType.
Proof. solve_decision. Defined.

Definition FeatureType_to_nat (t : FeatureType) : nat :=
  match t with
  | DATA => 0 | MASK => 1 | SCALAR => 2 | LABEL => 3 | VECTOR => 4
  | DATA_TIMELESS => 5 | MASK_TIMELESS => 6 | SCALAR_TIMELESS => 7
  | LABEL_TIMELESS => 8 | VECTOR_TIMELESS => 9 | META_INFO => 10
  end%nat.

Definition FeatureType_of_nat (n : nat) : FeatureType :=
  match n with
  | 0 => DATA | 1 => MASK | 2 => SCALAR | 3 => LABEL | 4 => VECTOR
  | 5 => DATA_TIMELESS | 6 => MASK_TIMELESS | 7 => SCALAR_TIMELESS
  | 8 => LABEL_TIMELESS | 9 => VECTOR_TIMELESS | _ => META_INFO
  end%nat.

#[global] Instance FeatureType_countable : Countable FeatureType.
Proof.
  refine (inj_countable' FeatureType_to_nat FeatureType_of_nat _).
  by intros [].
Defined.

(** A feature is addressed by its type and its name. *)
Abbreviation Feature := (FeatureType * string)%type.

(** A t-digest: its centroids, as pairs of a mean and a weight. *)
Definition TDigest : Type := list (spec_float * spec_float).

(** What an EOPatch stores under a feature: an array, a Python object
    (META_INFO), or an array of t-digests, one per band. *)
Inductive value :=
| VArray (a : ndarray)
| VObj (o : pyobj)
| VDigests (ds : list TDigest).

Abbreviation EOPatch := (gmap (FeatureType * string) value).

(** [np.all(x)] on what a feature can hold; an object counts by its
    truth value, a t-digest is true when it has centroids. *)
Definition np_all_value (x : value) : bool :=
  match x with
  | VArray a => np_all a
  | VObj o => truthy o
  | VDigests ds => forallb (fun d => negb (Nat.eqb (length d) 0)) ds
  end.

(** [bool(x)] where the workflow tests a feature. *)
Definition value_truthy (x : value) : bool := np_all_value x.

(** Arguments given to a node at execution time. *)
Inductive argval :=
| AStr (s : string)
| ABBox (xmin ymin xmax ymax : Z)
| ATime (t : Z)
| AInterval (t0 t1 : Z).

Abbreviation kwargs := (gmap string argval).

(** What a task leaves outside the EOPatch. *)
Inductive event :=
| SavedEOPatch (path folder : string) (patch : EOPatch)
| ExportedTiff (folder filename : string) (feature : Feature) (v : value).

(** *** Task objects, with the constructor arguments of the cells *)

Record MapFeatureTask := mk_MapFeatureTask {
  map_input_features : Feature;
  map_output_features : Feature;
  map_function : value -> result pyobj
}.

Record ZipFeatureTask := mk_ZipFeatureTask {
  zip_input_features : list Feature;
  zip_output_feature : Feature;
  zip_function : list value -> result pyobj
}.

Record TDigestTask := mk_TDigestTask {
  td_in_feature : Feature;
  td_out_feature : Feature;
  td_pixelwise : bool
}.

Record SaveValidTask := mk_SaveValidTask {
  sv_feature_to_check : Feature;
  sv_path : string;
  sv_compress_level : Z
}.

Record SaveTask := mk_SaveTask {
  st_path : string;
  st_compress_level : Z
}.

Record ExportToTiffTask := mk_ExportToTiffTask {
  et_feature : Feature;
  et_folder : string;
  et_fail_on_missing : bool;
  et_compress : string
}.

Record ModelForwardTask := mk_ModelForwardTask {
  mf_in_feature : Feature;
  mf_out_feature : Feature;
  mf_batch_size : Z;
  mf_maxtries : Z;
  mf_timeout : Z
}.

Inductive Task :=
| TSentinelHubInput
| TSentinelHubEvalscript
| TPickIdx
| TTDigest (t : TDigestTask)
| TJoinMasks
| TMergeEOPatches
| TMapFeature (t : MapFeatureTask)
| TZipFeature (t : ZipFeatureTask)
| TSaveValid (t : SaveValidTask)
| TModelForward (t : ModelForwardTask)
| TExportToTiff (t : ExportToTiffTask)
| TSave (t : SaveTask).

(** The tasks whose code is outside the notebooks: the Sentinel Hub
    downloads and the tasks imported from [eolearn] and from the [tasks]
    package, which act on EOPatches only; and the writing of a GeoTiff and
    of an EOPatch to disk by [ExportToTiffTask] and [SaveTask], which can
    raise -- the writer of GeoTiffs raises [TypeError] for an array of
    booleans, for one. *)
Class Services := {
  SentinelHubInputTask_execute : kwargs -> result EOPatch;
  SentinelHubEvalscriptTask_execute : kwargs -> result EOPatch;
  PickIdxTask_execute : EOPatch -> result EOPatch;
  TDigestTask_execute : TDigestTask -> EOPatch -> result EOPatch;
  JoinMasksTask_execute : EOPatch -> result EOPatch;
  MergeEOPatchesTask_execute : list EOPatch -> result EOPatch;
  ModelForwardTask_execute : ModelForwardTask -> EOPatch -> result EOPatch;
  ExportToTiffTask_write : ExportToTiffTask -> string -> value -> result unit;
  SaveTask_write : SaveTask -> string -> EOPatch -> result unit
}.

(** *** What the tasks do *)

Definition key_error {A} (name : string) : result A :=
  Raised (mk_exn KeyError name).

(** A keyword argument that is a string; the tasks default it to the
    empty string. *)
Definition kwarg_str (args : kwargs) (key : string) : string :=
  match args !! key with
  | Some (AStr s) => s
  | _ => EmptyString
  end.

(** [eolearn.core.MapFeatureTask.execute]: the map function is applied to
    the input feature and the outcome is stored under the output
    feature. *)
Definition MapFeatureTask_execute (t : MapFeatureTask) (eopatch : EOPatch)
  : result EOPatch :=
  match eopatch !! map_input_features t with
  | None => key_error (snd (map_input_features t))
  | Some x =>
      y ← map_function t x;
      Ok (<[map_output_features t := VObj y]> eopatch)
  end.

(** [eolearn.core.ZipFeatureTask.execute]: the zip function receives the
    input features in the order given and its outcome is stored under the
    output feature. *)
Definition ZipFeatureTask_execute (t : ZipFeatureTask) (eopatch : EOPatch)
  : result EOPatch :=
  match mapM (fun f => eopatch !! f) (zip_input_features t) with
  | None => key_error "zip input feature"
  | Some data =>
      y ← zip_function t data;
      Ok (<[zip_output_feature t := VObj y]> eopatch)
  end.

(** Modelled from the spec: [tasks/SaveValidTask.py] is not among the
    sources.  The notebook says of it that "only valid EOPatches are
    saved" and passes the feature to check: the EOPatch is written under
    [path/eopatch_folder] when that feature is true, and it is returned in
    either case. *)
Definition SaveValidTask_execute (t : SaveValidTask) (eopatch : EOPatch)
    (args : kwargs) : result EOPatch * list event :=
  match eopatch !! sv_feature_to_check t with
  | None => (key_error (snd (sv_feature_to_check t)), [])
  | Some valid =>
      let folder := kwarg_str args "eopatch_folder" in
      if value_truthy valid
      then (Ok eopatch, [SavedEOPatch (sv_path t) folder eopatch])
      else (Ok eopatch, [])
  end.

(** [eolearn.core.SaveTask.execute]: the EOPatch is written under
    [path/eopatch_folder], and returned when the writing returns. *)
Definition SaveTask_execute `{Services} (t : SaveTask) (eopatch : EOPatch)
    (args : kwargs) : result EOPatch * list event :=
  let folder := kwarg_str args "eopatch_folder" in
  match SaveTask_write t folder eopatch with
  | Ok _ => (Ok eopatch, [SavedEOPatch (st_path t) folder eopatch])
  | Raised e => (Raised e, [])
  end.

(** [eolearn.io.ExportToTiffTask.execute]: a missing feature is an error
    when [fail_on_missing] is set and is skipped otherwise; what the
    feature holds is handed to the writer, and the file [folder/filename]
    exists when the writer returns. *)
Definition ExportToTiffTask_execute `{Services} (t : ExportToTiffTask)
    (eopatch : EOPatch) (args : kwargs) : result EOPatch * list event :=
  let filename := kwarg_str args "filename" in
  match eopatch !! et_feature t with
  | Some v =>
      match ExportToTiffTask_write t filename v with
      | Ok _ => (Ok eopatch, [ExportedTiff (et_folder t) filename (et_feature t) v])
      | Raised e => (Raised e, [])
      end
  | None =>
      if et_fail_on_missing t
      then (Raised (mk_exn ValueError "Feature was not found in EOPatch"), [])
      else (Ok eopatch, [])
  end.

Definition bad_inputs : result EOPatch * list event :=
  (Raised (mk_exn TypeError "execute() got unexpected positional arguments"), []).

(** [task.execute] on the results of the input nodes and the keyword
    arguments of the node, with the events it leaves. *)
Definition execute_task `{Services} (t : Task) (inputs : list EOPatch)
    (args : kwargs) : result EOPatch * list event :=
  match t, inputs with
  | TSentinelHubInput, [] => (SentinelHubInputTask_execute args, [])
  | TSentinelHubEvalscript, [] => (SentinelHubEvalscriptTask_execute args, [])
  | TPickIdx, [p] => (PickIdxTask_execute p, [])
  | TTDigest c, [p] => (TDigestTask_execute c p, [])
  | TJoinMasks, [p] => (JoinMasksTask_execute p, [])
  | TMergeEOPatches, ps => (MergeEOPatchesTask_execute ps, [])
  | TMapFeature c, [p] => (MapFeatureTask_execute c p, [])
  | TZipFeature c, [p] => (ZipFeatureTask_execute c p, [])
  | TSaveValid c, [p] => SaveValidTask_execute c p args
  | TModelForward c, [p] => (ModelForwardTask_execute c p, [])
  | TExportToTiff c, [p] => ExportToTiffTask_execute c p args
  | TSave c, [p] => SaveTask_execute c p args
  | _, _ => bad_inputs
  end.

(** *** Nodes and workflows *)

(** [EONode(task, inputs, name)]; an input is referred to by the name of
    its node. *)
Record EONode := mk_EONode {
  node_task : Task;
  node_inputs : list string;
  node_name : string
}.

Definition find_node (nodes : list EONode) (name : string) : option EONode :=
  find (fun n => String.eqb (node_name n) name) nodes.

(** The names of the nodes that the node [name] depends on, itself
    included. *)
Fixpoint nodes_up_to (fuel : nat) (nodes : list EONode) (name : string)
  : list string :=
  match fuel with
  | O => []
  | S fuel' =>
      match find_node nodes name with
      | None => []
      | Some n => name :: (d ← node_inputs n; nodes_up_to fuel' nodes d)
      end
  end.

(** [EOWorkflow.from_endnodes(endnode)]: the nodes that the end node
    depends on, out of the nodes the notebook has created. *)
Definition from_endnodes (nodes : list EONode) (endnode : EONode) : list EONode :=
  filter (fun n => node_name n ∈ nodes_up_to (S (length nodes)) nodes (node_name endnode))
         nodes.

(** An order of execution in which each node comes after its inputs and
    no node comes twice; [done] holds the names already executed. *)
Fixpoint well_scheduled (done : list string) (sched : list EONode) : bool :=
  match sched with
  | [] => true
  | n :: rest =>
      forallb (fun d => bool_decide (d ∈ done)) (node_inputs n)
      && negb (bool_decide (node_name n ∈ done))
      && well_scheduled (node_name n :: done) rest
  end.

(** The workflow executes its nodes in a topological order. *)
Definition schedule_of (workflow sched : list EONode) : Prop :=
  sched ≡ₚ workflow /\ well_scheduled [] sched = true.

(** The arguments of one execution: a dictionary from nodes to keyword
    arguments. *)
Definition node_args (workflow_args : gmap string kwargs) (n : EONode) : kwargs :=
  default ∅ (workflow_args !! node_name n).

(** One node: its inputs are the results of its input nodes. *)
Definition execute_node `{Services} (workflow_args : gmap string kwargs)
    (results : gmap string EOPatch) (n : EONode)
  : M (list event) (gmap string EOPatch) :=
  fun log =>
    match mapM (fun d => results !! d) (node_inputs n) with
    | None => (key_error "intermediate result", log)
    | Some inputs =>
        match execute_task (node_task n) inputs (node_args workflow_args n) with
        | (Ok out, evs) => (Ok (<[node_name n := out]> results), log ++ evs)
        | (Raised e, evs) => (Raised e, log ++ evs)
        end
    end.

Fixpoint execute_nodes `{Services} (workflow_args : gmap string kwargs)
    (sched : list EONode) (results : gmap string EOPatch)
  : M (list event) (gmap string EOPatch) :=
  match sched with
  | [] => ret results
  | n :: rest =>
      bind (execute_node workflow_args results n)
           (execute_nodes workflow_args rest)
  end.

(** [workflow.execute(workflow_args)] along the schedule [sched]. *)
Definition EOWorkflow_execute `{Services} (sched : list EONode)
    (workflow_args : gmap string kwargs)
  : result (gmap string EOPatch) * list event :=
  execute_nodes workflow_args sched ∅ [].

(** *** Notions used to state properties of a run *)

Definition names (l : list EONode) : list string := node_name <$> l.

(** [a] is executed before [b]. *)
Definition before (sched : list EONode) (a b : string) : Prop :=
  exists i j, (i < j)%nat /\ names sched !! i = Some a /\ names sched !! j = Some b.

(** In the results [res] the node [n] holds the outcome [out] of its task
    on the results of its input nodes, and the task left the events
    [evs]. *)
Definition node_run `{Services} (workflow_args : gmap string kwargs)
    (res : gmap string EOPatch) (n : EONode)
    (out : EOPatch) (evs : list event) : Prop :=
  exists inputs,
    mapM (fun d => res !! d) (node_inputs n) = Some inputs /\
    execute_task (node_task n) inputs (node_args workflow_args n) = (Ok out, evs) /\
    res !! node_name n = Some out.

(** A task that leaves no events. *)
Definition silent `{Services} (t : Task) : Prop :=
  forall inputs args, (execute_task t inputs args).2 = [].

End EOLearn.

(* ===================================================================== *)
(** ** 00_Configuration (Example_WaterSegmentation) *)
(* ===================================================================== *)

Module Configuration.

(** [os.path.join(a, b)] on a POSIX system. *)
Definition path_join (a b : string) : string :=
  if String.prefix "/" b then b
  else match a with
       | EmptyString => b
       | _ => match String.get (String.length a - 1)%nat a with
              | Some "/"%char => a ++ b
              | _ => a ++ "/" ++ b
              end
       end.

(** The platform on which a notebook runs.  The test
    [platform.system()=="Windows"] holds on Windows only, and there
    [os.path.join] is [ntpath.join], a function of the standard library
    that is not embedded: the platform carries it. *)
Inductive platform :=
| Posix
| Windows (ntpath_join : string -> string -> string).

(** [platform.system()=="Windows"] *)
Definition is_Windows (system : platform) : bool :=
  match system with
  | Posix => false
  | Windows _ => true
  end.

(** [os.path.join(a, b)] *)
Definition os_path_join (system : platform) (a b : string) : string :=
  match system with
  | Posix => path_join a b
  | Windows ntpath_join => ntpath_join a b
  end.

(** The attributes of [config] that the cells embedded here read.  Points
    in time are seconds since the epoch, durations are seconds; the
    quantiles and scaler values are the decimal literals of the cell. *)
Record Config := mk_Config {
  name : string;
  savename : string;
  savename_config : string;
  basedir : string;
  dir_results : string;
  dir_data : string;
  dir_train : string;
  dir_validation : string;
  dir_test : string;
  dir_showcase : string;
  dir_tiffs : string;
  dir_tiffs_showcase : string;
  dir_cache : string;
  patchpixelwidth : Z;
  resolution : Z;
  datatimedelta : Z;
  start_train : Z; end_train : Z;
  start_validation : Z; end_validation : Z;
  start_test : Z; end_test : Z;
  end_showcase : Z;
  n_observations_showcase : Z;
  threads : Z;
  device : string;
  max_batch_size : Z;
  savename_tdigest : string;
  savename_scaler : string;
  scaler_minquantile : Q;
  scaler_maxquantile : Q;
  scaler_valmin : Q;
  scaler_valmax : Q;
  scaler_nanval : list Q;
  scaler_infval : list Q
}.

(** The cells of 00_Configuration, in order.  [cwd] is [os.getcwd()],
    [system] is the platform and [cuda] is [cuda_available()]. *)
Definition configuration (cwd : string) (system : platform) (cuda : bool) : Config :=
  let path_join := os_path_join system in
  let savename := "WaterSegmentationRun" in
  let basedir := path_join cwd savename in
  let dir_results := path_join basedir "results" in
  let dir_data := path_join basedir "data" in
  let dir_tiffs := path_join dir_results "tiffs" in
  let start_train := 1661817600 (* 2022-08-30 *) in
  let end_train := 1661990400 (* 2022-09-01 *) in
  {| name := "GEM-ML-Framework_WaterSegmentation";
     savename := savename;
     savename_config := "config.dill";
     basedir := basedir;
     dir_results := dir_results;
     dir_data := dir_data;
     dir_train := path_join dir_data "train";
     dir_validation := path_join dir_data "validation";
     dir_test := path_join dir_data "test";
     dir_showcase := path_join dir_data "showcase";
     dir_tiffs := dir_tiffs;
     dir_tiffs_showcase := path_join dir_tiffs "showcase";
     dir_cache := path_join cwd "cache";
     patchpixelwidth := 256;
     resolution := 20;
     datatimedelta := 1 * 86400 + 12 * 3600;
     start_train := start_train; end_train := end_train;
     start_validation := start_train; end_validation := end_train;
     start_test := start_train; end_test := end_train;
     end_showcase := 1599436800 (* 2020-09-07, the second assignment *);
     n_observations_showcase := 8;
     threads := if is_Windows system then 1 else 5;
     device := if cuda then "cuda" else "cpu";
     max_batch_size := 6;
     savename_tdigest := savename ++ "_TDigest.npy";
     savename_scaler := savename ++ "_QuantileScaler.dill";
     scaler_minquantile := (1 # 100)%Q;
     scaler_maxquantile := (96 # 100)%Q;
     scaler_valmin := 0%Q;
     scaler_valmax := 1%Q;
     scaler_nanval := [0%Q; 0%Q];
     scaler_infval := [0%Q; 0%Q] |}.

End Configuration.

(* ===================================================================== *)
(** ** 01_DataAcquisition (Example_WaterSegmentation) *)
(* ===================================================================== *)

Module DataAcquisition.
Import NumPy EOLearn Effects Configuration.

(** *** The checking functions defined in the notebook *)

(** [np.count_nonzero(array)] and [array.size] on what a feature holds; a
    builtin object has no attribute [size]. *)
Definition np_count_nonzero (array : value) : Z :=
  match array with
  | VArray a => Z.of_nat (count_nonzero a)
  | VObj o => Z.b2z (truthy o)
  | VDigests ds =>
      Z.of_nat (length (filter (fun d => length d <> 0%nat) ds))
  end.

Definition array_size (array : value) : result Z :=
  match array with
  | VArray a => Ok (Z.of_nat (size a))
  | VDigests ds => Ok (Z.of_nat (length ds))
  | VObj _ => Raised (mk_exn AttributeError "object has no attribute 'size'")
  end.

(** [def checker_nodata(array): return bool(np.all(array))] *)
Definition checker_nodata (array : value) : result pyobj :=
  Ok (PyBool (np_all_value array)).

(** [def checker_waterdata(array):
       return bool(np.count_nonzero(array)>=0.05*array.size)]
    The product is a binary64 product of the literal and the size; the
    comparison of the count with it is exact. *)
Definition checker_waterdata (array : value) : result pyobj :=
  n ← array_size array;
  fn ← to_float (PyInt n);
  let threshold := Float64.mul Float64.lit_0_05 fn in
  Ok (PyBool (Float64.Z_geb (np_count_nonzero array) threshold)).

(** [zipper] takes its positional arguments as the tuple [arrays]:
    [return bool(np.all([np.all(array) for array in arrays]))] *)
Definition zipper (arrays : list value) : result pyobj :=
  let flags := map (fun array => SBool (np_all_value array)) arrays in
  Ok (PyBool (np_all (mk_ndarray [length flags] flags))).

(** *** The tasks *)

Definition task_tdigest : TDigestTask :=
  {| td_in_feature := (DATA, "data");
     td_out_feature := (SCALAR_TIMELESS, "tdigest_data");
     td_pixelwise := false |}.

Definition task_data_check : MapFeatureTask :=
  {| map_input_features := (MASK, "dmask_data");
     map_output_features := (META_INFO, "valid_data");
     map_function := checker_nodata |}.

Definition task_reference_check : MapFeatureTask :=
  {| map_input_features := (MASK_TIMELESS, "reference");
     map_output_features := (META_INFO, "valid_reference");
     map_function := checker_waterdata |}.

Definition task_zip : ZipFeatureTask :=
  {| zip_input_features := [(META_INFO, "valid_data"); (META_INFO, "valid_reference")];
     zip_output_feature := (META_INFO, "valid");
     zip_function := zipper |}.

Definition task_save (config : Config) : SaveValidTask :=
  {| sv_feature_to_check := (META_INFO, "valid");
     sv_path := dir_data config;
     sv_compress_level := 2 |}.

(** *** The nodes *)

Definition node_data : EONode :=
  {| node_task := TSentinelHubInput;
     node_inputs := [];
     node_name := "load Sentinel-1 data" |}.

Definition node_pick : EONode :=
  {| node_task := TPickIdx;
     node_inputs := [node_name node_data];
     node_name := "pick closest observation to reference" |}.

Definition node_tdigest : EONode :=
  {| node_task := TTDigest task_tdigest;
     node_inputs := [node_name node_pick];
     node_name := "compute T-Digest" |}.

Definition node_data_check : EONode :=
  {| node_task := TMapFeature task_data_check;
     node_inputs := [node_name node_tdigest];
     node_name := "check data for completeness" |}.

Definition node_reference : EONode :=
  {| node_task := TSentinelHubEvalscript;
     node_inputs := [];
     node_name := "load Sentinel-2 based reference" |}.

Definition node_reference_mask : EONode :=
  {| node_task := TJoinMasks;
     node_inputs := [node_name node_reference];
     node_name := "merge reference masks to one" |}.

Definition node_reference_check : EONode :=
  {| node_task := TMapFeature task_reference_check;
     node_inputs := [node_name node_reference_mask];
     node_name := "check reference for completeness" |}.

Definition node_merge : EONode :=
  {| node_task := TMergeEOPatches;
     node_inputs := [node_name node_data_check; node_name node_reference_check];
     node_name := "merge data and reference EOPatches" |}.

Definition node_zip : EONode :=
  {| node_task := TZipFeature task_zip;
     node_inputs := [node_name node_merge];
     node_name := "zip checking criterions" |}.

Definition node_save (config : Config) : EONode :=
  {| node_task := TSaveValid (task_save config);
     node_inputs := [node_name node_zip];
     node_name := "save valid EOPatch" |}.

(** The nodes that the notebook creates, in the order of the cells. *)
Definition nodes (config : Config) : list EONode :=
  [node_data; node_pick; node_tdigest; node_data_check;
   node_reference; node_reference_mask; node_reference_check;
   node_merge; node_zip; node_save config].

(** [workflow = EOWorkflow.from_endnodes(node_save)] *)
Definition workflow (config : Config) : list EONode :=
  from_endnodes (nodes config) (node_save config).

(** *** The cell that collects the workflow arguments *)

Inductive split := train | validation | test.

Definition split_name (s : split) : string :=
  match s with
  | train => "train"
  | validation => "validation"
  | test => "test"
  end.

Inductive DataCollection := SENTINEL2_L1C | SENTINEL1_IW.

Abbreviation BBox := (Z * Z * Z * Z)%type.

Definition bbox_arg (b : BBox) : argval :=
  let '(xmin, ymin, xmax, ymax) := b in ABBox xmin ymin xmax ymax.

(** What the cell calls outside the notebook: the random patch indices of
    [np.random.randint(0, n, k)], the catalogue query
    [get_available_timestamps], [os.path.exists] and [strftime]; and the
    platform on which the notebook runs, which decides what
    [os.path.join] is. *)
Class Queries := {
  system : platform;
  randint : split -> nat -> nat -> result (list nat);
  get_available_timestamps : DataCollection -> BBox -> Z * Z -> result (list Z);
  path_exists : string -> bool;
  strftime : Z -> string
}.

(** What a call of [print] writes, without the string given as [end]:
    a text, or an exception and a time interval. *)
Inductive printed :=
| PrintText (s : string)
| PrintException (e : exn) (interval : Z * Z).

(** The carriage return that the progress lines start with. *)
Definition CR : string := String "013" EmptyString.

(** A catalogue query that the cell has issued. *)
Inductive query := Query (c : DataCollection) (b : BBox) (interval : Z * Z).

(** The variables of the cell and what it has written and queried. *)
Record cell_state := mk_cell_state {
  workflow_args : list (gmap string kwargs);
  stdout : list printed;
  queried : list query
}.

Definition print (line : printed) : M cell_state unit :=
  modify (fun s => mk_cell_state (workflow_args s) (stdout s ++ [line]) (queried s)).

Definition append_args (a : gmap string kwargs) : M cell_state unit :=
  modify (fun s => mk_cell_state (workflow_args s ++ [a]) (stdout s) (queried s)).

(** A call of [get_available_timestamps]. *)
Definition query_timestamps `{Queries} (c : DataCollection) (b : BBox)
    (interval : Z * Z) : M cell_state (list Z) :=
  fun s =>
    (get_available_timestamps c b interval,
     mk_cell_state (workflow_args s) (stdout s) (queried s ++ [Query c b interval])).

Definition eopatch_dir `{Queries} (s : split) (i : nat) (timestamp_ : Z) : string :=
  split_name s ++ "/eopatch_" ++ pretty i ++ "_" ++ strftime timestamp_.

(** The dictionary appended to [workflow_args]. *)
Definition acquisition_args `{Queries} (config : Config) (s : split) (i : nat)
    (bbox : BBox) (timestamp_ : Z) : gmap string kwargs :=
  {[ node_name node_data :=
       {[ "bbox" := bbox_arg bbox;
          "time_interval" := AInterval (timestamp_ - datatimedelta config) timestamp_ ]};
     node_name node_reference :=
       {[ "bbox" := bbox_arg bbox; "time_interval" := ATime timestamp_ ]};
     node_name (node_save config) :=
       {[ "eopatch_folder" := AStr (eopatch_dir s i timestamp_) ]} ]}.

(** The body of [for timestamp_ in timestamps_]: the [try] statement. *)
Definition timestamp_body `{Queries} (config : Config) (s : split) (i : nat)
    (bbox : BBox) (timestamp_ : Z) : M cell_state unit :=
  let interval := (timestamp_ - datatimedelta config, timestamp_) in
  try_except
    (timestamps2_ ← query_timestamps SENTINEL1_IW bbox interval;
     match timestamps2_ with
     | [] => ret tt
     | _ :: _ =>
         let dir_ := eopatch_dir s i timestamp_ in
         if negb (path_exists (os_path_join system (dir_data config) dir_))
         then append_args (acquisition_args config s i bbox timestamp_)
         else ret tt
     end)
    (fun e => print (PrintException e interval)).

Definition split_interval (config : Config) (s : split) : Z * Z :=
  match s with
  | train => (start_train config, end_train config)
  | validation => (start_validation config, end_validation config)
  | test => (start_test config, end_test config)
  end.

(** The body of [for i in np.random.randint(...)]: the first query is
    outside the [try] statement. *)
Definition bbox_body `{Queries} (config : Config) (s : split)
    (bbox_list_ : list BBox) (i : nat) : M cell_state unit :=
  _ ← print (PrintText (CR ++ pretty (i + 1)%nat ++ "/"
                         ++ pretty (length bbox_list_)));
  bbox ← lift (match bbox_list_ !! i with
               | Some b => Ok b
               | None => Raised (mk_exn IndexError "index out of bounds")
               end);
  timestamps_ ← query_timestamps SENTINEL2_L1C bbox (split_interval config s);
  for_each timestamps_ (timestamp_body config s i bbox).

(** The body of [for _ in ["train","validation","test"]]. *)
Definition split_body `{Queries} (config : Config) (bbox_lists : split -> list BBox)
    (s : split) : M cell_state unit :=
  _ ← print (PrintText (split_name s));
  let bbox_list_ := bbox_lists s in
  idxs ← lift (randint s (length bbox_list_)
                 (match s with train => 40 | _ => 10 end)%nat);
  _ ← for_each idxs (bbox_body config s bbox_list_);
  print (PrintText "").

(** The whole cell, from [workflow_args = []] to the final [print]. *)
Definition collect_workflow_args `{Queries} (config : Config)
    (bbox_lists : split -> list BBox) : M cell_state unit :=
  _ ← modify (fun s => mk_cell_state [] (stdout s) (queried s));
  _ ← for_each [train; validation; test] (split_body config bbox_lists);
  n ← gets (fun s => length (workflow_args s));
  print (PrintText ("Number of downloads: " ++ pretty n)).

(** The nodes before [node_save]. *)
Definition upstream : list EONode :=
  [node_data; node_pick; node_tdigest; node_data_check;
   node_reference; node_reference_mask; node_reference_check;
   node_merge; node_zip].

(** The exceptions among the printed lines. *)
Definition printed_exceptions (lines : list printed) : list exn :=
  omap (fun line => match line with
                    | PrintException e _ => Some e
                    | PrintText _ => None
                    end) lines.

(** What the iteration for [timestamp_] is to print and to append, read
    off the outcome of its one Sentinel-1 query. *)
Definition timestamp_query `{Queries} (config : Config) (bbox : BBox)
    (timestamp_ : Z) : query :=
  Query SENTINEL1_IW bbox (timestamp_ - datatimedelta config, timestamp_).

Definition timestamp_prints `{Queries} (config : Config) (bbox : BBox)
    (timestamp_ : Z) : list printed :=
  let interval := (timestamp_ - datatimedelta config, timestamp_) in
  match get_available_timestamps SENTINEL1_IW bbox interval with
  | Raised e => [PrintException e interval]
  | Ok _ => []
  end.

Definition timestamp_appends `{Queries} (config : Config) (s : split) (i : nat)
    (bbox : BBox) (timestamp_ : Z) : list (gmap string kwargs) :=
  let interval := (timestamp_ - datatimedelta config, timestamp_) in
  match get_available_timestamps SENTINEL1_IW bbox interval with
  | Ok (_ :: _) =>
      if path_exists
           (os_path_join system (dir_data config) (eopatch_dir s i timestamp_))
      then []
      else [acquisition_args config s i bbox timestamp_]
  | _ => []
  end.

(** Every exception that a query raises derives from [Exception]. *)
Definition queries_raise_Exception `{Queries} : Prop :=
  forall c b interval e,
    get_available_timestamps c b interval = Raised e -> is_Exception e = true.

End DataAcquisition.

(* ===================================================================== *)
(** ** 02_DataNormalization (Example_WaterSegmentation) *)
(* ===================================================================== *)

Module DataNormalization.
Import NumPy EOLearn Effects Configuration.

(** What the notebook calls in the libraries: [os.listdir]; the loading
    of the t-digests, one per band, that the EOPatch stored at a path
    holds under a feature (eo-learn); the merge of the t-digest library,
    which takes the digests of the shards; the method [percentile] of a
    t-digest and the array [np.linspace(0,100,100)]. *)
Class Library := {
  listdir : string -> result (list string);
  load_tdigests : string -> Feature -> result (list TDigest);
  merge_tdigests : list (list TDigest) -> result (list TDigest);
  percentile : TDigest -> spec_float -> spec_float;
  linspace_0_100_100 : list spec_float
}.

(** Modelled from the spec: [libs/MergeTDigests.py], which defines
    [mergeTDigests], is not among the sources.  The spec says of the
    merge of the quantile sketches of the data shards that it "is itself
    a thin wrapper call into an existing statistical library, not an
    original algorithm implemented here": the digests that the EOPatches
    at [paths] hold under [feature] are loaded in the order of [paths]
    and handed to the merge of the library, whose outcome is returned.
    The number of threads says how the loading is distributed; it does
    not enter the outcome. *)
Definition mergeTDigests `{Library} (paths : list string) (feature : Feature)
    (threads_ : Z) : result (list TDigest) :=
  shards ← mapM (fun path => load_tdigests path feature) paths;
  merge_tdigests shards.

(** A [QuantileScaler_eolearn_tdigest] object: the arguments of its
    constructor; [transform] is [Torchify(1)], kept by its argument. *)
Record QuantileScaler := mk_QuantileScaler {
  tdigestarray : list TDigest;
  minquantile : Q;
  maxquantile : Q;
  nanval : list Q;
  infval : list Q;
  valmin : Q;
  valmax : Q;
  transform : Z;
  savename : string
}.

(** What the notebook writes to disk. *)
Inductive file :=
| NpyDigests (ds : list TDigest)
| DillScaler (s : QuantileScaler).

(** A call of [mergeTDigests]. *)
Record merge_call := mk_merge_call {
  call_paths : list string;
  call_feature : Feature;
  call_threads : Z
}.

(** The variables of the notebook, the files written, in order, and the
    calls of [mergeTDigests]. *)
Record cell_state := mk_cell_state {
  tdigest : option (list TDigest);
  quantilesVV : option (list spec_float);
  quantilesVH : option (list spec_float);
  Scaler : option QuantileScaler;
  written : list (string * file);
  merges : list merge_call
}.

Definition name_error {A} (var : string) : result A :=
  Raised (mk_exn NameError ("name '" ++ var ++ "' is not defined")).

(** Reading a variable of the notebook. *)
Definition read {A} (var : string) (get : cell_state -> option A) : M cell_state A :=
  fun s => match get s with
           | Some a => (Ok a, s)
           | None => (name_error var, s)
           end.

Definition index {A} (l : list A) (i : nat) : result A :=
  match l !! i with
  | Some a => Ok a
  | None => Raised (mk_exn IndexError "index out of bounds")
  end.

Definition write (path : string) (f : file) : M cell_state unit :=
  modify (fun s => mk_cell_state (tdigest s) (quantilesVV s) (quantilesVH s)
                     (Scaler s) (written s ++ [(path, f)]) (merges s)).

(** A call of [mergeTDigests], recorded. *)
Definition call_mergeTDigests `{Library} (paths : list string) (feature : Feature)
    (threads_ : Z) : M cell_state (list TDigest) :=
  fun s =>
    (mergeTDigests paths feature threads_,
     mk_cell_state (tdigest s) (quantilesVV s) (quantilesVH s) (Scaler s)
       (written s) (merges s ++ [mk_merge_call paths feature threads_])).

(** The cell [tdigest = mergeTDigests(paths=..., feature=..., threads=...)]. *)
Definition merge_cell `{Library} (config : Config) (system : platform)
  : M cell_state unit :=
  dirs ← lift (listdir (dir_train config));
  td ← call_mergeTDigests
         (os_path_join system (dir_train config) <$> dirs)
         (SCALAR_TIMELESS, "tdigest_data")
         (if is_Windows system then 0 else threads config);
  modify (fun s => mk_cell_state (Some td) (quantilesVV s) (quantilesVH s)
                     (Scaler s) (written s) (merges s)).

(** The cell that computes [quantilesVV] and [quantilesVH]; the arrays
    [xVV], [cdfVV], [xVH] and [cdfVH], read by the plots only, are left
    out. *)
Definition analyse_cell `{Library} : M cell_state unit :=
  td ← read "tdigest" tdigest;
  vv ← lift (index td 0);
  _ ← modify (fun s => mk_cell_state (tdigest s)
                         (Some (percentile vv <$> linspace_0_100_100))
                         (quantilesVH s) (Scaler s) (written s) (merges s));
  td ← read "tdigest" tdigest;
  vh ← lift (index td 1);
  modify (fun s => mk_cell_state (tdigest s) (quantilesVV s)
                     (Some (percentile vh <$> linspace_0_100_100))
                     (Scaler s) (written s) (merges s)).

(** [np.save(os.path.join(config["dir_results"],config["savename_tdigest"]),tdigest)] *)
Definition save_cell (config : Config) (system : platform) : M cell_state unit :=
  td ← read "tdigest" tdigest;
  write (os_path_join system (dir_results config) (savename_tdigest config))
    (NpyDigests td).

(** [QuantileScaler_eolearn_tdigest(tdigestarray = tdigest, ...)] with the
    arguments of the cell. *)
Definition new_Scaler (config : Config) (system : platform) (td : list TDigest)
  : QuantileScaler :=
  {| tdigestarray := td;
     minquantile := scaler_minquantile config;
     maxquantile := scaler_maxquantile config;
     nanval := scaler_nanval config;
     infval := scaler_infval config;
     valmin := scaler_valmin config;
     valmax := scaler_valmax config;
     transform := 1;
     savename := os_path_join system (dir_results config) (savename_scaler config) |}.

(** [Scaler = QuantileScaler_eolearn_tdigest(...)] *)
Definition scaler_cell (config : Config) (system : platform) : M cell_state unit :=
  td ← read "tdigest" tdigest;
  modify (fun s => mk_cell_state (tdigest s) (quantilesVV s) (quantilesVH s)
                     (Some (new_Scaler config system td)) (written s) (merges s)).

(** [Scaler.save()] *)
Definition scaler_save_cell : M cell_state unit :=
  scaler ← read "Scaler" Scaler;
  write (savename scaler) (DillScaler scaler).

(** The cells that assign, analyse and store the digest and the scaler,
    in the order of the notebook; the cells that plot, and the call
    [Scaler(quantiles)] that feeds them, are left out. *)
Definition notebook `{Library} (config : Config) (system : platform)
  : M cell_state unit :=
  _ ← merge_cell config system;
  _ ← analyse_cell;
  _ ← save_cell config system;
  _ ← scaler_cell config system;
  scaler_save_cell.

(** [QuantileScaler_eolearn_tdigest.LOAD(path)], as the notebooks for
    training and inference call it: the object last saved under
    [path]. *)
Definition QuantileScaler_LOAD (written : list (string * file)) (path : string)
  : result QuantileScaler :=
  match find (fun w => String.eqb w.1 path) (rev written) with
  | Some (_, DillScaler s) => Ok s
  | _ => Raised (mk_exn RuntimeError "no scaler stored under this path")
  end.

(** The value of a pixel in a band. *)
Inductive sample :=
| NaN
| Inf
| Finite (x : Q).

(** The quantile of a t-digest at a fraction between 0 and 1. *)
Class Quantiles := {
  quantile : TDigest -> Q -> Q
}.

(** Modelled from the spec: the scaler maps, band by band, the minimum
    quantile of the digest to [valmin] and the maximum quantile to
    [valmax], linearly in between, and replaces NaN by [nanval] and
    infinite values by [infval].  The class is defined in
    libs/QuantileScaler_eolearn.py. *)
Definition QuantileScaler_scale `{Quantiles} (s : QuantileScaler) (band : nat)
    (x : sample) : option Q :=
  d ← tdigestarray s !! band;
  nan_ ← nanval s !! band;
  inf_ ← infval s !! band;
  let lo := quantile d (minquantile s) in
  let hi := quantile d (maxquantile s) in
  Some match x with
       | NaN => nan_
       | Inf => inf_
       | Finite q => (valmin s + (q - lo) * (valmax s - valmin s) / (hi - lo))%Q
       end.

End DataNormalization.

(* ===================================================================== *)
(** ** 04_PyTorchTasks_ModelForwardTask (Example_WaterSegmentation) *)
(* ===================================================================== *)

Module ModelForward.
Import NumPy EOLearn Effects Configuration.
Import DataAcquisition (BBox, bbox_arg, Queries, system, path_exists,
                        strftime, printed, PrintText, PrintException, CR,
                        printed_exceptions).

(** *** The tasks and the nodes *)

Definition task_model (config : Config) : ModelForwardTask :=
  {| mf_in_feature := (DATA, "data");
     mf_out_feature := (MASK, "model_output");
     mf_batch_size := max_batch_size config;
     mf_maxtries := 3;
     mf_timeout := 22 |}.

Definition task_tiff (config : Config) : ExportToTiffTask :=
  {| et_feature := (MASK, "model_output");
     et_folder := dir_tiffs_showcase config;
     et_fail_on_missing := true;
     et_compress := "deflate" |}.

Definition task_save (config : Config) : SaveTask :=
  {| st_path := dir_data config;
     st_compress_level := 2 |}.

Definition node_data : EONode :=
  {| node_task := TSentinelHubInput;
     node_inputs := [];
     node_name := "load Sentinel-1 data" |}.

Definition node_model (config : Config) : EONode :=
  {| node_task := TModelForward (task_model config);
     node_inputs := [node_name node_data];
     node_name := "predict water mask" |}.

Definition node_tiff (config : Config) : EONode :=
  {| node_task := TExportToTiff (task_tiff config);
     node_inputs := [node_name (node_model config)];
     node_name := "export GeoTiff of model output" |}.

Definition node_save (config : Config) : EONode :=
  {| node_task := TSave (task_save config);
     node_inputs := [node_name (node_tiff config)];
     node_name := "save EOPatch" |}.

Definition nodes (config : Config) : list EONode :=
  [node_data; node_model config; node_tiff config; node_save config].

(** [workflow = EOWorkflow.from_endnodes(node_save)] *)
Definition workflow (config : Config) : list EONode :=
  from_endnodes (nodes config) (node_save config).

(** *** The cell that collects the workflow arguments *)

(** [utils.parse_time_interval_observations], which queries the
    catalogue for the interval of the last observations. *)
Class Observations := {
  parse_time_interval_observations : BBox -> result (Z * Z)
}.

(** The variables of the cell -- [timeinterval] may be unbound -- and
    what it has written and called. *)
Record cell_state := mk_cell_state {
  workflow_args : list (gmap string kwargs);
  timeinterval : option (Z * Z);
  stdout : list printed;
  parsed : list BBox
}.

Definition print (line : printed) : M cell_state unit :=
  modify (fun s => mk_cell_state (workflow_args s) (timeinterval s)
                     (stdout s ++ [line]) (parsed s)).

Definition append_args (a : gmap string kwargs) : M cell_state unit :=
  modify (fun s => mk_cell_state (workflow_args s ++ [a]) (timeinterval s)
                     (stdout s) (parsed s)).

(** [timeinterval = parse_time_interval_observations(...)]: the variable
    is bound when the call returns. *)
Definition assign_timeinterval `{Observations} (bbox : BBox) : M cell_state (Z * Z) :=
  fun s =>
    let called := parsed s ++ [bbox] in
    match parse_time_interval_observations bbox with
    | Ok ti => (Ok ti, mk_cell_state (workflow_args s) (Some ti) (stdout s) called)
    | Raised e => (Raised e, mk_cell_state (workflow_args s) (timeinterval s)
                               (stdout s) called)
    end.

Definition timeintervalstring `{Queries} (ti : Z * Z) : string :=
  strftime ti.1 ++ "--" ++ strftime ti.2.

Definition showcase_args `{Queries} (config : Config) (i : nat) (bbox : BBox)
    (ti : Z * Z) : gmap string kwargs :=
  {[ node_name node_data :=
       {[ "bbox" := bbox_arg bbox; "time_interval" := AInterval ti.1 ti.2 ]};
     node_name (node_tiff config) :=
       {[ "filename" := AStr ("water_" ++ pretty i ++ "_" ++ timeintervalstring ti) ]};
     node_name (node_save config) :=
       {[ "eopatch_folder" :=
            AStr ("showcase/eopatch_" ++ pretty i ++ "_" ++ timeintervalstring ti) ]} ]}.

(** The handler [print(e,timeinterval)]: reading an unbound variable
    raises [NameError]. *)
Definition handler (e : exn) : M cell_state unit :=
  fun s =>
    match timeinterval s with
    | Some ti => print (PrintException e ti) s
    | None => (Raised (mk_exn NameError "name 'timeinterval' is not defined"), s)
    end.

(** The body of [for i in range(len(bbox_list_))]. *)
Definition bbox_body `{Queries} `{Observations} (config : Config)
    (bbox_list_ : list BBox) (i : nat) : M cell_state unit :=
  _ ← print (PrintText (CR ++ "Checking workflow args " ++ pretty (i + 1)%nat ++ "/"
                         ++ pretty (length bbox_list_)));
  try_except
    (bbox ← lift (match bbox_list_ !! i with
                  | Some b => Ok b
                  | None => Raised (mk_exn IndexError "index out of bounds")
                  end);
     ti ← assign_timeinterval bbox;
     let dir_ :=
       ("showcase/eopatch_" ++ pretty i ++ "_" ++ timeintervalstring ti)%string in
     if negb (path_exists (os_path_join system (dir_data config) dir_))
     then append_args (showcase_args config i bbox ti)
     else ret tt)
    handler.

(** The whole cell. *)
Definition collect_workflow_args `{Queries} `{Observations} (config : Config)
    (bbox_list_showcase : list BBox) : M cell_state unit :=
  _ ← modify (fun s => mk_cell_state [] (timeinterval s) (stdout s) (parsed s));
  let bbox_list_ := bbox_list_showcase in
  _ ← for_each (seq 0 (length bbox_list_)) (bbox_body config bbox_list_);
  _ ← print (PrintText "");
  n ← gets (fun s => length (workflow_args s));
  print (PrintText ("Number of downloads/calculations: " ++ pretty n)).

(** The exceptions that the calls of [parse_time_interval_observations]
    raise on the bounding boxes. *)
Definition parse_exceptions `{Observations} (bboxes : list BBox) : list exn :=
  omap (fun b => match parse_time_interval_observations b with
                 | Raised e => Some e
                 | Ok _ => None
                 end) bboxes.

(** What the iteration for [i] is to append. *)
Definition showcase_appends `{Queries} `{Observations} (config : Config)
    (bbox_list_ : list BBox) (i : nat) : list (gmap string kwargs) :=
  match bbox_list_ !! i with
  | Some bbox =>
      match parse_time_interval_observations bbox with
      | Ok ti =>
          if path_exists
               (os_path_join system (dir_data config)
                  ("showcase/eopatch_" ++ pretty i ++ "_" ++ timeintervalstring ti))
          then []
          else [showcase_args config i bbox ti]
      | Raised _ => []
      end
  | None => []
  end.

Definition parse_raises_Exception `{Observations} : Prop :=
  forall b e, parse_time_interval_observations b = Raised e -> is_Exception e = true.

End ModelForward.

(* ===================================================================== *)
(** ** A small instance of the services, for the examples *)
(* ===================================================================== *)

Module Examples.
Import NumPy EOLearn Configuration.

Definition config : Config :=
  configuration "/home/user/GEM-ML/Example_WaterSegmentation" Posix false.

(** An array of shape (2, 1) with a NaN entry. *)
Definition array_2x1 : ndarray :=
  mk_ndarray [2; 1]%nat [SFloat Float64.one; SFloat S754_nan].

(** A reference of twenty pixels, one of them water. *)
Definition reference_1_of_20 : ndarray :=
  mk_ndarray [4; 5; 1]%nat (SInt 1 :: replicate 19 (SInt 0)).

Definition data_patch : EOPatch :=
  {[ (DATA, "data") := VArray array_2x1;
     (MASK, "dmask_data") := VArray (mk_ndarray [2; 1]%nat [SBool true; SBool true]) ]}.

Definition reference_patch : EOPatch :=
  {[ (MASK_TIMELESS, "reference") := VArray reference_1_of_20 ]}.

(** What the writer of GeoTiffs stores: arrays, except arrays of
    booleans. *)
Definition write_tiff (v : value) : result unit :=
  match v with
  | VArray a =>
      if existsb (fun x => match x with SBool _ => true | _ => false end) (flat a)
      then Raised (mk_exn TypeError "invalid dtype: 'bool'")
      else Ok tt
  | _ => Raised (mk_exn TypeError "the feature does not hold an array")
  end.

(** Downloads that return the two patches above, a merge that keeps the
    first value of each feature, a t-digest task that adds an empty
    digest, a model that labels both pixels as water in an array of
    integers, and a disk that stores what it is given. *)
Definition services : Services :=
  {| SentinelHubInputTask_execute := fun _ => Ok data_patch;
     SentinelHubEvalscriptTask_execute := fun _ => Ok reference_patch;
     PickIdxTask_execute := fun p => Ok p;
     TDigestTask_execute := fun t p => Ok (<[td_out_feature t := VDigests []]> p);
     JoinMasksTask_execute := fun p => Ok p;
     MergeEOPatchesTask_execute := fun ps => Ok (foldr (fun a b => a ∪ b) ∅ ps);
     ModelForwardTask_execute := fun t p =>
       Ok (<[mf_out_feature t :=
               VArray (mk_ndarray [2; 1]%nat [SInt 1; SInt 1])]> p);
     ExportToTiffTask_write := fun _ _ v => write_tiff v;
     SaveTask_write := fun _ _ _ => Ok tt |}.

(** The same services with a model whose output is an array of
    booleans. *)
Definition services_bool_output : Services :=
  {| SentinelHubInputTask_execute := fun _ => Ok data_patch;
     SentinelHubEvalscriptTask_execute := fun _ => Ok reference_patch;
     PickIdxTask_execute := fun p => Ok p;
     TDigestTask_execute := fun t p => Ok (<[td_out_feature t := VDigests []]> p);
     JoinMasksTask_execute := fun p => Ok p;
     MergeEOPatchesTask_execute := fun ps => Ok (foldr (fun a b => a ∪ b) ∅ ps);
     ModelForwardTask_execute := fun t p =>
       Ok (<[mf_out_feature t :=
               VArray (mk_ndarray [2; 1]%nat [SBool true; SBool true])]> p);
     ExportToTiffTask_write := fun _ _ v => write_tiff v;
     SaveTask_write := fun _ _ _ => Ok tt |}.

Definition acquisition_args : gmap string kwargs :=
  {[ "load Sentinel-1 data" :=
       {[ "bbox" := ABBox 500000 3000000 505120 3005120;
          "time_interval" := AInterval 1661688000 1661817600 ]};
     "load Sentinel-2 based reference" :=
       {[ "bbox" := ABBox 500000 3000000 505120 3005120;
          "time_interval" := ATime 1661817600 ]};
     "save valid EOPatch" :=
       {[ "eopatch_folder" := AStr "train/eopatch_0_2022-08-30T00-00-00_" ]} ]}.

(** The arguments of one run of the showcase workflow. *)
Definition showcase_args : gmap string kwargs :=
  {[ "load Sentinel-1 data" :=
       {[ "bbox" := ABBox 500000 3000000 505120 3005120;
          "time_interval" := AInterval 1661688000 1661817600 ]};
     "export GeoTiff of model output" :=
       {[ "filename" := AStr "water_0_2022-08-28--2022-08-30" ]};
     "save EOPatch" :=
       {[ "eopatch_folder" := AStr "showcase/eopatch_0_2022-08-28--2022-08-30" ]} ]}.

Definition bbox_0 : DataAcquisition.BBox := (500000, 3000000, 505120, 3005120).
Definition bbox_1 : DataAcquisition.BBox := (505120, 3000000, 510240, 3005120).

Definition download_failed : exn :=
  mk_exn DownloadFailedException "Failed to download from the catalogue".

(** A catalogue whose Sentinel-2 queries fail; the random indices drawn
    are all 0. *)
Definition queries_sentinel2_fails : DataAcquisition.Queries :=
  {| DataAcquisition.system := Posix;
     DataAcquisition.randint := fun _ _ size => Ok (replicate size 0%nat);
     DataAcquisition.get_available_timestamps := fun c _ _ =>
       match c with
       | DataAcquisition.SENTINEL2_L1C => Raised download_failed
       | DataAcquisition.SENTINEL1_IW => Ok []
       end;
     DataAcquisition.path_exists := fun _ => false;
     DataAcquisition.strftime := fun t => pretty t |}.

(** A catalogue with two Sentinel-2 acquisitions, whose Sentinel-1 query
    fails for the second. *)
Definition queries_sentinel1_fails : DataAcquisition.Queries :=
  {| DataAcquisition.system := Posix;
     DataAcquisition.randint := fun _ _ size => Ok (replicate size 0%nat);
     DataAcquisition.get_available_timestamps := fun c _ interval =>
       match c with
       | DataAcquisition.SENTINEL2_L1C => Ok [1661860800; 1661904000]
       | DataAcquisition.SENTINEL1_IW =>
           if interval.2 =? 1661904000 then Raised download_failed
           else Ok [interval.2 - 3600]
       end;
     DataAcquisition.path_exists := fun _ => false;
     DataAcquisition.strftime := fun t => pretty t |}.

(** Observations are found for the first bounding box only. *)
Definition observations : ModelForward.Observations :=
  {| ModelForward.parse_time_interval_observations := fun b =>
       if b.1.1.1 =? 500000 then Ok (1599264000, 1599436800)
       else Raised download_failed |}.

(** Digests that hold the same centroid are merged into that centroid
    with the sum of the weights: the digests of each shard here hold one
    centroid of weight 1, so the weight of the merged centroid is the
    number of shards. *)
Definition merge_equal_centroids (shards : list (list TDigest)) : list TDigest :=
  match shards with
  | [] => []
  | shard :: _ =>
      (fun d : TDigest =>
         (fun c : spec_float * spec_float =>
            (c.1, Float64.of_Z (Z.of_nat (length shards)))) <$> d) <$> shard
  end.

(** A training directory with two EOPatches, whose digests have one
    centroid for each of the two bands. *)
Definition library : DataNormalization.Library :=
  {| DataNormalization.listdir := fun _ =>
       Ok ["eopatch_0_1661860800"; "eopatch_1_1661904000"];
     DataNormalization.load_tdigests := fun _ _ =>
       Ok [[(Float64.of_Z (-12), Float64.of_Z 1)];
           [(Float64.of_Z (-19), Float64.of_Z 1)]];
     DataNormalization.merge_tdigests := fun shards =>
       Ok (merge_equal_centroids shards);
     DataNormalization.percentile := fun d _ =>
       match d with
       | (mean, _) :: _ => mean
       | [] => S754_nan
       end;
     DataNormalization.linspace_0_100_100 := [Float64.of_Z 0; Float64.of_Z 100] |}.

(** Quantiles that grow with the fraction. *)
Definition quantiles : DataNormalization.Quantiles :=
  {| DataNormalization.quantile := fun d q =>
       (inject_Z (Z.of_nat (length d)) * q - 20)%Q |}.

(** References of twenty pixels without water and of twenty-one pixels,
    one of them water. *)
Definition reference_0_of_20 : ndarray :=
  mk_ndarray [4; 5; 1]%nat (replicate 20 (SInt 0)).

Definition reference_1_of_21 : ndarray :=
  mk_ndarray [3; 7; 1]%nat (SInt 1 :: replicate 20 (SInt 0)).

(** Three element types of NumPy and the conversion of a Python object
    to them.  A float64 array takes a Python [float] as it is and an
    [int] rounded; a float32 array takes the binary64 value rounded to
    binary32; an int64 array takes [int(value)], which must lie in the
    range of the type. *)
Inductive numpy_dtype := float32 | float64 | int64.

Definition round_float32 (f : spec_float) : spec_float :=
  match f with
  | S754_finite s m e => binary_normalize 24 128 (if s then Z.neg m else Z.pos m) e s
  | _ => f
  end.

(** [int(f)] for a Python [float]: truncation towards zero. *)
Definition int_of_float (f : spec_float) : result Z :=
  match f with
  | S754_nan => Raised (mk_exn ValueError "cannot convert float NaN to integer")
  | S754_infinity _ =>
      Raised (mk_exn OverflowError "cannot convert float infinity to integer")
  | S754_zero _ => Ok 0
  | S754_finite s m e =>
      let v := if s then Z.neg m else Z.pos m in
      Ok match e with
         | Z0 => v
         | Z.pos k => v * 2 ^ Z.pos k
         | Z.neg k => Z.quot v (2 ^ Z.pos k)
         end
  end.

Definition to_int64 (z : Z) : result scalar :=
  if (- 2 ^ 63 <=? z) && (z <? 2 ^ 63) then Ok (SInt z)
  else Raised (mk_exn OverflowError "Python int too large to convert to C long").

Definition numpy_astype : Testing.Casting :=
  {| Testing.dtype := numpy_dtype;
     Testing.astype := fun dt value =>
       match dt with
       | float64 => SFloat <$> to_float value
       | float32 => (fun f => SFloat (round_float32 f)) <$> to_float value
       | int64 =>
           match value with
           | PyNone => Raised (mk_exn TypeError "int() argument must be a real number")
           | PyBool b => Ok (SInt (Z.b2z b))
           | PyInt z => to_int64 z
           | PyFloat f => z ← int_of_float f; to_int64 z
           end
       end |}.

End Examples.

(* ===================================================================== *)
(** ** Example_Treecurrent/04_Testing: [Torchify] on the memory of its
       argument *)
(* ===================================================================== *)

Module TorchifyInPlace.
Import NumPy Testing.

(** The memory that holds the elements of an array, and an array object
    over it: its shape and, for each of its elements in row-major order,
    the place of the element in the memory.  [np.moveaxis] and
    [squeeze] return such views of the memory of their argument. *)
Abbreviation buffer := (list scalar).

Record view := mk_view { vshape : list nat; voffsets : list nat }.

(** The array that the caller passes: it owns its memory. *)
Definition view_of (a : ndarray) : view :=
  mk_view (shape a) (seq 0 (length (flat a))).

(** The elements that a view shows. *)
Definition view_read (buf : buffer) (v : view) : ndarray :=
  mk_ndarray (vshape v) (omap (fun o => buf !! o) (voffsets v)).

(** The rows of the transposed [n x c] matrix stored in [l]. *)
Definition transpose_list {A} (n c : nat) (l : list A) : list A :=
  ci ← seq 0 c; omap (fun i => l !! (i * c + ci)%nat) (seq 0 n).

(** [def torchify(array): return np.moveaxis(array, -1, 0)], a view. *)
Definition torchify (array : view) : result view :=
  match last (vshape array) with
  | None => Raised (mk_exn AxisError "source: axis -1 is out of bounds for array of dimension 0")
  | Some c =>
      let front := removelast (vshape array) in
      Ok (mk_view (c :: front) (transpose_list (prod_shape front) c (voffsets array)))
  end.

(** [array[nan_loc] = value]: the places of the elements flagged in
    [nan_loc] are overwritten. *)
Definition assign_masked (buf : buffer) (array : view) (nan_loc : list bool)
    (value : scalar) : buffer :=
  foldl (fun (b : buffer) (om : nat * bool) =>
           if om.2 then <[om.1 := value]> b else b) buf
        (zip (voffsets array) nan_loc).

(** [def nan_to_value(array, value=0)]: [nan_loc = np.isnan(array)] is
    computed first, then [value] is converted to the element type [dt] of
    the array and the memory is written; the view is returned. *)
Definition nan_to_value `{Casting} (dt : dtype) (buf : buffer) (array : view)
    (value : pyobj) : result (buffer * view) :=
  let nan_loc := np_isnan (view_read buf array) in
  v ← astype dt value;
  Ok (assign_masked buf array nan_loc v, array).

(** [array_.squeeze()] and [array_.squeeze(axis)]: views again. *)
Definition squeeze_view (b : squeeze_branch) (buf : buffer) (array_ : view)
  : result view :=
  shaped ← run_branch b (view_read buf array_);
  Ok (mk_view (shape shaped) (voffsets array_)).

(** [Torchify.__call__]: the memory after the call and the view
    returned. *)
Definition Torchify_call `{Casting} (self : Torchify) (dt : dtype) (buf : buffer)
    (array : view) : result (buffer * view) :=
  array_ ← torchify array;
  '(buf', array_) ← nan_to_value dt buf array_ (nanvalue self);
  out ← squeeze_view (select_branch self) buf' array_;
  Ok (buf', out).

End TorchifyInPlace.

(* ===================================================================== *)
(** ** The cells that sort the tiles by coordinate reference system
       (01_DataAcquisition and 04_PyTorchTasks_ModelForwardTask) *)
(* ===================================================================== *)

Module Tiles.
Import Configuration.

(** A [BBox] of sentinelhub: its [_crs], a member of the enumeration
    [CRS] given by its EPSG code [_value_], and its bounds. *)
Record BBox := mk_BBox { bbox_crs : string; bounds : Z * Z * Z * Z }.

(** An entry of [get_info_list()]. *)
Record Info := mk_Info { index : Z; index_x : Z; index_y : Z }.

(** [Polygon(bbox.get_polygon())] *)
Inductive Polygon := Polygon_of (b : BBox).

(** [list(dict.fromkeys(crss))]: the keys in the order in which they
    come first. *)
Definition dict_fromkeys (crss : list string) : list string :=
  foldl (fun keys crs => if bool_decide (crs ∈ keys) then keys else keys ++ [crs])
        [] crss.

(** [np.argmax] of an array of booleans: the place of the first [True],
    0 when there is none; an empty array is an error. *)
Definition np_argmax (flags : list bool) : result nat :=
  match flags with
  | [] => Raised (mk_exn ValueError "attempt to get argmax of an empty sequence")
  | _ => Ok (default 0%nat (fst <$> list_find (fun b => b = true) flags))
  end.

(** [lists[idx_].append(x)] *)
Definition append_at {A} (lists : list (list A)) (idx_ : nat) (x : A)
  : result (list (list A)) :=
  match lists !! idx_ with
  | Some l => Ok (<[idx_ := l ++ [x]]> lists)
  | None => Raised (mk_exn IndexError "list index out of range")
  end.

(** The four lists of lists of the cell. *)
Record sorted := mk_sorted {
  geometries : list (list Polygon);
  idxs : list (list Z);
  idxs_x : list (list Z);
  idxs_y : list (list Z)
}.

(** The body of [for i,info in enumerate(info_list)]. *)
Definition sort_body (crss_unique : list string) (bbox_list : list BBox)
    (i : nat) (info : Info) (s : sorted) : result sorted :=
  bbox ← match bbox_list !! i with
         | Some b => Ok b
         | None => Raised (mk_exn IndexError "index out of bounds")
         end;
  idx_ ← np_argmax ((fun crs => bool_decide (crs = bbox_crs bbox)) <$> crss_unique);
  g ← append_at (geometries s) idx_ (Polygon_of bbox);
  a ← append_at (idxs s) idx_ (index info);
  x ← append_at (idxs_x s) idx_ (index_x info);
  y ← append_at (idxs_y s) idx_ (index_y info);
  Ok (mk_sorted g a x y).

Fixpoint sort_loop (crss_unique : list string) (bbox_list : list BBox)
    (i : nat) (info_list : list Info) (s : sorted) : result sorted :=
  match info_list with
  | [] => Ok s
  | info :: rest =>
      s' ← sort_body crss_unique bbox_list i info s;
      sort_loop crss_unique bbox_list (S i) rest s'
  end.

(** A [GeoDataFrame] with the columns of the cell. *)
Record GeoDataFrame := mk_GeoDataFrame {
  gdf_index : list Z;
  gdf_index_x : list Z;
  gdf_index_y : list Z;
  gdf_crs : string;
  gdf_geometry : list Polygon
}.

Definition item {A} (l : list A) (i : nat) : result A :=
  match l !! i with
  | Some a => Ok a
  | None => Raised (mk_exn IndexError "list index out of range")
  end.

(** The body of [for i in range(n_crss)]: the frame and the file it is
    written to. *)
Definition tile_body (system : platform) (dir_results name : string)
    (crss_unique : list string) (s : sorted) (i : nat)
  : result (GeoDataFrame * string) :=
  a ← item (idxs s) i;
  x ← item (idxs_x s) i;
  y ← item (idxs_y s) i;
  crs ← item crss_unique i;
  g ← item (geometries s) i;
  Ok (mk_GeoDataFrame a x y ("EPSG:" ++ crs) g,
      os_path_join system dir_results
        ("grid_aoi_" ++ name ++ "_" ++ pretty i ++ "_EPSG" ++ crs ++ ".gpkg")).

Fixpoint tile_loop (system : platform) (dir_results name : string)
    (crss_unique : list string) (s : sorted) (is_ : list nat)
  : result (list (GeoDataFrame * string)) :=
  match is_ with
  | [] => Ok []
  | i :: rest =>
      t ← tile_body system dir_results name crss_unique s i;
      ts ← tile_loop system dir_results name crss_unique s rest;
      Ok (t :: ts)
  end.

(** The cell for one list of bounding boxes, on the platform [system];
    [name] is the name of the split, or [showcase].  It returns the
    frames with the files they are written to. *)
Definition sort_tiles (system : platform) (dir_results name : string)
    (bbox_list : list BBox) (info_list : list Info)
  : result (list (GeoDataFrame * string)) :=
  let crss := bbox_crs <$> bbox_list in
  let crss_unique := dict_fromkeys crss in
  let n_crss := length crss_unique in
  let empty {A} : list (list A) := (fun _ => []) <$> seq 0 n_crss in
  s ← sort_loop crss_unique bbox_list 0 info_list
        (mk_sorted empty empty empty empty);
  tile_loop system dir_results name crss_unique s (seq 0 n_crss).

(** The tiles with a given coordinate reference system. *)
Definition with_crs (crs : string) (tiles : list (BBox * Info))
  : list (BBox * Info) :=
  filter (fun t => bbox_crs t.1 = crs) tiles.

(** The four lists once the tiles [tiles] are sorted under the keys
    [crss_unique], and the frame and file of the key [crs] at place
    [i]. *)
Definition sorted_of (crss_unique : list string) (tiles : list (BBox * Info))
  : sorted :=
  mk_sorted
    ((fun crs => (fun t => Polygon_of t.1) <$> with_crs crs tiles) <$> crss_unique)
    ((fun crs => (fun t => index t.2) <$> with_crs crs tiles) <$> crss_unique)
    ((fun crs => (fun t => index_x t.2) <$> with_crs crs tiles) <$> crss_unique)
    ((fun crs => (fun t => index_y t.2) <$> with_crs crs tiles) <$> crss_unique).

Definition frame_of (system : platform) (dir_results name : string)
    (tiles : list (BBox * Info)) (i : nat) (crs : string)
  : GeoDataFrame * string :=
  (mk_GeoDataFrame
     ((fun t => index t.2) <$> with_crs crs tiles)
     ((fun t => index_x t.2) <$> with_crs crs tiles)
     ((fun t => index_y t.2) <$> with_crs crs tiles)
     ("EPSG:" ++ crs)
     ((fun t => Polygon_of t.1) <$> with_crs crs tiles),
   os_path_join system dir_results
     ("grid_aoi_" ++ name ++ "_" ++ pretty i ++ "_EPSG" ++ crs ++ ".gpkg")).

End Tiles.

(* ===================================================================== *)
(** ** 01_DataAcquisition: what the cell of the workflow arguments
       collects, and the cell after it *)
(* ===================================================================== *)

Module DataAcquisitionCells.
Import NumPy EOLearn Effects Configuration DataAcquisition.

(** The cell [workflow_args[-1]], which shows the last dictionary. *)
Definition last_args_cell : M cell_state (gmap string kwargs) :=
  fun s =>
    match last (workflow_args s) with
    | Some a => (Ok a, s)
    | None => (Raised (mk_exn IndexError "list index out of range"), s)
    end.

(** The number of indices drawn for a split, and the indices drawn. *)
Definition draws (s : split) : nat :=
  match s with train => 40 | _ => 10 end.

Definition drawn `{Queries} (bbox_lists : split -> list BBox) (s : split)
  : list nat :=
  match randint s (length (bbox_lists s)) (draws s) with
  | Ok idxs => idxs
  | Raised _ => []
  end.

(** What the iteration for the index [i] is to append. *)
Definition bbox_appends `{Queries} (config : Config) (s : split)
    (bbox_list_ : list BBox) (i : nat) : list (gmap string kwargs) :=
  match bbox_list_ !! i with
  | Some bbox =>
      match get_available_timestamps SENTINEL2_L1C bbox (split_interval config s) with
      | Ok timestamps_ => timestamps_ ≫= timestamp_appends config s i bbox
      | Raised _ => []
      end
  | None => []
  end.

(** The indices are drawn, they are indices of the list, and the
    Sentinel-2 query of each of them returns. *)
Definition sentinel2_answers `{Queries} (config : Config)
    (bbox_lists : split -> list BBox) : Prop :=
  forall s,
    is_Ok (randint s (length (bbox_lists s)) (draws s)) = true /\
    forall i, i ∈ drawn bbox_lists s ->
      exists bbox,
        bbox_lists s !! i = Some bbox /\
        is_Ok (get_available_timestamps SENTINEL2_L1C bbox (split_interval config s))
          = true.

End DataAcquisitionCells.

(* ===================================================================== *)
(** ** The directories of the configuration, as the other notebooks use
       them *)
(* ===================================================================== *)

Module Storage.
Import Configuration.

(** [config["dir_" + split]] for the three splits of the acquisition. *)
Definition split_dir (config : Config) (s : DataAcquisition.split) : string :=
  match s with
  | DataAcquisition.train => dir_train config
  | DataAcquisition.validation => dir_validation config
  | DataAcquisition.test => dir_test config
  end.

End Storage.

(* ===================================================================== *)
(** ** 04_PyTorchTasks_ModelForwardTask: the GeoTiffs that are merged *)
(* ===================================================================== *)

Module RasterMerge.
Import Configuration.

(** [s.split(sep)] for a separator of one character. *)
Fixpoint str_split (sep : ascii) (s : string) : list string :=
  match s with
  | EmptyString => [EmptyString]
  | String c rest =>
      if Ascii.eqb c sep then EmptyString :: str_split sep rest
      else match str_split sep rest with
           | word :: words => String c word :: words
           | [] => [String c EmptyString]
           end
  end.

(** [inputfiles = [os.path.join(config["dir_tiffs_showcase"],dir_)
                   for dir_ in os.listdir(config["dir_tiffs_showcase"])
                   if "water" in dir_.split("_")]], for the listing
    [listdir] of the directory, on the platform [system]. *)
Definition inputfiles (system : platform) (dir_tiffs_showcase : string)
    (listdir : list string) : list string :=
  os_path_join system dir_tiffs_showcase
    <$> filter (fun dir_ => "water" ∈ str_split "_" dir_) listdir.

End RasterMerge.

(* ===================================================================== *)
(** ** 01_DataAcquisition: [setup] of the reference evalscript and the
       features of [task_reference] *)
(* ===================================================================== *)

Module EvalscriptSetup.
Import EOLearn Evalscript.

Inductive SampleType := UINT8 | UINT16 | FLOAT32.

(** An entry of [output] in the object that [setup] returns. *)
Record OutputBand := mk_OutputBand {
  id : string;
  bands : nat;
  sampleType : SampleType
}.

Record Setup := mk_Setup {
  input_bands : list string;
  units : string;
  output : list OutputBand
}.

(** [function setup()] *)
Definition setup : Setup :=
  {| input_bands := ["B02"; "B03"; "B04"; "B08"; "B8A"; "B11"; "dataMask"; "CLM"];
     units := "DN";
     output :=
       [mk_OutputBand "B02" 1 UINT16;
        mk_OutputBand "B03" 1 UINT16;
        mk_OutputBand "B04" 1 UINT16;
        mk_OutputBand "B08" 1 UINT16;
        mk_OutputBand "B8A" 1 UINT16;
        mk_OutputBand "B11" 1 UINT16;
        mk_OutputBand "NDWI" 1 FLOAT32;
        mk_OutputBand "reference" 1 UINT8;
        mk_OutputBand "dmask_reference" 1 UINT8;
        mk_OutputBand "cmask_reference" 1 UINT8] |}.

(** The argument [features] of [SentinelHubEvalscriptTask]. *)
Definition features : list Feature :=
  [(DATA_TIMELESS, "B02"); (DATA_TIMELESS, "B03"); (DATA_TIMELESS, "B04");
   (DATA_TIMELESS, "B08"); (DATA_TIMELESS, "B8A"); (DATA_TIMELESS, "B11");
   (DATA_TIMELESS, "NDWI");
   (MASK_TIMELESS, "reference");
   (MASK_TIMELESS, "dmask_reference");
   (MASK_TIMELESS, "cmask_reference")].

(** The object that [evaluatePixel] returns, by its keys. *)
Definition returned (o : Outputs) : list (string * list jsval) :=
  [("B02", out_B02 o); ("B03", out_B03 o); ("B04", out_B04 o);
   ("B08", out_B08 o); ("B8A", out_B8A o); ("B11", out_B11 o);
   ("NDWI", out_NDWI o);
   ("reference", out_reference o);
   ("dmask_reference", out_dmask_reference o);
   ("cmask_reference", out_cmask_reference o)].

(** A value that an output of the sample type holds without change. *)
Definition fits (t : SampleType) (v : jsval) : Prop :=
  match t, v with
  | UINT8, JBool _ => True
  | UINT8, JNum f => exists n, 0 <= n < 256 /\ f = Float64.of_Z n
  | UINT16, JNum f => exists n, 0 <= n < 65536 /\ f = Float64.of_Z n
  | FLOAT32, JNum _ => True
  | _, _ => False
  end.

End EvalscriptSetup.

(* ===================================================================== *)
(** ** Further concrete instances *)
(* ===================================================================== *)

Module MoreExamples.

(** A catalogue with two Sentinel-2 acquisitions for every bounding box,
    each with a Sentinel-1 acquisition, when every EOPatch is on disk
    already. *)
Definition queries_all_downloaded : DataAcquisition.Queries :=
  {| DataAcquisition.system := Configuration.Posix;
     DataAcquisition.randint := fun _ _ size => Ok (replicate size 0%nat);
     DataAcquisition.get_available_timestamps := fun c _ interval =>
       match c with
       | DataAcquisition.SENTINEL2_L1C => Ok [1661860800; 1661904000]
       | DataAcquisition.SENTINEL1_IW => Ok [interval.2 - 3600]
       end;
     DataAcquisition.path_exists := fun _ => true;
     DataAcquisition.strftime := fun t => pretty t |}.

(** A training directory whose EOPatch holds the digest of one band
    only. *)
Definition library_one_band : DataNormalization.Library :=
  {| DataNormalization.listdir := fun _ => Ok ["eopatch_0_1661860800"];
     DataNormalization.load_tdigests := fun _ _ =>
       Ok [[(Float64.of_Z (-12), Float64.of_Z 1)]];
     DataNormalization.merge_tdigests := fun shards =>
       Ok (Examples.merge_equal_centroids shards);
     DataNormalization.percentile := fun d _ =>
       match d with
       | (mean, _) :: _ => mean
       | [] => S754_nan
       end;
     DataNormalization.linspace_0_100_100 := [Float64.of_Z 0; Float64.of_Z 100] |}.

End MoreExamples.

(* ===================================================================== *)
(** * Properties *)
(* ===================================================================== *)

(** ** binary64: rounding of a product, and the 5% threshold *)

Module Float64Facts.

Lemma iter_pos_nat {A} (f : A -> A) p : forall x,
  SpecFloat.iter_pos f p x = Nat.iter (Pos.to_nat p) f x.
Proof.
  induction p as [p IH|p IH|]; intros x; cbn [SpecFloat.iter_pos].
  - rewrite !IH, Pos2Nat.inj_xI.
    replace (S (2 * Pos.to_nat p)) with (Pos.to_nat p + (Pos.to_nat p + 1))%nat by lia.
    rewrite !Nat.iter_add. reflexivity.
  - rewrite !IH, Pos2Nat.inj_xO.
    replace (2 * Pos.to_nat p)%nat with (Pos.to_nat p + Pos.to_nat p)%nat by lia.
    rewrite Nat.iter_add. reflexivity.
  - reflexivity.
Qed.

Lemma shr_record_eq m m' r r' s s' :
  m = m' -> r = r' -> s = s' ->
  Build_shr_record m r s = Build_shr_record m' r' s'.
Proof. by intros -> -> ->. Qed.

Lemma shr_1_spec m r s : 0 <= m ->
  shr_1 (Build_shr_record m r s) = Build_shr_record (m / 2) (Z.odd m) (r || s).
Proof.
  intros Hm. destruct m as [|p|p]; [done| |lia].
  destruct p as [p|p|]; cbn [shr_1]; apply shr_record_eq; try done.
  - rewrite Pos2Z.inj_xI.
    replace (2 * Z.pos p + 1) with (1 + Z.pos p * 2) by lia.
    by rewrite Z.div_add by lia.
  - rewrite Pos2Z.inj_xO. replace (2 * Z.pos p) with (Z.pos p * 2) by lia.
    by rewrite Z.div_mul by lia.
Qed.

Lemma shr_iter_spec (k : nat) : forall m r s, 0 <= m ->
  Nat.iter (S k) shr_1 (Build_shr_record m r s) =
  Build_shr_record (m / 2 ^ Z.of_nat (S k))
    (Z.testbit m (Z.of_nat k))
    (negb (m mod 2 ^ Z.of_nat k =? 0) || r || s).
Proof.
  induction k as [|k IH]; intros m r s Hm.
  - rewrite Nat.iter_succ. change (Nat.iter 0 shr_1 ?x) with x.
    rewrite shr_1_spec by done. apply shr_record_eq.
    + done.
    + by rewrite Z.bit0_odd.
    + change (2 ^ Z.of_nat 0) with 1. by rewrite Z.mod_1_r.
  - rewrite Nat.iter_succ. rewrite IH by done.
    rewrite shr_1_spec by (apply Z.div_pos; lia).
    apply shr_record_eq.
    + rewrite Z.div_div by lia.
      replace (Z.of_nat (S (S k))) with (Z.of_nat (S k) + 1) by lia.
      by rewrite (Z.pow_add_r 2 (Z.of_nat (S k)) 1) by lia.
    + rewrite <- Z.bit0_odd. rewrite Z.div_pow2_bits by lia.
      by replace (0 + Z.of_nat (S k)) with (Z.of_nat (S k)) by lia.
    + replace (Z.of_nat (S k)) with (Z.of_nat k + 1) by lia.
      rewrite Z.pow_add_r by lia. change (2 ^ 1) with 2.
      set (q := 2 ^ Z.of_nat k). assert (0 < q) by (apply Z.pow_pos_nonneg; lia).
      assert (Hb : Z.b2z (Z.testbit m (Z.of_nat k)) = (m / q) mod 2)
        by (apply Z.testbit_spec'; lia).
      rewrite Z.rem_mul_r by lia.
      assert (0 <= (m / q) mod 2 < 2) by (apply Z.mod_pos_bound; lia).
      assert (0 <= m mod q < q) by (apply Z.mod_pos_bound; lia).
      destruct (Z.testbit m (Z.of_nat k)); simpl in Hb;
      destruct (Z.eqb_spec (m mod q) 0) as [E|E];
      destruct (Z.eqb_spec (m mod q + q * ((m / q) mod 2)) 0) as [E3|E3];
      simpl; try done; try nia.
      all: destruct r, s; simpl; try done; nia.
Qed.

Lemma digits2_pos_size p : digits2_pos p = Pos.size p.
Proof. induction p as [p IH|p IH|]; simpl; by rewrite ?IH. Qed.

Lemma digits2_pos_bounds p :
  2 ^ (Z.pos (digits2_pos p) - 1) <= Z.pos p < 2 ^ Z.pos (digits2_pos p).
Proof.
  rewrite digits2_pos_size. split.
  - pose proof (Pos.size_le p) as H.
    apply Pos2Z.pos_le_pos in H. rewrite Pos2Z.inj_pow, (Pos2Z.inj_xO p) in H.
    replace (Z.pos (Pos.size p)) with (Z.pos (Pos.size p) - 1 + 1) in H by lia.
    rewrite Z.pow_add_r in H by lia. change (2 ^ 1) with 2 in H. lia.
  - pose proof (Pos.size_gt p) as H.
    apply Pos2Z.pos_lt_pos in H. by rewrite Pos2Z.inj_pow in H.
Qed.

Lemma digits2_pos_unique p k :
  2 ^ (k - 1) <= Z.pos p < 2 ^ k -> Z.pos (digits2_pos p) = k.
Proof.
  intros [Hlo Hhi]. pose proof (digits2_pos_bounds p) as [Dlo Dhi].
  set (d := Z.pos (digits2_pos p)) in *.
  assert (0 < k).
  { destruct (Z.lt_trichotomy 0 k) as [?|[<-|?]]; [done| |].
    - simpl in Hhi. lia.
    - rewrite Z.pow_neg_r in Hhi by lia. lia. }
  destruct (Z.lt_trichotomy d k) as [Hlt|[Heq|Hgt]]; [|done|].
  - assert (2 ^ d <= 2 ^ (k - 1)) by (apply Z.pow_le_mono_r; lia). lia.
  - assert (2 ^ k <= 2 ^ (d - 1)) by (apply Z.pow_le_mono_r; lia). lia.
Qed.

(** An exactly representable mantissa passes through the rounding. *)
Lemma binary_round_aux_exact (m : positive) (e : Z) :
  Z.pos (digits2_pos m) = 53 -> -1074 <= e <= 971 ->
  binary_round_aux 53 1024 false (Z.pos m) e loc_Exact = S754_finite false m e.
Proof.
  intros Hd He. unfold binary_round_aux, shr_fexp, fexp, emin.
  cbn [Zdigits2 shr_record_of_loc]. rewrite Hd.
  replace (Z.max (53 + e - 53) (3 - 1024 - 53) - e) with 0 by lia.
  cbn [shr shr_m loc_of_shr_record round_nearest_even Zdigits2]. rewrite Hd.
  replace (Z.max (53 + e - 53) (3 - 1024 - 53) - e) with 0 by lia.
  cbn [shr shr_m].
  destruct (Z.leb_spec e (1024 - 53)); [done|lia].
Qed.

Lemma pos_iter_xO p k : Z.pos (Pos.iter xO p k) = Z.pos p * 2 ^ Z.pos k.
Proof.
  induction k as [|k IH] using Pos.peano_ind.
  - simpl. lia.
  - rewrite Pos.iter_succ, Pos2Z.inj_xO, IH, Pos2Z.inj_succ.
    rewrite Z.pow_succ_r by lia. lia.
Qed.

(** [float(n)] is exact below 2^53. *)
Lemma of_Z_exact n : 0 < n < 2 ^ 53 ->
  exists (m : positive) (t : Z),
    Float64.of_Z n = S754_finite false m (- t) /\ 0 <= t <= 52 /\
    Z.pos m = n * 2 ^ t /\ 2 ^ 52 <= Z.pos m < 2 ^ 53.
Proof.
  intros [Hpos Hn]. destruct n as [|p|p]; try lia.
  unfold Float64.of_Z, binary_normalize, binary_round, fexp, emin,
    Float64.prec, Float64.emax.
  pose proof (digits2_pos_bounds p) as [Dlo Dhi].
  set (d := Z.pos (digits2_pos p)) in *.
  assert (Hd : 1 <= d <= 53).
  { split; [unfold d; lia|].
    destruct (Z.le_gt_cases d 53) as [|Hgt]; [done|].
    assert (2 ^ 53 <= 2 ^ (d - 1)) by (apply Z.pow_le_mono_r; lia). lia. }
  replace (Z.max (d + 0 - 53) (3 - 1024 - 53)) with (d - 53) by lia.
  unfold shl_align.
  destruct (d - 53 - 0) as [|k|k] eqn:Ek; try lia.
  - assert (H53 : d = 53) by lia.
    rewrite binary_round_aux_exact by (exact H53 || lia).
    exists p, 0. split; [done|]. change (2 ^ 0) with 1.
    rewrite H53 in Dlo, Dhi. change (53 - 1) with 52 in Dlo.
    split; [lia|]. split; lia.
  - assert (Hk : Z.pos k = 53 - d) by lia.
    assert (Hm : Z.pos (Pos.iter xO p k) = Z.pos p * 2 ^ (53 - d))
      by (rewrite pos_iter_xO; by rewrite Hk).
    assert (Hq : 2 ^ 53 = 2 ^ d * 2 ^ (53 - d))
      by (rewrite <- Z.pow_add_r by lia; f_equal; lia).
    assert (Hq' : 2 ^ 52 = 2 ^ (d - 1) * 2 ^ (53 - d))
      by (rewrite <- Z.pow_add_r by lia; f_equal; lia).
    assert (0 < 2 ^ (53 - d)) by (apply Z.pow_pos_nonneg; lia).
    assert (Hb : 2 ^ 52 <= Z.pos (Pos.iter xO p k) < 2 ^ 53).
    { rewrite Hm, Hq, Hq'. split.
      - apply Z.mul_le_mono_nonneg_r; lia.
      - apply Z.mul_lt_mono_pos_r; lia. }
    rewrite binary_round_aux_exact; [| by apply digits2_pos_unique | lia].
    exists (Pos.iter xO p k), (53 - d).
    split; [by replace (- (53 - d)) with (d - 53) by lia|].
    split; [lia|]. split; [done|done].
Qed.

(** Rounding to nearest of a mantissa that is too long for the format:
    the result is within half a unit in the last place. *)
Lemma binary_round_aux_spec (mx : positive) (ex : Z) :
  let D := Z.pos (digits2_pos mx) in
  54 <= D -> -1074 <= D + ex - 53 -> D + ex <= 1023 ->
  exists (m' : positive) (s : Z),
    binary_round_aux 53 1024 false (Z.pos mx) ex loc_Exact
      = S754_finite false m' (ex + s) /\
    D - 53 <= s <= D - 52 /\
    2 ^ 52 <= Z.pos m' < 2 ^ 53 /\
    2 * Z.abs (Z.pos m' * 2 ^ s - Z.pos mx) <= 2 ^ s.
Proof.
  intros D HD Hlo Hhi.
  pose proof (digits2_pos_bounds mx) as [Dlo Dhi]. fold D in Dlo, Dhi.
  unfold binary_round_aux, shr_fexp. cbn [Zdigits2 shr_record_of_loc]. fold D.
  replace (fexp 53 1024 (D + ex) - ex) with (D - 53) by (unfold fexp, emin; lia).
  destruct (D - 53) as [|k|k] eqn:Ek; try lia.
  cbn [shr]. rewrite iter_pos_nat.
  destruct (Pos2Nat.is_succ k) as [n Hn]. rewrite Hn.
  rewrite shr_iter_spec by lia.
  assert (Hs1 : Z.of_nat (S n) = Z.pos k) by lia.
  assert (Hs0 : Z.of_nat n = Z.pos k - 1) by lia.
  rewrite Hs1, Hs0.
  set (q := 2 ^ Z.pos k). set (h := 2 ^ (Z.pos k - 1)).
  assert (Hq : q = 2 * h).
  { unfold q, h. replace (Z.pos k) with (Z.pos k - 1 + 1) at 1 by lia.
    rewrite Z.pow_add_r by lia. change (2 ^ 1) with 2. lia. }
  assert (Hh : 0 < h) by (apply Z.pow_pos_nonneg; lia).
  assert (HqD : 2 ^ D = 2 ^ 53 * q)
    by (unfold q; rewrite <- Z.pow_add_r by lia; f_equal; lia).
  assert (HqD' : 2 ^ (D - 1) = 2 ^ 52 * q)
    by (unfold q; rewrite <- Z.pow_add_r by lia; f_equal; lia).
  set (m1 := Z.pos mx / q).
  assert (Hdiv : Z.pos mx = q * m1 + Z.pos mx mod q) by (apply Z.div_mod; lia).
  assert (Hrem : 0 <= Z.pos mx mod q < q) by (apply Z.mod_pos_bound; lia).
  assert (Hm1 : 2 ^ 52 <= m1 < 2 ^ 53).
  { split.
    - apply Z.div_le_lower_bound; lia.
    - apply Z.div_lt_upper_bound; lia. }
  assert (Hbit : Z.b2z (Z.testbit (Z.pos mx) (Z.pos k - 1)) = (Z.pos mx / h) mod 2)
    by (apply Z.testbit_spec'; lia).
  assert (Hsplit : Z.pos mx mod q = Z.pos mx mod h + h * ((Z.pos mx / h) mod 2))
    by (rewrite Hq, (Z.mul_comm 2 h); apply Z.rem_mul_r; lia).
  assert (Hlow : 0 <= Z.pos mx mod h < h) by (apply Z.mod_pos_bound; lia).
  rewrite !orb_false_r.
  set (r := Z.testbit (Z.pos mx) (Z.pos k - 1)) in *.
  set (st := negb (Z.pos mx mod h =? 0)).
  cbn [shr_m].
  set (m2 := round_nearest_even m1
               (loc_of_shr_record {| shr_m := m1; shr_r := r; shr_s := st |})).
  assert (Hm2 : (m2 = m1 \/ m2 = m1 + 1) /\ 2 * Z.abs (m2 * q - Z.pos mx) <= q).
  { unfold m2, st.
    destruct r; simpl in Hbit;
      destruct (Z.eqb_spec (Z.pos mx mod h) 0) as [E|E]; simpl.
    - destruct (Z.even m1); (split; [auto|]); lia.
    - split; [auto|]. lia.
    - split; [auto|]. lia.
    - split; [auto|]. lia. }
  destruct Hm2 as [Hm2v Hm2e].
  assert (Hm2b : 2 ^ 52 <= m2 <= 2 ^ 53) by lia.
  clearbody m2. destruct m2 as [|m2p|m2p]; try lia.
  destruct (Z.eq_dec (Z.pos m2p) (2 ^ 53)) as [Etop|Ntop].
  - (* the mantissa was rounded up to 2^53 *)
    assert (m2p = 9007199254740992%positive) by (apply Pos2Z.inj; exact Etop).
    subst m2p.
    change (Zdigits2 9007199254740992) with 54.
    unfold fexp, emin.
    replace (Z.max (54 + (ex + Z.pos k) - 53) (3 - 1024 - 53) - (ex + Z.pos k))
      with 1 by lia.
    cbn [shr SpecFloat.iter_pos shr_1 shr_m].
    destruct (Z.leb_spec (ex + Z.pos k + 1) (1024 - 53)); [|lia].
    exists 4503599627370496%positive, (Z.pos k + 1).
    split; [by rewrite Z.add_assoc|]. split; [lia|]. split; [done|].
    rewrite Z.pow_add_r by lia. change (2 ^ 1) with 2. fold q.
    replace (4503599627370496 * (q * 2)) with (9007199254740992 * q) by lia.
    lia.
  - assert (Hdig : Z.pos (digits2_pos m2p) = 53)
      by (apply digits2_pos_unique; change (53 - 1) with 52; lia).
    unfold fexp, emin. cbn [Zdigits2]. rewrite Hdig.
    replace (Z.max (53 + (ex + Z.pos k) - 53) (3 - 1024 - 53) - (ex + Z.pos k))
      with 0 by lia.
    cbn [shr shr_m].
    destruct (Z.leb_spec (ex + Z.pos k) (1024 - 53)); [|lia].
    exists m2p, (Z.pos k).
    split; [done|]. split; [lia|]. split; [lia|]. exact Hm2e.
Qed.

(** The threshold [0.05*n] of [checker_waterdata], compared with an
    integer count, decides whether the count is at least a twentieth of
    [n]. *)
Lemma threshold_5_percent (n c : Z) :
  0 <= n < 2 ^ 50 -> 0 <= c ->
  Float64.Z_geb c (Float64.mul Float64.lit_0_05 (Float64.of_Z n)) = (n <=? 20 * c).
Proof.
  intros [Hn0 Hn] Hc.
  destruct (Z.eq_dec n 0) as [->|Hnz].
  { unfold Float64.Z_geb. simpl. destruct (Z.compare_spec c 0); try lia; done. }
  destruct (of_Z_exact n) as (m & t & Hof & Ht & Hm & Hmb); [lia|].
  rewrite Hof. unfold Float64.mul, Float64.lit_0_05, SFmul, Float64.prec, Float64.emax.
  cbn [xorb].
  set (M0 := 7205759403792794%positive).
  assert (HM0 : Z.pos M0 = 7205759403792794) by done.
  pose proof (binary_round_aux_spec (M0 * m) (-57 + - t)) as Hspec.
  pose proof (digits2_pos_bounds (M0 * m)) as [Dlo Dhi].
  set (D := Z.pos (digits2_pos (M0 * m))) in *.
  rewrite Pos2Z.inj_mul in Dlo, Dhi.
  assert (Hprod : 2 ^ 104 <= Z.pos M0 * Z.pos m < 2 ^ 106) by (rewrite HM0; lia).
  assert (HD : 105 <= D <= 106).
  { split.
    - destruct (Z.le_gt_cases 105 D) as [|Hlt]; [done|].
      assert (2 ^ D <= 2 ^ 104) by (apply Z.pow_le_mono_r; lia). lia.
    - destruct (Z.le_gt_cases D 106) as [|Hgt]; [done|].
      assert (2 ^ 106 <= 2 ^ (D - 1)) by (apply Z.pow_le_mono_r; lia). lia. }
  destruct Hspec as (m' & s & Hr & Hs & Hm' & Herr); [lia|lia|lia|].
  rewrite Hr. rewrite Pos2Z.inj_mul, HM0, Hm in Herr.
  assert (Ht3 : 3 <= t).
  { destruct (Z.le_gt_cases 3 t) as [|Hlt]; [done|].
    assert (2 ^ t <= 2 ^ 2) by (apply Z.pow_le_mono_r; lia).
    assert (n * 2 ^ t <= n * 2 ^ 2) by (apply Z.mul_le_mono_nonneg_l; lia).
    change (2 ^ 2) with 4 in *. lia. }
  unfold Float64.Z_geb, Float64.Z_compare.
  destruct (-57 + - t + s) as [|p|p] eqn:Ee; try lia.
  assert (HE : Z.pos p = 57 + t - s) by lia.
  set (A := 2 ^ t) in *. set (B := 2 ^ s) in *. set (C := 2 ^ Z.pos p).
  assert (HA : 8 <= A) by (change 8 with (2 ^ 3); apply Z.pow_le_mono_r; lia).
  assert (HB : 0 < B <= 2 ^ 54)
    by (split; [apply Z.pow_pos_nonneg; lia | apply Z.pow_le_mono_r; lia]).
  assert (HC : 0 < C) by (apply Z.pow_pos_nonneg; lia).
  assert (HCB : C * B = 2 ^ 57 * A).
  { unfold A, B, C. rewrite <- !Z.pow_add_r by lia. f_equal. lia. }
  set (X := n * A) in *. set (Y := Z.pos m' * B) in *.
  replace (7205759403792794 * (n * A)) with (7205759403792794 * X) in Herr by done.
  set (V := c * A).
  assert (HV : 0 <= V) by (apply Z.mul_nonneg_nonneg; lia).
  assert (HW : c * C * B = 2 ^ 57 * V) by (unfold V; rewrite <- Z.mul_assoc, HCB; lia).
  destruct (Z.leb_spec n (20 * c)) as [Hle|Hgt].
  - (* the count reaches a twentieth: c >= threshold *)
    assert (HX : X <= 20 * V)
      by (unfold X, V; rewrite Z.mul_assoc; apply Z.mul_le_mono_nonneg_r; lia).
    destruct (Z.compare_spec (c * C) (Z.pos m')) as [E|Hlt|Hgt']; try done.
    exfalso.
    assert (HY : (c * C + 1) * B <= Y)
      by (unfold Y; apply Z.mul_le_mono_nonneg_r; lia).
    assert (HB16 : B <= 16 * V) by lia.
    assert (H1 : B * C <= 16 * V * C) by (apply Z.mul_le_mono_nonneg_r; lia).
    assert (H2 : A * (c * C) <= A * (2 ^ 53 - 1))
      by (apply Z.mul_le_mono_nonneg_l; lia).
    unfold V in H1. lia.
  - (* the count is below a twentieth: c < threshold *)
    assert (HX : 20 * V + A <= X).
    { unfold X, V. replace (20 * (c * A) + A) with ((20 * c + 1) * A) by lia.
      apply Z.mul_le_mono_nonneg_r; lia. }
    destruct (Z.compare_spec (c * C) (Z.pos m')) as [E|Hlt|Hgt']; try done; exfalso.
    + assert (HY : Y = c * C * B) by (unfold Y; by rewrite E). lia.
    + assert (HY : Y <= c * C * B)
        by (unfold Y; apply Z.mul_le_mono_nonneg_r; lia).
      lia.
Qed.

End Float64Facts.

(** ** NumPy: indexing after [np.moveaxis(array, -1, 0)] *)

Module NumPyFacts.
Import NumPy.

Lemma prod_shape_snoc sh c : prod_shape (sh ++ [c]) = (prod_shape sh * c)%nat.
Proof.
  induction sh as [|d sh IH]; simpl.
  - lia.
  - unfold prod_shape in *. simpl. rewrite IH. lia.
Qed.

Lemma ravel_lt sh : forall idx r, ravel sh idx = Some r -> (r < prod_shape sh)%nat.
Proof.
  induction sh as [|d sh IH]; intros [|i idx] r; simpl; try discriminate.
  - intros [= <-]. unfold prod_shape; simpl; lia.
  - destruct (Nat.ltb_spec i d) as [Hi|Hi]; [|discriminate].
    destruct (ravel sh idx) as [r'|] eqn:E; simpl; [|discriminate].
    intros [= <-]. specialize (IH _ _ E).
    change (prod_shape (d :: sh)) with (d * prod_shape sh)%nat.
    assert (S i * prod_shape sh <= d * prod_shape sh)%nat
      by (apply Nat.mul_le_mono_r; lia).
    simpl in *. lia.
Qed.

Lemma ravel_snoc sh c ci : forall idx,
  ravel (sh ++ [c]) (idx ++ [ci]) =
  r ← ravel sh idx; if (ci <? c)%nat then Some (r * c + ci)%nat else None.
Proof.
  induction sh as [|d sh IH]; intros [|i idx]; simpl.
  - destruct (ci <? c)%nat; simpl; [f_equal; unfold prod_shape; simpl; lia | done].
  - destruct (i <? c)%nat; [|done]. by destruct idx.
  - destruct (ci <? d)%nat; [|done]. by destruct sh.
  - destruct (i <? d)%nat; [|done]. rewrite IH.
    destruct (ravel sh idx) as [r|]; simpl; [|done].
    destruct (ci <? c)%nat; simpl; [|done].
    f_equal. rewrite prod_shape_snoc. lia.
Qed.

Lemma lookup_bind_seq {A} (f : nat -> list A) n :
  (forall k, length (f k) = n) ->
  forall c s ci i, (ci < c)%nat -> (i < n)%nat ->
  (k ← seq s c; f k) !! (ci * n + i)%nat = f (s + ci)%nat !! i.
Proof.
  intros Hlen. induction c as [|c IH]; intros s ci i Hci Hi; [lia|].
  simpl. destruct ci as [|ci].
  - rewrite lookup_app_l by (rewrite Hlen; lia).
    simpl. by rewrite Nat.add_0_r.
  - rewrite lookup_app_r by (rewrite Hlen; lia).
    rewrite Hlen. replace (S ci * n + i - n)%nat with (ci * n + i)%nat by lia.
    rewrite IH by lia. by replace (S s + ci)%nat with (s + S ci)%nat by lia.
Qed.

Lemma omap_total {A B} (g : A -> option B) (h : A -> B) (xs : list A) :
  (forall x, x ∈ xs -> g x = Some (h x)) -> omap g xs = h <$> xs.
Proof.
  induction xs as [|x xs IH]; intros Hg; simpl; [done|].
  rewrite Hg by left. simpl. f_equal. apply IH. intros y Hy. apply Hg. by right.
Qed.

Lemma transpose_flat_lookup n c (l : list scalar) ci i :
  length l = (n * c)%nat -> (ci < c)%nat -> (i < n)%nat ->
  transpose_flat n c l !! (ci * n + i)%nat = l !! (i * c + ci)%nat.
Proof.
  intros Hl Hci Hi. unfold transpose_flat.
  assert (Hcol : forall k, (k < c)%nat ->
            omap (fun i => l !! (i * c + k)%nat) (seq 0 n)
            = (fun i => default (SInt 0) (l !! (i * c + k)%nat)) <$> seq 0 n).
  { intros k Hk. apply omap_total. intros x Hx.
    apply elem_of_seq in Hx.
    destruct (lookup_lt_is_Some_2 l (x * c + k)%nat) as [y Hy]; [nia|].
    by rewrite Hy. }
  set (f := fun k => if decide (k < c)%nat
                     then omap (fun i => l !! (i * c + k)%nat) (seq 0 n)
                     else replicate n (SInt 0)).
  assert (Hf : (k ← seq 0 c; omap (fun i => l !! (i * c + k)%nat) (seq 0 n))
               = (k ← seq 0 c; f k)).
  { apply Forall_bind_ext, Forall_forall. intros k Hk. apply elem_of_seq in Hk.
    unfold f. by rewrite decide_True by lia. }
  rewrite Hf.
  rewrite (lookup_bind_seq f n); [| |done|done].
  - unfold f. rewrite decide_True by lia. simpl.
    rewrite Hcol by done. rewrite list_lookup_fmap, lookup_seq_lt by done. simpl.
    destruct (lookup_lt_is_Some_2 l (i * c + ci)%nat) as [y Hy]; [nia|].
    by rewrite Hy.
  - intros k. unfold f. case_decide.
    + rewrite Hcol by done. by rewrite length_fmap, length_seq.
    + by rewrite length_replicate.
Qed.

(** After [np.moveaxis(array, -1, 0)] the element at index [(ci, idx)]
    is the element of the input at index [(idx, ci)]. *)
Lemma moveaxis_last_first_get (a moved : ndarray) front c :
  wf a -> shape a = front ++ [c] ->
  moveaxis_last_first a = Ok moved ->
  shape moved = c :: front /\
  forall ci idx, get moved (ci :: idx) = get a (idx ++ [ci]).
Proof.
  intros Hwf Hsh. unfold moveaxis_last_first.
  rewrite Hsh, last_snoc, removelast_last. intros [= <-]. split; [done|].
  intros ci idx. unfold get. simpl. rewrite Hsh, ravel_snoc.
  destruct (Nat.ltb_spec ci c) as [Hci|Hci].
  - destruct (ravel front idx) as [r|] eqn:E; simpl; [|done].
    apply ravel_lt in E.
    apply transpose_flat_lookup; [|done|done].
    unfold wf, size in Hwf. by rewrite Hwf, Hsh, prod_shape_snoc.
  - by destruct (ravel front idx).
Qed.

End NumPyFacts.

(** ** eo-learn workflows: schedules and runs *)

Module EOLearnFacts.
Import NumPy EOLearn Effects.

Lemma well_scheduled_spec sched : forall done,
  well_scheduled done sched = true ->
  NoDup (names sched) /\
  (forall x, x ∈ names sched -> x ∉ done) /\
  (forall j m d, sched !! j = Some m -> d ∈ node_inputs m ->
     d ∈ done \/ exists i, (i < j)%nat /\ names sched !! i = Some d).
Proof.
  induction sched as [|n rest IH]; intros done Hw.
  - split; [constructor|]. split; [by intros x Hx; inversion Hx|].
    by intros j m d Hj.
  - simpl in Hw. apply andb_prop in Hw as [Hw Hrest].
    apply andb_prop in Hw as [Hin Hfresh].
    apply negb_true_iff, bool_decide_eq_false in Hfresh.
    destruct (IH _ Hrest) as (Hnd & Hout & Hdeps).
    split; [|split].
    + simpl. constructor; [|done].
      intros Hx. apply (Hout _ Hx). by left.
    + intros x Hx. simpl in Hx. apply elem_of_cons in Hx as [->|Hx]; [done|].
      intros Hd. apply (Hout _ Hx). by right.
    + intros j m d Hj Hd. destruct j as [|j]; simpl in Hj.
      * injection Hj as <-. left.
        rewrite forallb_forall in Hin.
        apply list_elem_of_In in Hd. apply Hin in Hd.
        by apply bool_decide_eq_true in Hd.
      * destruct (Hdeps _ _ _ Hj Hd) as [Hdone|(i & Hi & Hl)].
        -- apply elem_of_cons in Hdone as [->|Hdone]; [|by left].
           right. exists 0%nat. split; [lia|done].
        -- right. exists (S i). split; [lia|done].
Qed.

Lemma well_scheduled_app sched1 : forall seen sched2,
  well_scheduled seen (sched1 ++ sched2) = true ->
  well_scheduled seen sched1 = true.
Proof.
  induction sched1 as [|n rest IH]; intros seen sched2 Hw; [reflexivity|].
  simpl in *. apply andb_prop in Hw as [Hw Hrest].
  rewrite Hw. simpl. by eapply IH.
Qed.

Lemma before_trans sched a b c :
  NoDup (names sched) -> before sched a b -> before sched b c -> before sched a c.
Proof.
  intros Hnd (i & j & Hij & Hi & Hj) (j' & k & Hjk & Hj' & Hk).
  assert (j = j') by (eapply NoDup_lookup; eauto). subst j'.
  exists i, k. split; [lia|done].
Qed.

Lemma before_irrefl sched a : NoDup (names sched) -> ~ before sched a a.
Proof.
  intros Hnd (i & j & Hij & Hi & Hj).
  assert (i = j) by (eapply NoDup_lookup; eauto). lia.
Qed.

Lemma find_node_name nodes x n : find_node nodes x = Some n -> node_name n = x /\ n ∈ nodes.
Proof.
  unfold find_node. intros Hf.
  pose proof (find_some _ _ Hf) as [Hin Heq].
  apply String.eqb_eq in Heq. split; [done|by apply list_elem_of_In].
Qed.

Lemma find_node_unique nodes n :
  NoDup (names nodes) -> n ∈ nodes -> find_node nodes (node_name n) = Some n.
Proof.
  unfold find_node. induction nodes as [|m rest IH]; intros Hnd Hn.
  - inversion Hn.
  - simpl in *. apply NoDup_cons in Hnd as [Hm Hnd].
    destruct (String.eqb_spec (node_name m) (node_name n)) as [E|E].
    + apply elem_of_cons in Hn as [->|Hn]; [done|].
      exfalso. apply Hm. rewrite E. by apply list_elem_of_fmap_2.
    + apply elem_of_cons in Hn as [->|Hn]; [done|]. by apply IH.
Qed.

(** Every node that a node depends on is executed before it. *)
Lemma nodes_up_to_before nodes sched :
  well_scheduled [] sched = true -> NoDup (names nodes) ->
  (forall n, n ∈ sched -> n ∈ nodes) ->
  forall fuel x d, x ∈ names sched -> d ∈ nodes_up_to fuel nodes x ->
    d = x \/ before sched d x.
Proof.
  intros Hw Hnd Hsub.
  destruct (well_scheduled_spec _ _ Hw) as (Hnds & _ & Hdeps).
  induction fuel as [|fuel IH]; intros x d Hx Hd; [by inversion Hd|].
  simpl in Hd. destruct (find_node nodes x) as [nx|] eqn:Hf; [|by inversion Hd].
  apply elem_of_cons in Hd as [->|Hd]; [by left|]. right.
  apply list_elem_of_bind in Hd as (d' & Hd & Hd').
  apply list_elem_of_fmap in Hx as (n & -> & Hn).
  assert (nx = n).
  { rewrite find_node_unique in Hf by auto. by injection Hf. }
  subst nx.
  apply list_elem_of_lookup in Hn as [j Hj].
  destruct (Hdeps _ _ _ Hj Hd') as [Hdone|(i & Hi & Hl)]; [by inversion Hdone|].
  assert (Hb : before sched d' (node_name n)).
  { exists i, j. split; [done|]. split; [done|].
    unfold names. by rewrite list_lookup_fmap, Hj. }
  destruct (IH d' d) as [->|Hb']; [|done|done|].
  - eapply list_elem_of_lookup_2; eauto.
  - eapply before_trans; eauto.
Qed.

(** The end node of a workflow is executed last. *)
Lemma endnode_last nodes endnode sched :
  NoDup (names nodes) -> endnode ∈ nodes ->
  schedule_of (from_endnodes nodes endnode) sched ->
  exists pre, sched = pre ++ [endnode].
Proof.
  intros Hnd Hend [Hperm Hw].
  destruct (well_scheduled_spec _ _ Hw) as (Hnds & _ & _).
  assert (Hsub : forall n, n ∈ sched -> n ∈ nodes).
  { intros n Hn. rewrite Hperm in Hn. unfold from_endnodes in Hn.
    by apply list_elem_of_filter in Hn as [_ ?]. }
  assert (Hanc : forall n, n ∈ sched ->
            node_name n ∈ nodes_up_to (S (length nodes)) nodes (node_name endnode)).
  { intros n Hn. rewrite Hperm in Hn. unfold from_endnodes in Hn.
    by apply list_elem_of_filter in Hn as [? _]. }
  assert (Hin : endnode ∈ sched).
  { rewrite Hperm. unfold from_endnodes. apply list_elem_of_filter. split; [|done].
    simpl. rewrite find_node_unique by done. by left. }
  apply list_elem_of_lookup in Hin as [j Hj].
  assert (Hjn : names sched !! j = Some (node_name endnode))
    by (unfold names; by rewrite list_lookup_fmap, Hj).
  destruct (sched !! S j) as [m|] eqn:Hm.
  - exfalso.
    assert (Hmn : names sched !! S j = Some (node_name m))
      by (unfold names; by rewrite list_lookup_fmap, Hm).
    destruct (nodes_up_to_before nodes sched Hw Hnd Hsub _ _ (node_name m)
                (list_elem_of_lookup_2 _ _ _ Hjn)
                (Hanc m (list_elem_of_lookup_2 _ _ _ Hm)))
      as [E|(i & k & Hik & Hi & Hk)].
    + rewrite E in Hmn. assert (S j = j) by (eapply NoDup_lookup; eauto). lia.
    + assert (i = S j) by (eapply NoDup_lookup; eauto).
      assert (k = j) by (eapply NoDup_lookup; eauto). lia.
  - exists (take j sched).
    apply lookup_ge_None in Hm.
    pose proof (lookup_lt_Some _ _ _ Hj).
    rewrite <- (take_drop j sched) at 1. f_equal.
    rewrite (drop_S _ _ _ Hj). f_equal. apply drop_ge. lia.
Qed.

Section Execution.
Context `{Services} (workflow_args : gmap string kwargs).

Lemma execute_nodes_app pre post res0 log0 :
  execute_nodes workflow_args (pre ++ post) res0 log0 =
  match execute_nodes workflow_args pre res0 log0 with
  | (Ok res1, log1) => execute_nodes workflow_args post res1 log1
  | (Raised e, log1) => (Raised e, log1)
  end.
Proof.
  revert res0 log0. induction pre as [|n pre IH]; intros res0 log0; [done|].
  simpl. unfold bind.
  destruct (execute_node workflow_args res0 n log0) as [[res1|e] log1]; [|done].
  apply IH.
Qed.

Lemma mapM_lookup_mono (res res' : gmap string EOPatch) ds inputs :
  res ⊆ res' ->
  mapM (fun d => res !! d) ds = Some inputs ->
  mapM (fun d => res' !! d) ds = Some inputs.
Proof.
  intros Hsub. rewrite !mapM_Some. intros Hall.
  eapply Forall2_impl; [exact Hall|].
  intros d p Hd. simpl in *. eapply lookup_weaken; [exact Hd|exact Hsub].
Qed.

Lemma node_run_mono res res' n out evs :
  res ⊆ res' -> node_run workflow_args res n out evs -> node_run workflow_args res' n out evs.
Proof.
  intros Hsub (inputs & Hin & Hex & Hout).
  exists inputs. split; [by eapply mapM_lookup_mono|].
  split; [done|by eapply lookup_weaken].
Qed.

(** A run that completes: every node holds the outcome of its task on the
    results of its inputs, and the log holds the events of the nodes in
    the order of the schedule. *)
Lemma execute_nodes_ok sched : forall done res0 log0 res log,
  well_scheduled done sched = true ->
  (forall d, is_Some (res0 !! d) -> d ∈ done) ->
  execute_nodes workflow_args sched res0 log0 = (Ok res, log) ->
  res0 ⊆ res /\
  exists outs,
    Forall2 (fun n oe => node_run workflow_args res n oe.1 oe.2) sched outs /\
    log = log0 ++ concat (snd <$> outs).
Proof.
  induction sched as [|n rest IH]; intros done res0 log0 res log Hw Hdom Hrun.
  - simpl in Hrun. injection Hrun as <- <-. split; [done|].
    exists []. split; [constructor|]. simpl. by rewrite app_nil_r.
  - simpl in Hw. apply andb_prop in Hw as [Hw Hrest].
    apply andb_prop in Hw as [_ Hfresh].
    apply negb_true_iff, bool_decide_eq_false in Hfresh.
    simpl in Hrun. unfold bind in Hrun.
    destruct (execute_node workflow_args res0 n log0) as [[res1|e] log1] eqn:Hn;
      [|done].
    unfold execute_node in Hn.
    destruct (mapM _ (node_inputs n)) as [inputs|] eqn:Hin; [|done].
    destruct (execute_task _ _ _) as [[out|e] evs] eqn:Hex; [|done].
    injection Hn as <- <-.
    assert (Hnone : res0 !! node_name n = None).
    { destruct (res0 !! node_name n) eqn:E; [|done].
      exfalso. apply Hfresh, Hdom. by rewrite E. }
    assert (Hdom1 : forall d, is_Some (<[node_name n:=out]> res0 !! d) ->
                      d ∈ node_name n :: done).
    { intros d [p Hd]. destruct (decide (d = node_name n)) as [->|Hne];
        [by left|].
      right. apply Hdom. rewrite lookup_insert_ne in Hd by done. by rewrite Hd. }
    destruct (IH _ _ _ _ _ Hrest Hdom1 Hrun) as (Hsub & outs & Hall & Hlog).
    assert (Hsub0 : res0 ⊆ res).
    { etrans; [|exact Hsub]. by apply insert_subseteq. }
    split; [done|].
    exists ((out, evs) :: outs). split.
    + constructor; [|done]. exists inputs.
      split; [by eapply mapM_lookup_mono|]. split; [done|].
      eapply lookup_weaken; [|exact Hsub]. apply lookup_insert_eq.
    + simpl. by rewrite Hlog, app_assoc.
Qed.

Lemma execute_nodes_silent sched : forall res0 log0 r log,
  Forall (fun n => silent (node_task n)) sched ->
  execute_nodes workflow_args sched res0 log0 = (r, log) ->
  log = log0.
Proof.
  induction sched as [|n rest IH]; intros res0 log0 r log Hs Hrun.
  - simpl in Hrun. by injection Hrun as <- <-.
  - apply Forall_cons in Hs as [Hn Hs].
    simpl in Hrun. unfold bind in Hrun.
    assert (Hlog1 : (execute_node workflow_args res0 n log0).2 = log0).
    { unfold execute_node. destruct (mapM _ _) as [inputs|]; [|done].
      specialize (Hn inputs (node_args workflow_args n)).
      destruct (execute_task _ _ _) as [[out|e] evs]; simpl in *;
        subst evs; by rewrite app_nil_r. }
    destruct (execute_node workflow_args res0 n log0) as [[res1|e] log1];
      simpl in Hlog1; subst log1.
    + by eapply IH.
    + by injection Hrun as <- <-.
Qed.

Lemma mapM_lookup_agree (res sol : gmap string EOPatch) ds : forall inputs,
  (forall d, d ∈ ds -> res !! d = sol !! d) ->
  mapM (fun d => sol !! d) ds = Some inputs ->
  mapM (fun d => res !! d) ds = Some inputs.
Proof.
  induction ds as [|d ds IH]; intros inputs Hag; [done|].
  rewrite !mapM_Some. intros HF. inversion HF as [|? p ? ps Hp Hps]; subst.
  constructor.
  - rewrite Hag by (by left). exact Hp.
  - apply mapM_Some, IH; [|by apply mapM_Some].
    intros d' Hd'. apply Hag. by right.
Qed.

(** A run completes when results exist in which every node of the
    schedule holds the outcome of its task on the results of its inputs:
    the run returns them, with the events of the nodes in the order of
    the schedule. *)
Lemma execute_nodes_complete (sol : gmap string EOPatch) sched :
  forall done res0 log0 outs,
    well_scheduled done sched = true ->
    (forall d, d ∈ done -> res0 !! d = sol !! d) ->
    Forall2 (fun n oe => node_run workflow_args sol n oe.1 oe.2) sched outs ->
    exists res,
      execute_nodes workflow_args sched res0 log0 =
        (Ok res, log0 ++ concat (snd <$> outs)) /\
      forall d, d ∈ done \/ d ∈ names sched -> res !! d = sol !! d.
Proof.
  induction sched as [|n rest IH]; intros done res0 log0 outs Hw Hag Hall.
  - inversion Hall; subst. exists res0. cbn. rewrite app_nil_r.
    split; [done|]. intros d [Hd|Hd]; [by apply Hag|by inversion Hd].
  - inversion Hall as [|? [out evs] ? outs' Hn Hrest']; subst.
    simpl in Hw. apply andb_prop in Hw as [Hw Hrest].
    apply andb_prop in Hw as [Hin Hfresh].
    apply negb_true_iff, bool_decide_eq_false in Hfresh.
    destruct Hn as (inputs & Hinputs & Hex & Hout). cbn [fst snd] in *.
    assert (Hinputs0 : mapM (fun d => res0 !! d) (node_inputs n) = Some inputs).
    { eapply mapM_lookup_agree; [|exact Hinputs].
      intros d Hd. apply Hag. rewrite forallb_forall in Hin.
      apply list_elem_of_In in Hd. apply Hin in Hd.
      by apply bool_decide_eq_true in Hd. }
    assert (Hag1 : forall d, d ∈ node_name n :: done ->
                     <[node_name n:=out]> res0 !! d = sol !! d).
    { intros d Hd. destruct (decide (d = node_name n)) as [->|Hne].
      - by rewrite lookup_insert_eq.
      - rewrite lookup_insert_ne by done. apply Hag.
        by apply elem_of_cons in Hd as [?|?]. }
    destruct (IH _ (<[node_name n:=out]> res0) (log0 ++ evs) outs' Hrest Hag1 Hrest')
      as (res & Hrun & Hres).
    exists res. split.
    + cbn [execute_nodes]. unfold bind. unfold execute_node at 1.
      rewrite Hinputs0, Hex. rewrite Hrun. cbn. by rewrite app_assoc.
    + intros d [Hd|Hd]; apply Hres.
      * left. by right.
      * cbn in Hd. apply elem_of_cons in Hd as [->|Hd]; [left; by left|by right].
Qed.

End Execution.

End EOLearnFacts.

Module DataAcquisitionFacts.
Import NumPy EOLearn Effects Configuration DataAcquisition EOLearnFacts.

Lemma nodes_NoDup config : NoDup (names (nodes config)).
Proof. apply (bool_decide_unpack _). by vm_compute. Qed.

Lemma workflow_nodes config : workflow config = nodes config.
Proof. reflexivity. Qed.

Lemma upstream_silent `{Services} : Forall (fun n => silent (node_task n)) upstream.
Proof.
  repeat constructor; intros inputs args; simpl;
    by destruct inputs as [|? [|? ?]].
Qed.

Lemma schedule_split config sched :
  schedule_of (workflow config) sched ->
  exists pre, sched = pre ++ [node_save config] /\ pre ≡ₚ upstream /\
              well_scheduled [] pre = true.
Proof.
  intros Hs.
  assert (Hend : node_save config ∈ nodes config).
  { apply list_elem_of_In. simpl. tauto. }
  destruct (endnode_last _ _ _ (nodes_NoDup config) Hend Hs) as [pre ->].
  destruct Hs as [Hperm Hw]. exists pre. split; [done|]. split.
  - rewrite workflow_nodes in Hperm.
    change (nodes config) with (upstream ++ [node_save config]) in Hperm.
    by apply Permutation_app_inv_r in Hperm.
  - by eapply well_scheduled_app.
Qed.

Lemma mapM_1 {A B} (f : A -> option B) d inputs :
  mapM f [d] = Some inputs -> exists p, f d = Some p /\ inputs = [p].
Proof.
  rewrite mapM_Some. intros Hall. inversion Hall as [|? p ? ? Hp Hrest]; subst.
  inversion Hrest; subst. by exists p.
Qed.

Lemma mapM_2 {A B} (f : A -> option B) d1 d2 inputs :
  mapM f [d1; d2] = Some inputs ->
  exists p1 p2, f d1 = Some p1 /\ f d2 = Some p2 /\ inputs = [p1; p2].
Proof.
  rewrite mapM_Some. intros Hall. inversion Hall as [|? p1 ? ? Hp1 Hrest]; subst.
  inversion Hrest as [|? p2 ? ? Hp2 Hrest']; subst. inversion Hrest'; subst.
  by exists p1, p2.
Qed.

Lemma np_all_Forall (a : ndarray) :
  np_all a = true <-> Forall (fun x => nonzero x = true) (flat a).
Proof.
  unfold np_all. rewrite forallb_forall, Forall_forall.
  split; intros Hall x Hx; apply Hall; by apply list_elem_of_In.
Qed.

(** The test of [checker_waterdata] on an array: at least one pixel in
    twenty is nonzero. *)
Lemma checker_waterdata_5_percent (a : ndarray) :
  Z.of_nat (size a) < 2 ^ 50 ->
  checker_waterdata (VArray a) =
    Ok (PyBool (Z.of_nat (size a) <=? 20 * Z.of_nat (count_nonzero a))).
Proof.
  intros Hsize. unfold checker_waterdata.
  cbn -[to_float Float64.mul Float64.Z_geb Z.of_nat].
  set (n := Z.of_nat (size a)) in *.
  assert (Hfloat : to_float (PyInt n) = Ok (Float64.of_Z n)).
  { unfold to_float. destruct (Z.eq_dec n 0) as [->|Hnz]; [done|].
    destruct (Float64Facts.of_Z_exact n) as (m & t & -> & _);
      [|done].
    split; [lia|]. eapply Z.lt_trans; [exact Hsize|]. done. }
  rewrite Hfloat. cbn -[Float64.mul Float64.Z_geb Z.of_nat].
  by rewrite Float64Facts.threshold_5_percent by lia.
Qed.

Section Workflow.
Context `{Services}.

Lemma zipper_two (v_d v_r : value) :
  zipper [v_d; v_r] = Ok (PyBool (np_all_value v_d && np_all_value v_r)).
Proof. unfold zipper, np_all. cbn. by rewrite andb_true_r. Qed.

(** What the nodes that merge and zip have computed in a run of the
    nodes before [node_save]. *)
Lemma run_upstream (workflow_args : gmap string kwargs) (pre : list EONode) res1 log1 :
  pre ≡ₚ upstream -> well_scheduled [] pre = true ->
  execute_nodes workflow_args pre ∅ [] = (Ok res1, log1) ->
  exists m v_d v_r,
    res1 !! node_name node_merge = Some m /\
    m !! (META_INFO, "valid_data") = Some v_d /\
    m !! (META_INFO, "valid_reference") = Some v_r /\
    res1 !! node_name node_zip =
      Some (<[(META_INFO, "valid") :=
                VObj (PyBool (np_all_value v_d && np_all_value v_r))]> m).
Proof.
  intros Hperm Hw Hrun.
  destruct (execute_nodes_ok workflow_args pre [] ∅ [] res1 log1 Hw)
    as (_ & outs & Hall & _); [by intros d [? ?]|done|].
  assert (Hn : forall n, n ∈ upstream ->
            exists out evs, node_run workflow_args res1 n out evs).
  { intros n Hn. rewrite <- Hperm in Hn.
    apply list_elem_of_lookup in Hn as [i Hi].
    destruct (Forall2_lookup_l _ _ _ _ _ Hall Hi) as ([out evs] & _ & Hr).
    by exists out, evs. }
  destruct (Hn node_merge) as (m & ? & in_m & _ & _ & Hres_m);
    [apply list_elem_of_In; simpl; tauto|].
  destruct (Hn node_zip) as (z & ? & in_z & Hin_z & Hex_z & Hres_z);
    [apply list_elem_of_In; simpl; tauto|].
  apply mapM_1 in Hin_z as (m' & Hm' & ->).
  rewrite Hres_m in Hm'. injection Hm' as <-.
  simpl in Hex_z. injection Hex_z as Hex_z _.
  unfold ZipFeatureTask_execute in Hex_z. cbn -[zipper] in Hex_z.
  destruct (m !! (META_INFO, "valid_data")) as [v_d|] eqn:Hd;
    cbn -[zipper] in Hex_z; [|done].
  destruct (m !! (META_INFO, "valid_reference")) as [v_r|] eqn:Hr;
    cbn -[zipper] in Hex_z; [|done].
  rewrite zipper_two in Hex_z. cbn in Hex_z. injection Hex_z as <-.
  by exists m, v_d, v_r.
Qed.

(** The run of the nodes before [node_save] when the tasks of the
    libraries return. *)
Lemma run_upstream_returns (workflow_args : gmap string kwargs) (pre : list EONode) (p0 p1 p_d r0 p_r m : EOPatch)
    (dmask reference : ndarray) :
  pre ≡ₚ upstream -> well_scheduled [] pre = true ->
  SentinelHubInputTask_execute (node_args workflow_args node_data) = Ok p0 ->
  PickIdxTask_execute p0 = Ok p1 ->
  TDigestTask_execute task_tdigest p1 = Ok p_d ->
  p_d !! (MASK, "dmask_data") = Some (VArray dmask) ->
  SentinelHubEvalscriptTask_execute (node_args workflow_args node_reference) = Ok r0 ->
  JoinMasksTask_execute r0 = Ok p_r ->
  p_r !! (MASK_TIMELESS, "reference") = Some (VArray reference) ->
  Z.of_nat (size reference) < 2 ^ 50 ->
  let valid_data := np_all dmask in
  let valid_reference :=
    Z.of_nat (size reference) <=? 20 * Z.of_nat (count_nonzero reference) in
  MergeEOPatchesTask_execute
    [<[(META_INFO, "valid_data") := VObj (PyBool valid_data)]> p_d;
     <[(META_INFO, "valid_reference") := VObj (PyBool valid_reference)]> p_r] = Ok m ->
  m !! (META_INFO, "valid_data") = Some (VObj (PyBool valid_data)) ->
  m !! (META_INFO, "valid_reference") = Some (VObj (PyBool valid_reference)) ->
  exists res,
    execute_nodes workflow_args pre ∅ [] = (Ok res, []) /\
    res !! node_name node_zip =
      Some (<[(META_INFO, "valid") :=
                VObj (PyBool (valid_data && valid_reference))]> m).
Proof.
  intros Hperm Hw H0 H1 Htd Hdmask Hr0 Hjoin Href Hsize valid_data valid_reference
    Hmerge Hvd Hvr.
  set (p_dc := <[(META_INFO, "valid_data") := VObj (PyBool valid_data)]> p_d) in *.
  set (p_rc := <[(META_INFO, "valid_reference") := VObj (PyBool valid_reference)]> p_r)
    in *.
  set (z := <[(META_INFO, "valid") := VObj (PyBool (valid_data && valid_reference))]> m).
  set (sol := (<[node_name node_zip := z]>
               (<[node_name node_merge := m]>
                (<[node_name node_reference_check := p_rc]>
                 (<[node_name node_reference_mask := p_r]>
                  (<[node_name node_reference := r0]>
                   (<[node_name node_data_check := p_dc]>
                    (<[node_name node_tdigest := p_d]>
                     (<[node_name node_pick := p1]>
                      (<[node_name node_data := p0]> ∅))))))))) : gmap string EOPatch).
  assert (Hsol : Forall (fun n => exists out,
                    node_run workflow_args sol n out [] ) upstream).
  { unfold upstream.
    repeat apply Forall_cons_2; [..|apply Forall_nil_2].
    - exists p0, []. split; [done|]. split; [cbn; by rewrite H0|done].
    - exists p1, [p0]. split; [done|]. split; [cbn; by rewrite H1|done].
    - exists p_d, [p1]. split; [done|]. split; [cbn; by rewrite Htd|done].
    - exists p_dc, [p_d]. split; [done|]. split; [|done].
      cbn. unfold MapFeatureTask_execute. cbn. by rewrite Hdmask.
    - exists r0, []. split; [done|]. split; [cbn; by rewrite Hr0|done].
    - exists p_r, [r0]. split; [done|]. split; [cbn; by rewrite Hjoin|done].
    - exists p_rc, [p_r]. split; [done|]. split; [|done].
      cbn -[checker_waterdata]. unfold MapFeatureTask_execute.
      cbn -[checker_waterdata]. rewrite Href.
      by rewrite checker_waterdata_5_percent.
    - exists m, [p_dc; p_rc]. split; [done|]. split; [cbn; by rewrite Hmerge|done].
    - exists z, [m]. split; [done|]. split; [|done].
      cbn -[zipper]. unfold ZipFeatureTask_execute. cbn -[zipper].
      rewrite Hvd. cbn -[zipper]. rewrite Hvr. cbn -[zipper].
      by rewrite zipper_two. }
  rewrite <- Hperm in Hsol.
  assert (Hall : Forall2 (fun n oe => node_run workflow_args sol n oe.1 oe.2) pre
                   ((fun n => (default ∅ (sol !! node_name n), [])) <$> pre)).
  { apply Forall2_fmap_r, Forall_Forall2_diag.
    eapply Forall_impl; [exact Hsol|].
    intros n (out & Hrun). unfold compose. cbn [fst snd].
    destruct Hrun as (inputs & Hin & Hex & Hout). rewrite Hout. cbn.
    by exists inputs. }
  destruct (execute_nodes_complete workflow_args sol pre [] ∅ [] _ Hw
              ltac:(by intros d Hd; inversion Hd) Hall) as (res & Hrun & Hres).
  exists res. split.
  - rewrite Hrun. f_equal. cbn. clear.
    induction pre as [|n pre IH]; [done|]. cbn. exact IH.
  - rewrite Hres; [done|]. right.
    apply (list_elem_of_fmap_2 node_name). rewrite Hperm.
    apply list_elem_of_In. cbn. tauto.
Qed.

(** C5: an EOPatch is saved exactly when both criteria hold.  The
    criteria are [checker_nodata] on the feature 'dmask_data' -- every
    element is nonzero -- and [checker_waterdata] on the feature
    'reference' -- at least 5% of the pixels are nonzero.  In every run,
    whatever the order in which the workflow executes its nodes, the
    entry 'valid' that [SaveValidTask] checks is the conjunction of the
    entries 'valid_data' and 'valid_reference' of the merged EOPatch, the
    EOPatch is saved exactly when it is true, and a run in which a task
    raises saves nothing.  When the tasks of the libraries return and the
    merge hands on the two entries that the checking nodes computed, the
    run returns and saves the EOPatch exactly when both criteria
    hold. *)
Theorem saved_iff_valid :
  (forall a : ndarray,
     checker_nodata (VArray a) = Ok (PyBool (np_all a)) /\
     (np_all a = true <-> Forall (fun x => nonzero x = true) (flat a))) /\
  (forall a : ndarray, Z.of_nat (size a) < 2 ^ 50 ->
     checker_waterdata (VArray a) =
       Ok (PyBool (Z.of_nat (size a) <=? 20 * Z.of_nat (count_nonzero a)))) /\
  (forall config sched workflow_args,
     schedule_of (workflow config) sched ->
     match EOWorkflow_execute sched workflow_args with
     | (Ok res, log) =>
         exists m v_d v_r,
           res !! node_name node_merge = Some m /\
           m !! (META_INFO, "valid_data") = Some v_d /\
           m !! (META_INFO, "valid_reference") = Some v_r /\
           let valid := np_all_value v_d && np_all_value v_r in
           let z := <[(META_INFO, "valid") := VObj (PyBool valid)]> m in
           res !! node_name node_zip = Some z /\
           log = if valid
                 then [SavedEOPatch (dir_data config)
                         (kwarg_str (node_args workflow_args (node_save config))
                            "eopatch_folder")
                         z]
                 else []
     | (Raised _, log) => log = []
     end) /\
  (forall config sched workflow_args (p0 p1 p_d r0 p_r m : EOPatch)
          (dmask reference : ndarray),
     schedule_of (workflow config) sched ->
     SentinelHubInputTask_execute (node_args workflow_args node_data) = Ok p0 ->
     PickIdxTask_execute p0 = Ok p1 ->
     TDigestTask_execute task_tdigest p1 = Ok p_d ->
     p_d !! (MASK, "dmask_data") = Some (VArray dmask) ->
     SentinelHubEvalscriptTask_execute (node_args workflow_args node_reference)
       = Ok r0 ->
     JoinMasksTask_execute r0 = Ok p_r ->
     p_r !! (MASK_TIMELESS, "reference") = Some (VArray reference) ->
     Z.of_nat (size reference) < 2 ^ 50 ->
     let valid_data := np_all dmask in
     let valid_reference :=
       Z.of_nat (size reference) <=? 20 * Z.of_nat (count_nonzero reference) in
     MergeEOPatchesTask_execute
       [<[(META_INFO, "valid_data") := VObj (PyBool valid_data)]> p_d;
        <[(META_INFO, "valid_reference") := VObj (PyBool valid_reference)]> p_r]
       = Ok m ->
     m !! (META_INFO, "valid_data") = Some (VObj (PyBool valid_data)) ->
     m !! (META_INFO, "valid_reference") = Some (VObj (PyBool valid_reference)) ->
     let z :=
       <[(META_INFO, "valid") := VObj (PyBool (valid_data && valid_reference))]> m in
     exists res,
       EOWorkflow_execute sched workflow_args =
         (Ok res,
          if valid_data && valid_reference
          then [SavedEOPatch (dir_data config)
                  (kwarg_str (node_args workflow_args (node_save config))
                     "eopatch_folder")
                  z]
          else []) /\
       res !! node_name node_zip = Some z).
Proof.
  split; [|split; [|split]].
  - intros a. split; [done|apply np_all_Forall].
  - apply checker_waterdata_5_percent.
  - intros config sched workflow_args Hs.
    destruct (schedule_split config sched Hs) as (pre & -> & Hperm & Hw).
    unfold EOWorkflow_execute. rewrite execute_nodes_app.
    destruct (execute_nodes workflow_args pre ∅ []) as [[res1|e] log1] eqn:Hpre.
    2:{ eapply execute_nodes_silent; [|exact Hpre].
        rewrite Hperm. apply upstream_silent. }
    assert (log1 = []) as ->.
    { eapply execute_nodes_silent; [|exact Hpre].
      rewrite Hperm. apply upstream_silent. }
    destruct (run_upstream _ _ _ _ Hperm Hw Hpre) as (m & v_d & v_r & Hm & Hd & Hr & Hz).
    cbn [execute_nodes]. unfold bind, execute_node.
    cbn [node_inputs node_save mapM]. rewrite Hz.
    cbn -[node_args kwarg_str]. unfold SaveValidTask_execute.
    cbn [sv_feature_to_check task_save sv_path]. rewrite lookup_insert_eq.
    change (value_truthy (VObj (PyBool (np_all_value v_d && np_all_value v_r))))
      with (np_all_value v_d && np_all_value v_r).
    destruct (np_all_value v_d && np_all_value v_r) eqn:Hb;
      cbn -[node_args kwarg_str]; exists m, v_d, v_r; rewrite Hb;
      (split_and!; try done; by rewrite lookup_insert_ne).
  - intros config sched workflow_args p0 p1 p_d r0 p_r m dmask reference Hs
      H0 H1 Htd Hdmask Hr0 Hjoin Href Hsize valid_data valid_reference Hmerge Hvd Hvr z.
    destruct (schedule_split config sched Hs) as (pre & -> & Hperm & Hw).
    destruct (run_upstream_returns workflow_args pre p0 p1 p_d r0 p_r m dmask reference
                Hperm Hw H0 H1 Htd Hdmask Hr0 Hjoin Href Hsize Hmerge Hvd Hvr)
      as (res1 & Hpre & Hz).
    unfold EOWorkflow_execute. rewrite execute_nodes_app, Hpre.
    cbn [execute_nodes]. unfold bind, execute_node.
    cbn [node_inputs node_save mapM]. rewrite Hz.
    cbn -[node_args kwarg_str]. unfold SaveValidTask_execute.
    cbn [sv_feature_to_check task_save sv_path]. rewrite lookup_insert_eq.
    subst z valid_data valid_reference. cbv zeta.
    change (value_truthy (VObj (PyBool ?b))) with b.
    destruct (np_all dmask && _); cbn -[node_args kwarg_str];
      eexists; (split; [reflexivity|]); by rewrite lookup_insert_ne.
Qed.

End Workflow.

Lemma saved_iff_valid_witness :
  let dmask := mk_ndarray [2; 1]%nat [SBool true; SBool true] in
  let p_d := <[(SCALAR_TIMELESS, "tdigest_data") := VDigests []]> Examples.data_patch in
  let m :=
    <[(META_INFO, "valid_data") := VObj (PyBool true)]> p_d
    ∪ (<[(META_INFO, "valid_reference") := VObj (PyBool true)]> Examples.reference_patch
       ∪ ∅) in
  let z := <[(META_INFO, "valid") := VObj (PyBool true)]> m in
  schedule_of (workflow Examples.config) (nodes Examples.config) /\
  np_all dmask = true /\
  (Z.of_nat (size Examples.reference_1_of_20)
     <=? 20 * Z.of_nat (count_nonzero Examples.reference_1_of_20)) = true /\
  exists res,
    @EOWorkflow_execute Examples.services (nodes Examples.config)
      Examples.acquisition_args =
      (Ok res,
       [SavedEOPatch (dir_data Examples.config)
          "train/eopatch_0_2022-08-30T00-00-00_" z]) /\
    res !! node_name node_zip = Some z.
Proof.
  intros dmask p_d m z.
  assert (Hs : schedule_of (workflow Examples.config) (nodes Examples.config))
    by (split; [reflexivity|vm_compute; reflexivity]).
  split; [exact Hs|]. split; [reflexivity|]. split; [reflexivity|].
  refine (proj2 (proj2 (proj2 (@saved_iff_valid Examples.services)))
            Examples.config (nodes Examples.config) Examples.acquisition_args
            Examples.data_patch Examples.data_patch p_d
            Examples.reference_patch Examples.reference_patch m
            dmask Examples.reference_1_of_20
            Hs eq_refl eq_refl eq_refl _ eq_refl eq_refl _ _ eq_refl _ _).
  - vm_compute. reflexivity.
  - vm_compute. reflexivity.
  - vm_compute. reflexivity.
  - vm_compute. reflexivity.
  - vm_compute. reflexivity.
Defined.

End DataAcquisitionFacts.


(** ** The showcase workflow of the inference notebook *)

Module ModelForwardFacts.
Import NumPy EOLearn Effects Configuration ModelForward EOLearnFacts.

Lemma showcase_nodes_NoDup config : NoDup (names (nodes config)).
Proof. apply (bool_decide_unpack _). by vm_compute. Qed.

(** The workflow is a chain: it has one order of execution. *)
Lemma showcase_schedule config sched :
  schedule_of (workflow config) sched -> sched = nodes config.
Proof.
  intros Hs.
  assert (Hin : forall n, n ∈ nodes config -> n ∈ nodes config) by done.
  destruct (endnode_last (nodes config) (node_save config) sched
              (showcase_nodes_NoDup config)
              ltac:(apply list_elem_of_In; simpl; tauto) Hs) as [pre ->].
  destruct Hs as [Hperm Hw].
  change (workflow config)
    with ([node_data; node_model config; node_tiff config] ++ [node_save config])
    in Hperm.
  apply Permutation_app_inv_r in Hperm.
  apply well_scheduled_app in Hw.
  destruct (endnode_last (nodes config) (node_tiff config) pre
              (showcase_nodes_NoDup config)
              ltac:(apply list_elem_of_In; simpl; tauto)) as [pre2 ->];
    [by split|].
  change [node_data; node_model config; node_tiff config]
    with ([node_data; node_model config] ++ [node_tiff config]) in Hperm.
  apply Permutation_app_inv_r in Hperm.
  apply well_scheduled_app in Hw.
  destruct (endnode_last (nodes config) (node_model config) pre2
              (showcase_nodes_NoDup config)
              ltac:(apply list_elem_of_In; simpl; tauto)) as [pre3 ->];
    [by split|].
  change [node_data; node_model config]
    with ([node_data] ++ [node_model config]) in Hperm.
  apply Permutation_app_inv_r in Hperm.
  apply Permutation_singleton_r in Hperm. by subst pre3.
Qed.

(** C9: in every execution of the showcase workflow the GeoTiff of the
    predicted water mask (MASK, 'model_output') is written before the
    EOPatch is saved, the tiff node being an input of the save node.  The
    run is decided by what the download, the model and the two writers
    do: when they return and the model output holds the feature, the run
    returns, having exported and then saved; with [fail_on_missing=True]
    a model output without the feature raises [ValueError] and nothing is
    exported or saved; when the export raises nothing is saved. *)
Theorem export_before_save `{Services} config sched workflow_args :
  schedule_of (workflow config) sched ->
  et_fail_on_missing (task_tiff config) = true /\
  node_name (node_tiff config) ∈ node_inputs (node_save config) /\
  before sched (node_name (node_tiff config)) (node_name (node_save config)) /\
  let filename := kwarg_str (node_args workflow_args (node_tiff config)) "filename" in
  let folder :=
    kwarg_str (node_args workflow_args (node_save config)) "eopatch_folder" in
  let run := EOWorkflow_execute sched workflow_args in
  match SentinelHubInputTask_execute (node_args workflow_args node_data) with
  | Raised e => run = (Raised e, [])
  | Ok p0 =>
      match ModelForwardTask_execute (task_model config) p0 with
      | Raised e => run = (Raised e, [])
      | Ok p =>
          match p !! (MASK, "model_output") with
          | None => exists e, run = (Raised e, []) /\ exn_cls e = ValueError
          | Some v =>
              let exported :=
                ExportedTiff (dir_tiffs_showcase config) filename
                  (MASK, "model_output") v in
              match ExportToTiffTask_write (task_tiff config) filename v with
              | Raised e => run = (Raised e, [])
              | Ok _ =>
                  match SaveTask_write (task_save config) folder p with
                  | Raised e => run = (Raised e, [exported])
                  | Ok _ =>
                      exists res,
                        run = (Ok res,
                               [exported; SavedEOPatch (dir_data config) folder p]) /\
                        res !! node_name (node_model config) = Some p /\
                        res !! node_name (node_save config) = Some p
                  end
              end
          end
      end
  end.
Proof.
  intros Hs. rewrite (showcase_schedule _ _ Hs).
  split; [done|]. split; [simpl; set_solver|]. split.
  { exists 2%nat, 3%nat. split; [lia|]. by split. }
  cbv zeta.
  assert (Hrun : EOWorkflow_execute (nodes config) workflow_args =
    match SentinelHubInputTask_execute (node_args workflow_args node_data) with
    | Raised e => (Raised e, [])
    | Ok p0 =>
        match ModelForwardTask_execute (task_model config) p0 with
        | Raised e => (Raised e, [])
        | Ok p =>
            match ExportToTiffTask_execute (task_tiff config) p
                    (node_args workflow_args (node_tiff config)) with
            | (Raised e, evs) => (Raised e, evs)
            | (Ok q, evs) =>
                match SaveTask_execute (task_save config) q
                        (node_args workflow_args (node_save config)) with
                | (Raised e, evs') => (Raised e, evs ++ evs')
                | (Ok r, evs') =>
                    (Ok (<[node_name (node_save config) := r]>
                           (<[node_name (node_tiff config) := q]>
                              (<[node_name (node_model config) := p]>
                                 (<[node_name node_data := p0]> ∅)))),
                     evs ++ evs')
                end
            end
        end
    end).
  { unfold EOWorkflow_execute, nodes. cbn [execute_nodes]. unfold bind at 1.
    unfold execute_node at 1. cbn [node_inputs node_data mapM node_task execute_task].
    cbn -[node_args kwarg_str].
    destruct (SentinelHubInputTask_execute (node_args workflow_args node_data))
      as [p0|e0]; [|done].
    unfold bind at 1. unfold execute_node at 1.
    cbn -[node_args kwarg_str]. rewrite lookup_insert_eq.
    cbn -[node_args kwarg_str ExportToTiffTask_execute SaveTask_execute].
    destruct (ModelForwardTask_execute (task_model config) p0) as [p|e1]; [|done].
    unfold bind at 1. unfold execute_node at 1.
    cbn -[node_args kwarg_str ExportToTiffTask_execute SaveTask_execute].
    rewrite lookup_insert_eq.
    cbn -[node_args kwarg_str ExportToTiffTask_execute SaveTask_execute].
    destruct (ExportToTiffTask_execute _ _ _) as [[q|e2] evs]; [|done].
    unfold bind at 1. unfold execute_node at 1.
    cbn -[node_args kwarg_str ExportToTiffTask_execute SaveTask_execute].
    rewrite lookup_insert_eq.
    cbn -[node_args kwarg_str ExportToTiffTask_execute SaveTask_execute].
    by destruct (SaveTask_execute _ _ _) as [[r|e3] evs']. }
  rewrite Hrun. clear Hrun.
  destruct (SentinelHubInputTask_execute (node_args workflow_args node_data))
    as [p0|e0]; [|done].
  destruct (ModelForwardTask_execute (task_model config) p0) as [p|e1]; [|done].
  unfold ExportToTiffTask_execute. cbn [et_feature task_tiff et_fail_on_missing et_folder].
  destruct (p !! (MASK, "model_output")) as [v|]; [|by eexists].
  destruct (ExportToTiffTask_write _ _ v) as [[]|e2]; [|done].
  unfold SaveTask_execute. cbn [st_path task_save].
  destruct (SaveTask_write _ _ p) as [[]|e3]; [|done].
  eexists. split; [reflexivity|]. split.
  - rewrite lookup_insert_ne by done. rewrite lookup_insert_ne by done.
    apply lookup_insert_eq.
  - apply lookup_insert_eq.
Qed.

Lemma export_before_save_witness :
  schedule_of (workflow Examples.config) (nodes Examples.config) /\
  before (nodes Examples.config) (node_name (node_tiff Examples.config))
    (node_name (node_save Examples.config)) /\
  (exists res p,
     @EOWorkflow_execute Examples.services (nodes Examples.config)
       Examples.showcase_args =
       (Ok res,
        [ExportedTiff (dir_tiffs_showcase Examples.config)
           "water_0_2022-08-28--2022-08-30" (MASK, "model_output")
           (VArray (mk_ndarray [2; 1]%nat [SInt 1; SInt 1]));
         SavedEOPatch (dir_data Examples.config)
           "showcase/eopatch_0_2022-08-28--2022-08-30" p])) /\
  exists e,
    @EOWorkflow_execute Examples.services_bool_output (nodes Examples.config)
      Examples.showcase_args = (Raised e, []) /\
    exn_cls e = TypeError.
Proof.
  assert (Hs : schedule_of (workflow Examples.config) (nodes Examples.config))
    by (split; [reflexivity|vm_compute; reflexivity]).
  split; [exact Hs|].
  split.
  { exact (proj1 (proj2 (proj2 (@export_before_save Examples.services Examples.config
                                  (nodes Examples.config) Examples.showcase_args Hs)))). }
  split.
  - destruct (proj2 (proj2 (proj2 (@export_before_save Examples.services
                Examples.config (nodes Examples.config) Examples.showcase_args Hs))))
      as (res & Hrun & _).
    eexists res, _. exact Hrun.
  - exists (mk_exn TypeError "invalid dtype: 'bool'"). split; [|reflexivity].
    exact (proj2 (proj2 (proj2 (@export_before_save Examples.services_bool_output
             Examples.config (nodes Examples.config) Examples.showcase_args Hs)))).
Defined.

End ModelForwardFacts.

(** ** The loops that collect the workflow arguments *)

Module WorkflowArgsFacts.
Import NumPy EOLearn Effects Configuration.
Import ModelForward (Observations, parse_time_interval_observations).
Import DataAcquisition (BBox, bbox_arg, Queries, system, path_exists, strftime,
                        get_available_timestamps, randint,
                        printed, PrintText, PrintException,
                        SENTINEL1_IW, SENTINEL2_L1C, Query).

(** The loop over the timestamps: it returns, it has issued one
    Sentinel-1 query for each timestamp, printed the exceptions of the
    queries that raised, and appended the arguments of the others. *)
Lemma timestamp_loop `{Queries} config s i bbox :
  (forall interval e,
     get_available_timestamps SENTINEL1_IW bbox interval = Raised e ->
     is_Exception e = true) ->
  forall ts st,
    for_each ts (DataAcquisition.timestamp_body config s i bbox) st =
      (Ok tt,
       DataAcquisition.mk_cell_state
         (DataAcquisition.workflow_args st
            ++ ts ≫= DataAcquisition.timestamp_appends config s i bbox)
         (DataAcquisition.stdout st ++ ts ≫= DataAcquisition.timestamp_prints config bbox)
         (DataAcquisition.queried st ++ map (DataAcquisition.timestamp_query config bbox) ts)).
Proof.
  intros Hexn ts. induction ts as [|t ts IH]; intros [args out qs].
  - cbn. by rewrite !app_nil_r.
  - cbn [for_each]. unfold bind at 1.
    unfold DataAcquisition.timestamp_body at 1, try_except.
    unfold mbind, M_bind, bind, DataAcquisition.query_timestamps.
    cbn [DataAcquisition.workflow_args DataAcquisition.stdout
         DataAcquisition.queried].
    cbn [list_bind mbind fmap list_fmap map].
    unfold DataAcquisition.timestamp_appends at 1, DataAcquisition.timestamp_prints at 1.
    destruct (get_available_timestamps SENTINEL1_IW bbox
                (t - datatimedelta config, t)) as [[|t2 ts2]|e] eqn:Hq.
    + cbn. rewrite IH. cbn. by rewrite <- !app_assoc.
    + destruct (path_exists _); cbn; rewrite IH; cbn; by rewrite <- !app_assoc.
    + rewrite (Hexn _ _ Hq). cbn. rewrite IH. cbn. by rewrite <- !app_assoc.
Qed.

(** One iteration of the loop over the timestamps whose Sentinel-1 query
    raises an exception that derives from [Exception]. *)
Lemma timestamp_iteration_caught `{Queries} config s i bbox timestamp_ e st :
  get_available_timestamps SENTINEL1_IW bbox
    (timestamp_ - datatimedelta config, timestamp_) = Raised e ->
  is_Exception e = true ->
  DataAcquisition.timestamp_body config s i bbox timestamp_ st =
    (Ok tt,
     DataAcquisition.mk_cell_state
       (DataAcquisition.workflow_args st)
       (DataAcquisition.stdout st
          ++ [PrintException e (timestamp_ - datatimedelta config, timestamp_)])
       (DataAcquisition.queried st
          ++ [Query SENTINEL1_IW bbox (timestamp_ - datatimedelta config, timestamp_)])).
Proof.
  intros Hq He. destruct st as [args out qs].
  unfold DataAcquisition.timestamp_body, try_except.
  unfold mbind, M_bind, bind, DataAcquisition.query_timestamps.
  cbn [DataAcquisition.workflow_args DataAcquisition.stdout DataAcquisition.queried].
  rewrite Hq, He. reflexivity.
Qed.

Lemma omap_lookup_seq {A} (l : list A) : omap (l !!.) (seq 0 (length l)) = l.
Proof.
  induction l as [|a l IH] using rev_ind; [reflexivity|].
  rewrite length_app, Nat.add_1_r, seq_S, omap_app. cbn.
  rewrite lookup_app_r, Nat.sub_diag by lia. cbn.
  replace (omap (fun i => (l ++ [a]) !! i) (seq 0 (length l))) with l; [done|].
  rewrite <- IH at 1. apply list_omap_ext.
  apply Forall_Forall2_diag, Forall_forall. intros i Hi%elem_of_seq.
  by rewrite lookup_app_l by lia.
Qed.

(** One iteration of the showcase loop when [timeinterval] is bound. *)
Lemma showcase_iteration `{Queries} `{ModelForward.Observations} config l i bbox st :
  ModelForward.parse_raises_Exception ->
  l !! i = Some bbox ->
  is_Some (ModelForward.timeinterval st) ->
  exists st',
    ModelForward.bbox_body config l i st = (Ok tt, st') /\
    ModelForward.workflow_args st' =
      ModelForward.workflow_args st ++ ModelForward.showcase_appends config l i /\
    ModelForward.parsed st' = ModelForward.parsed st ++ [bbox] /\
    DataAcquisition.printed_exceptions (ModelForward.stdout st') =
      DataAcquisition.printed_exceptions (ModelForward.stdout st)
        ++ ModelForward.parse_exceptions [bbox] /\
    is_Some (ModelForward.timeinterval st').
Proof.
  intros Hexn Hi [ti0 Hti]. destruct st as [args ti_ out ps]. cbn in Hti. subst ti_.
  unfold ModelForward.bbox_body, ModelForward.showcase_appends, ModelForward.parse_exceptions.
  unfold mbind, M_bind, bind, try_except, ModelForward.print, modify, lift,
    ModelForward.assign_timeinterval, ModelForward.handler.
  rewrite Hi. cbn [ModelForward.workflow_args ModelForward.stdout
                   ModelForward.parsed ModelForward.timeinterval omap].
  destruct (parse_time_interval_observations bbox) as [ti|e] eqn:Hp.
  - destruct (path_exists _); cbn; eexists; (split; [reflexivity|]); cbn;
      unfold DataAcquisition.printed_exceptions; rewrite ?omap_app, ?app_nil_r; cbn;
      rewrite ?Hp, ?app_nil_r; by eauto.
  - rewrite (Hexn _ _ Hp). cbn. eexists. split; [reflexivity|]. cbn.
    unfold DataAcquisition.printed_exceptions; rewrite ?omap_app, ?app_nil_r; cbn.
    rewrite ?Hp, ?app_nil_r. by eauto.
Qed.

Lemma showcase_loop `{Queries} `{ModelForward.Observations} config l :
  ModelForward.parse_raises_Exception ->
  forall idxs st,
    Forall (fun i => is_Some (l !! i)) idxs ->
    is_Some (ModelForward.timeinterval st) ->
    exists st',
      for_each idxs (ModelForward.bbox_body config l) st = (Ok tt, st') /\
      ModelForward.workflow_args st' =
        ModelForward.workflow_args st ++ idxs ≫= ModelForward.showcase_appends config l /\
      ModelForward.parsed st' = ModelForward.parsed st ++ omap (l !!.) idxs /\
      DataAcquisition.printed_exceptions (ModelForward.stdout st') =
        DataAcquisition.printed_exceptions (ModelForward.stdout st)
          ++ ModelForward.parse_exceptions (omap (l !!.) idxs) /\
      is_Some (ModelForward.timeinterval st').
Proof.
  intros Hexn idxs. induction idxs as [|i idxs IH]; intros st Hall Hti.
  - exists st. cbn. by rewrite !app_nil_r.
  - apply Forall_cons in Hall as [[bbox Hi] Hall].
    destruct (showcase_iteration config l i bbox st Hexn Hi Hti)
      as (st1 & Hrun & Hargs & Hparsed & Hout & Hti1).
    destruct (IH st1 Hall Hti1) as (st2 & Hrun2 & Hargs2 & Hparsed2 & Hout2 & Hti2).
    exists st2. cbn [for_each]. unfold bind at 1. rewrite Hrun, Hrun2.
    split; [done|]. cbn [omap list_omap]. rewrite Hi.
    rewrite Hargs2, Hargs, Hparsed2, Hparsed, Hout2, Hout.
    cbn. rewrite <- !app_assoc. split_and!; try done.
    unfold ModelForward.parse_exceptions. cbn.
    by destruct (parse_time_interval_observations bbox).
Qed.

(** The Sentinel-2 query of the acquisition loop is outside the [try]
    statement: its exception leaves the loop body. *)
Lemma sentinel2_query_not_caught `{Queries} config s l i bbox e st :
  l !! i = Some bbox ->
  get_available_timestamps SENTINEL2_L1C bbox
    (DataAcquisition.split_interval config s) = Raised e ->
  DataAcquisition.bbox_body config s l i st =
    (Raised e,
     DataAcquisition.mk_cell_state
       (DataAcquisition.workflow_args st)
       (DataAcquisition.stdout st
          ++ [PrintText (DataAcquisition.CR ++ pretty (i + 1)%nat ++ "/"
                         ++ pretty (length l))])
       (DataAcquisition.queried st
          ++ [Query SENTINEL2_L1C bbox (DataAcquisition.split_interval config s)])).
Proof.
  intros Hi Hq. unfold DataAcquisition.bbox_body.
  unfold mbind, M_bind, bind, DataAcquisition.print, modify, lift,
    DataAcquisition.query_timestamps.
  rewrite Hi. cbn. by rewrite Hq.
Qed.




End WorkflowArgsFacts.

(** ** The normalization notebook *)

Module DataNormalizationFacts.
Import NumPy EOLearn Effects Configuration DataNormalization.

(** [mapM] in [result] returns as many values as it is given. *)
Lemma mapM_result_length {A B} (f : A -> result B) (l : list A) (k : list B) :
  mapM f l = Ok k -> length k = length l.
Proof.
  revert k. induction l as [|x l IH]; intros k; cbn [mapM].
  - by intros [= <-].
  - destruct (f x) as [y|e]; cbn; [|done].
    destruct (mapM f l) as [k'|e]; cbn; [|done].
    intros [= <-]. cbn. f_equal. by apply IH.
Qed.

(** The arguments of the one call of [mergeTDigests]. *)
Lemma notebook_run `{Library} config system st dirs td vv vh :
  listdir (dir_train config) = Ok dirs ->
  mergeTDigests (os_path_join system (dir_train config) <$> dirs)
    (SCALAR_TIMELESS, "tdigest_data")
    (if is_Windows system then 0 else threads config) = Ok td ->
  td !! 0%nat = Some vv -> td !! 1%nat = Some vh ->
  notebook config system st =
    (Ok tt,
     mk_cell_state (Some td)
       (Some (percentile vv <$> linspace_0_100_100))
       (Some (percentile vh <$> linspace_0_100_100))
       (Some (new_Scaler config system td))
       (written st
          ++ [(os_path_join system (dir_results config) (savename_tdigest config), NpyDigests td);
              (os_path_join system (dir_results config) (savename_scaler config),
               DillScaler (new_Scaler config system td))])
       (merges st
          ++ [mk_merge_call (os_path_join system (dir_train config) <$> dirs)
                (SCALAR_TIMELESS, "tdigest_data")
                (if is_Windows system then 0 else threads config)])).
Proof.
  intros Hl Hm Hvv Hvh. destruct st as [td0 qvv qvh sc wr ms].
  unfold notebook, merge_cell, analyse_cell, save_cell, scaler_cell,
    scaler_save_cell, call_mergeTDigests, read, write, modify, lift, index,
    mbind, M_bind, bind.
  rewrite Hl. cbn -[os_path_join is_Windows mergeTDigests]. rewrite Hm.
  cbn -[os_path_join is_Windows mergeTDigests]. rewrite Hvv, Hvh.
  cbn -[os_path_join is_Windows mergeTDigests]. by rewrite <- app_assoc.
Qed.

Lemma length_2_inv {A} (l : list A) :
  length l = 2%nat -> exists a b, l = [a; b].
Proof. destruct l as [|a [|b [|c l]]]; try discriminate. by exists a, b. Qed.

Lemma QuantileScaler_LOAD_last wr path s :
  QuantileScaler_LOAD (wr ++ [(path, DillScaler s)]) path = Ok s.
Proof.
  unfold QuantileScaler_LOAD. rewrite rev_unit. cbn [find fst].
  by rewrite String.eqb_refl.
Qed.

(** C3: the notebook merges the t-digests by one call of [mergeTDigests],
    on the directories listed in [dir_train] and for the feature that the
    acquisition workflow computes for each EOPatch.  [mergeTDigests] is a
    wrapper of one call of the merge of the t-digest library, on the
    digests of the shards in the order of the listing; what that call
    returns is the merged t-digest that the notebook assigns, analyses by
    the percentiles of the library, stores and hands to the scaler; when
    the call raises, no digest is assigned and nothing is stored. *)
Theorem merge_is_one_library_call `{Library} config system st dirs :
  listdir (dir_train config) = Ok dirs ->
  let call :=
    mk_merge_call (os_path_join system (dir_train config) <$> dirs)
      (td_out_feature DataAcquisition.task_tdigest)
      (if is_Windows system then 0 else threads config) in
  mergeTDigests (call_paths call) (call_feature call) (call_threads call) =
    (shards ← mapM (fun path => load_tdigests path (SCALAR_TIMELESS, "tdigest_data"))
                   (call_paths call);
     merge_tdigests shards) /\
  match mergeTDigests (call_paths call) (call_feature call) (call_threads call) with
  | Ok td =>
      (exists shards,
         mapM (fun path => load_tdigests path (SCALAR_TIMELESS, "tdigest_data"))
              (call_paths call) = Ok shards /\
         length shards = length dirs /\
         merge_tdigests shards = Ok td) /\
      (length td = 2%nat ->
       exists st',
         notebook config system st = (Ok tt, st') /\
         merges st' = merges st ++ [call] /\
         tdigest st' = Some td /\
         quantilesVV st' = (fun d => percentile d <$> linspace_0_100_100) <$> td !! 0%nat /\
         quantilesVH st' = (fun d => percentile d <$> linspace_0_100_100) <$> td !! 1%nat /\
         tdigestarray <$> Scaler st' = Some td /\
         (os_path_join system (dir_results config) (savename_tdigest config), NpyDigests td)
           ∈ written st')
  | Raised e =>
      exists st',
        notebook config system st = (Raised e, st') /\
        merges st' = merges st ++ [call] /\
        tdigest st' = tdigest st /\ Scaler st' = Scaler st /\
        written st' = written st
  end.
Proof.
  intros Hl call. subst call. cbn [call_paths call_feature call_threads].
  change (td_out_feature DataAcquisition.task_tdigest)
    with (SCALAR_TIMELESS, "tdigest_data").
  split; [reflexivity|].
  destruct (mergeTDigests _ _ _) as [td|e] eqn:Hm.
  - split.
    + unfold mergeTDigests in Hm.
      destruct (mapM _ _) as [shards|e] eqn:Hload; [|done].
      exists shards. split; [done|]. split; [|done].
      apply mapM_result_length in Hload. by rewrite Hload, length_fmap.
    + intros (vv & vh & ->)%length_2_inv.
      erewrite notebook_run by done. eexists. split; [reflexivity|].
      cbn -[os_path_join is_Windows mergeTDigests]. split_and!; try done.
      apply elem_of_app. right. by left.
  - destruct st as [td0 qvv qvh sc wr ms].
    unfold notebook, merge_cell, call_mergeTDigests, lift, mbind, M_bind, bind.
    rewrite Hl. cbn -[os_path_join is_Windows mergeTDigests]. rewrite Hm.
    eexists. split; [reflexivity|]. by cbn.
Qed.

Lemma merge_is_one_library_call_witness :
  exists st',
    @notebook Examples.library Examples.config Posix
      (mk_cell_state None None None None [] []) = (Ok tt, st') /\
    length (merges st') = 1%nat /\
    tdigest st' = Some [[(Float64.of_Z (-12), Float64.of_Z 2)];
                        [(Float64.of_Z (-19), Float64.of_Z 2)]].
Proof.
  pose proof (@merge_is_one_library_call Examples.library Examples.config Posix
                (mk_cell_state None None None None [] []) _ eq_refl) as Hrun.
  destruct (proj2 (proj2 Hrun) eq_refl) as (st' & Hnb & Hm & Htd & _).
  exists st'. split; [exact Hnb|]. split; [by rewrite Hm|exact Htd].
Defined.

(** C4: the scaler that the normalization notebook builds and stores, the
    one the inference notebook loads, holds the merged t-digest and the
    values of the configuration; it maps the 0.01-quantile of a band to 0
    and the 0.96-quantile to 1, NaN and infinite values to 0. *)
Theorem scaler_maps_quantiles `{Library} `{Quantiles} cwd system cuda st dirs td :
  let config := configuration cwd system cuda in
  listdir (dir_train config) = Ok dirs ->
  mergeTDigests (os_path_join system (dir_train config) <$> dirs)
    (SCALAR_TIMELESS, "tdigest_data")
    (if is_Windows system then 0 else threads config) = Ok td ->
  length td = 2%nat ->
  exists st' s,
    notebook config system st = (Ok tt, st') /\
    Scaler st' = Some s /\
    QuantileScaler_LOAD (written st')
      (os_path_join system (dir_results config) (savename_scaler config)) = Ok s /\
    tdigestarray s = td /\
    minquantile s = (1 # 100)%Q /\ maxquantile s = (96 # 100)%Q /\
    valmin s = 0%Q /\ valmax s = 1%Q /\
    forall band d,
      td !! band = Some d ->
      let lo := quantile d (minquantile s) in
      let hi := quantile d (maxquantile s) in
      ~ (lo == hi)%Q ->
      (exists y, QuantileScaler_scale s band (Finite lo) = Some y /\ (y == 0)%Q) /\
      (exists y, QuantileScaler_scale s band (Finite hi) = Some y /\ (y == 1)%Q) /\
      QuantileScaler_scale s band NaN = Some 0%Q /\
      QuantileScaler_scale s band Inf = Some 0%Q.
Proof.
  intros config Hl Hm (vv & vh & ->)%length_2_inv.
  exists (mk_cell_state (Some [vv; vh])
            (Some (percentile vv <$> linspace_0_100_100))
            (Some (percentile vh <$> linspace_0_100_100))
            (Some (new_Scaler config system [vv; vh]))
            (written st
               ++ [(os_path_join system (dir_results config) (savename_tdigest config),
                    NpyDigests [vv; vh]);
                   (os_path_join system (dir_results config) (savename_scaler config),
                    DillScaler (new_Scaler config system [vv; vh]))])
            (merges st
               ++ [mk_merge_call (os_path_join system (dir_train config) <$> dirs)
                     (SCALAR_TIMELESS, "tdigest_data")
                     (if is_Windows system then 0 else threads config)])),
    (new_Scaler config system [vv; vh]).
  split; [by apply notebook_run|]. split; [done|].
  split.
  { cbn [written].
    change [(os_path_join system (dir_results config) (savename_tdigest config),
             NpyDigests [vv; vh]);
            (os_path_join system (dir_results config) (savename_scaler config),
             DillScaler (new_Scaler config system [vv; vh]))]
      with ([(os_path_join system (dir_results config) (savename_tdigest config),
              NpyDigests [vv; vh])]
            ++ [(os_path_join system (dir_results config) (savename_scaler config),
                 DillScaler (new_Scaler config system [vv; vh]))]).
    rewrite app_assoc. apply QuantileScaler_LOAD_last. }
  split; [done|]. split; [done|]. split; [done|]. split; [done|]. split; [done|].
  intros band d Hd lo hi Hne.
  assert (Hband : (band < 2)%nat) by (apply lookup_lt_Some in Hd; simpl in Hd; lia).
  unfold QuantileScaler_scale.
  cbn [tdigestarray nanval infval valmin valmax new_Scaler].
  rewrite Hd.
  assert (Hz : scaler_nanval config !! band = Some 0%Q /\
               scaler_infval config !! band = Some 0%Q).
  { destruct band as [|[|band]]; [by split|by split|lia]. }
  destruct Hz as [-> ->]. cbn [mbind option_bind].
  fold lo hi.
  assert (Hd0 : ~ (hi - lo == 0)%Q).
  { intros Heq. apply Hne. rewrite <- (Qplus_0_l lo), <- Heq. ring. }
  split_and!; try done.
  - eexists. split; [reflexivity|].
    change (scaler_valmin config) with 0%Q. change (scaler_valmax config) with 1%Q.
    field. exact Hd0.
  - eexists. split; [reflexivity|].
    change (scaler_valmin config) with 0%Q. change (scaler_valmax config) with 1%Q.
    field. exact Hd0.
Qed.

Lemma scaler_maps_quantiles_witness :
  let d := [(Float64.of_Z (-12), Float64.of_Z 2)] in
  exists st' s,
    @notebook Examples.library Examples.config Posix
      (mk_cell_state None None None None [] []) = (Ok tt, st') /\
    Scaler st' = Some s /\
    (exists y,
       @QuantileScaler_scale Examples.quantiles s 0
         (Finite (@quantile Examples.quantiles d (1 # 100)%Q)) = Some y /\ (y == 0)%Q) /\
    (exists y,
       @QuantileScaler_scale Examples.quantiles s 0
         (Finite (@quantile Examples.quantiles d (96 # 100)%Q)) = Some y /\ (y == 1)%Q).
Proof.
  intros d.
  destruct (@scaler_maps_quantiles Examples.library Examples.quantiles
              "/home/user/GEM-ML/Example_WaterSegmentation" Posix false
              (mk_cell_state None None None None [] []) _ _ eq_refl eq_refl eq_refl)
    as (st' & s & Hnb & Hs & _ & _ & Hmin & Hmax & _ & _ & Hscale).
  exists st', s. split; [exact Hnb|]. split; [exact Hs|].
  specialize (Hscale 0%nat d eq_refl). rewrite Hmin, Hmax in Hscale.
  destruct Hscale as (Hlo & Hhi & _); [by vm_compute|].
  split; [exact Hlo|exact Hhi].
Defined.

End DataNormalizationFacts.

(** ** The reference evalscript *)

Module EvalscriptFacts.
Import Evalscript.

Lemma js_gt_lit_0_1 (val : spec_float) :
  js_gt val Float64.lit_0_1 =
  match SFcompare val Float64.lit_0_1 with Some Gt => true | _ => false end.
Proof.
  unfold js_gt, Float64.ltb, SFltb, Float64.lit_0_1.
  destruct val as [s|s| |s m e]; cbn [SFcompare]; try done; try by destruct s.
  destruct s; [done|].
  rewrite (Z.compare_antisym e (-56)).
  destruct (e ?= -56) eqn:E; cbn [CompOpp]; try done.
  assert (Ha : PosDef.Pos.compare_cont Eq 7205759403792794 m
               = CompOpp (PosDef.Pos.compare_cont Eq m 7205759403792794))
    by (symmetry; apply (Pos.compare_cont_antisym m 7205759403792794 Eq)).
  rewrite Ha.
  by destruct (PosDef.Pos.compare_cont Eq m 7205759403792794).
Qed.

(** C7: for every pixel, the water label written to the [reference]
    output is 1 when the NDWI value [index(B03, B8A)] compares strictly
    greater than the literal [0.1], and 0 otherwise (also when the value
    is NaN); the NDWI value itself is returned in the [NDWI] output. *)
Theorem evaluatePixel_water_label `{Utilities} (samples : Samples) :
  out_reference (evaluatePixel samples) =
    [JNum (match SFcompare (index (B03 samples) (B8A samples)) Float64.lit_0_1 with
           | Some Gt => Float64.one
           | _ => S754_zero false
           end)]
  /\ out_NDWI (evaluatePixel samples) = [JNum (index (B03 samples) (B8A samples))].
Proof.
  split; [|reflexivity].
  unfold evaluatePixel; cbn [out_reference]. rewrite js_gt_lit_0_1.
  by destruct (SFcompare _ _) as [[]|].
Qed.

End EvalscriptFacts.

(** ** [Torchify] *)

Module TestingFacts.
Import NumPy Testing Examples.

Lemma select_branch_axis (self : Torchify) (axis : Z) :
  select_branch self = SqueezeAxis axis <-> squeeze self = PyInt axis /\ axis <> 1.
Proof.
  unfold select_branch. destruct (squeeze self) as [|b|z|f]; simpl.
  - split; [done|by intros [? _]].
  - destruct b; simpl; (split; [done|by intros [? _]]).
  - destruct (Z.eqb_spec z 1) as [->|Hz].
    + split; [done|]. intros [[= <-] ?]. done.
    + split; [intros [= <-]; done|]. by intros [[= <-] _].
  - destruct (Float64.Z_eqb _ _); (split; [done|by intros [? _]]).
Qed.

Lemma select_branch_all (self : Torchify) :
  select_branch self = SqueezeAll <-> py_eq (squeeze self) (PyBool true) = true.
Proof.
  unfold select_branch. destruct (py_eq _ _); [done|].
  split; [|done]. by destruct (squeeze self).
Qed.

Lemma nan_to_value_get `{Casting} (dt : dtype) (array : ndarray) (v : scalar) idx :
  get (mk_ndarray (shape array)
         (map (fun x => if scalar_isnan x then v else x) (flat array))) idx =
  (fun x => if scalar_isnan x then v else x) <$> get array idx.
Proof.
  unfold get. simpl. destruct (ravel _ _); simpl; [|done].
  apply list_lookup_fmap.
Qed.

(** C6, as the code has it: on every array with at least one axis,
    [__call__] moves the last axis to the front and then replaces the NaN
    entries by [nanvalue] as NumPy converts it to the element type of the
    array, and raises what the conversion raises; with [squeeze=1] the
    test [self.squeeze==True] holds, so every axis of length one is
    squeezed; and the branch [squeeze(self.squeeze)] is taken exactly
    when [squeeze] is an [int] other than 1 -- the value 0 included. *)
Theorem Torchify_call_spec `{Casting} (self : Torchify) (dt : dtype)
    (array : ndarray) front c :
  wf array -> shape array = front ++ [c] ->
  exists moved,
    torchify array = Ok moved /\ shape moved = c :: front /\
    (forall ci idx, get moved (ci :: idx) = get array (idx ++ [ci])) /\
    match astype dt (nanvalue self) with
    | Ok v =>
        let cleaned :=
          mk_ndarray (shape moved)
            (map (fun x => if scalar_isnan x then v else x) (flat moved)) in
        (forall idx, get cleaned idx =
           (fun x => if scalar_isnan x then v else x) <$> get moved idx) /\
        Torchify_call self dt array = run_branch (select_branch self) cleaned /\
        (squeeze self = PyInt 1 ->
           Torchify_call self dt array = Ok (squeeze_all cleaned))
    | Raised e => Torchify_call self dt array = Raised e
    end /\
    (squeeze self = PyInt 1 -> select_branch self = SqueezeAll) /\
    (forall axis, select_branch self = SqueezeAxis axis <->
                  squeeze self = PyInt axis /\ axis <> 1).
Proof.
  intros Hwf Hsh.
  destruct (moveaxis_last_first array) as [moved|e] eqn:Hm.
  2:{ unfold moveaxis_last_first in Hm. by rewrite Hsh, last_snoc in Hm. }
  destruct (NumPyFacts.moveaxis_last_first_get _ _ _ _ Hwf Hsh Hm) as [Hshape Hget].
  assert (Hcall : Torchify_call self dt array =
            (cleaned ← nan_to_value dt moved (nanvalue self);
             run_branch (select_branch self) cleaned)).
  { unfold Torchify_call, torchify. by rewrite Hm. }
  assert (Hall : squeeze self = PyInt 1 -> select_branch self = SqueezeAll).
  { intros Hone. apply select_branch_all. by rewrite Hone. }
  exists moved. split_and!; try done.
  - rewrite Hcall. unfold nan_to_value.
    destruct (astype dt (nanvalue self)) as [v|e]; cbn [mbind result_bind]; [|done].
    split_and!.
    + intros idx. by apply nan_to_value_get.
    + done.
    + intros Hone. by rewrite (Hall Hone).
  - apply select_branch_axis.
Qed.

Lemma Torchify_call_spec_witness :
  wf array_2x1 /\ shape array_2x1 = [2%nat] ++ [1%nat] /\
  exists moved,
    torchify array_2x1 = Ok moved /\ shape moved = [1; 2]%nat /\
    @Torchify_call numpy_astype (mk_Torchify (PyInt 1) (PyInt 0)) float64 array_2x1 =
      Ok (squeeze_all
            (mk_ndarray (shape moved)
               (map (fun x => if scalar_isnan x then SFloat (Float64.of_Z 0) else x)
                    (flat moved)))).
Proof.
  split; [vm_compute; reflexivity|]. split; [reflexivity|].
  destruct (@Torchify_call_spec numpy_astype (mk_Torchify (PyInt 1) (PyInt 0))
              float64 array_2x1 [2%nat] 1%nat eq_refl eq_refl)
    as (moved & Ht & Hs & _ & Hrun & _).
  exists moved. split; [exact Ht|]. split; [exact Hs|].
  exact (proj2 (proj2 Hrun) eq_refl).
Defined.

(** C6, as stated, fails at [squeeze=0]: [0 == True] is false and
    [type(0) == int] holds, so [__call__] takes the branch
    [array_.squeeze(0)]; on a float64 array of shape (2, 1) it returns
    shape (2,), where the [else] branch would return shape (1, 2).  On a
    0-dimensional array [np.moveaxis] raises, so no axis is moved. *)
Lemma Torchify_squeeze_0_counterexample :
  select_branch (mk_Torchify (PyInt 0) (PyInt 0)) = SqueezeAxis 0 /\
  @Torchify_call numpy_astype (mk_Torchify (PyInt 0) (PyInt 0)) float64 array_2x1
    = Ok (mk_ndarray [2%nat] [SFloat Float64.one; SFloat (S754_zero false)]) /\
  @Torchify_call numpy_astype (mk_Torchify (PyBool false) (PyInt 0)) float64 array_2x1
    = Ok (mk_ndarray [1; 2]%nat [SFloat Float64.one; SFloat (S754_zero false)]) /\
  ~ (forall self axis, select_branch self = SqueezeAxis axis -> axis <> 0 /\ axis <> 1) /\
  is_Ok (@Torchify_call numpy_astype Torchify_init_default float64
           (mk_ndarray [] [SFloat S754_nan])) = false.
Proof.
  repeat split; try (vm_compute; reflexivity).
  intros Hclaim.
  destruct (Hclaim (mk_Torchify (PyInt 0) (PyInt 0)) 0 eq_refl) as [H0 _].
  by apply H0.
Qed.

End TestingFacts.

(** ** The logic that the notebooks define *)

Module NotebookLogicFacts.
Import NumPy EOLearn Configuration DataAcquisition Testing.

(** C8 (amended): the notebooks hold logic of their own, with contracts
    that no library states.  [checker_waterdata], the function of the
    node that checks the reference in the acquisition workflow, accepts a
    reference exactly when at least one pixel in twenty is nonzero;
    [Torchify(1, 0)] returns the array with its last axis moved to the
    front, every NaN replaced by 0 as NumPy converts it to the element
    type of the array, and every axis of length one removed. *)
Theorem notebook_logic_contracts `{Casting} config (reference array : ndarray)
    (dt : dtype) front c :
  Z.of_nat (size reference) < 2 ^ 50 ->
  wf array -> shape array = front ++ [c] ->
  (node_reference_check ∈ workflow config /\
   node_task node_reference_check = TMapFeature task_reference_check /\
   map_function task_reference_check = checker_waterdata) /\
  (checker_waterdata (VArray reference) = Ok (PyBool true) <->
     Z.of_nat (size reference) <= 20 * Z.of_nat (count_nonzero reference)) /\
  (checker_waterdata (VArray reference) = Ok (PyBool false) <->
     20 * Z.of_nat (count_nonzero reference) < Z.of_nat (size reference)) /\
  exists moved,
    torchify array = Ok moved /\ shape moved = c :: front /\
    (forall ci idx, get moved (ci :: idx) = get array (idx ++ [ci])) /\
    Torchify_call (mk_Torchify (PyInt 1) (PyInt 0)) dt array =
      (v ← astype dt (PyInt 0);
       Ok (mk_ndarray (filter (fun d => d <> 1%nat) (c :: front))
             (map (fun x => if scalar_isnan x then v else x) (flat moved)))).
Proof.
  intros Hsize Hwf Hshape. split_and!.
  - rewrite DataAcquisitionFacts.workflow_nodes. apply list_elem_of_In. simpl. tauto.
  - reflexivity.
  - reflexivity.
  - rewrite DataAcquisitionFacts.checker_waterdata_5_percent by done.
    split; [intros [= Hle]; lia|intros Hle].
    by rewrite (proj2 (Z.leb_le _ _) Hle).
  - rewrite DataAcquisitionFacts.checker_waterdata_5_percent by done.
    split; [intros [= Hle]; lia|intros Hlt].
    by rewrite (proj2 (Z.leb_gt _ _) Hlt).
  - destruct (moveaxis_last_first array) as [moved|e] eqn:Hm.
    2:{ unfold moveaxis_last_first in Hm. by rewrite Hshape, last_snoc in Hm. }
    destruct (NumPyFacts.moveaxis_last_first_get _ _ _ _ Hwf Hshape Hm)
      as [Hsh Hget].
    exists moved. split_and!; try done.
    unfold Torchify_call, torchify. rewrite Hm. cbn [mbind result_bind].
    unfold nan_to_value. cbn [nanvalue].
    destruct (astype dt (PyInt 0)) as [v|e]; cbn [mbind result_bind]; [|done].
    cbn [run_branch select_branch squeeze py_eq as_int Z.b2z Z.eqb Pos.eqb].
    unfold squeeze_all. cbn [shape flat]. by rewrite Hsh.
Qed.

Lemma notebook_logic_contracts_witness :
  checker_waterdata (VArray Examples.reference_1_of_20) = Ok (PyBool true) /\
  @Torchify_call Examples.numpy_astype (mk_Torchify (PyInt 1) (PyInt 0))
    Examples.float64 Examples.array_2x1 =
    Ok (mk_ndarray [2]%nat [SFloat Float64.one; SFloat (Float64.of_Z 0)]).
Proof.
  destruct (@notebook_logic_contracts Examples.numpy_astype Examples.config
              Examples.reference_1_of_20 Examples.array_2x1 Examples.float64
              [2]%nat 1%nat)
    as (_ & Htrue & _ & moved & Hm & _ & _ & Hcall);
    [by vm_compute|reflexivity|reflexivity|].
  split; [apply Htrue; by vm_compute|].
  rewrite Hcall. injection Hm as <-. by vm_compute.
Defined.

(** C8: [checker_waterdata] is logic of the notebook that the pipeline
    depends on: its answer follows neither from the number of nonzero
    pixels nor from the number of pixels alone. *)
Lemma checker_waterdata_counterexample :
  map_function task_reference_check = checker_waterdata /\
  checker_waterdata (VArray Examples.reference_1_of_20) = Ok (PyBool true) /\
  checker_waterdata (VArray Examples.reference_1_of_21) = Ok (PyBool false) /\
  count_nonzero Examples.reference_1_of_20 = count_nonzero Examples.reference_1_of_21 /\
  checker_waterdata (VArray Examples.reference_0_of_20) = Ok (PyBool false) /\
  size Examples.reference_1_of_20 = size Examples.reference_0_of_20.
Proof. split; [reflexivity|]. split_and!; by vm_compute. Qed.

End NotebookLogicFacts.

Module TorchifyFacts.
Import NumPy Testing.

Lemma bind_app_perm {A B} (f g : A -> list B) (ks : list A) :
  (k ← ks; f k ++ g k) ≡ₚ (k ← ks; f k) ++ (k ← ks; g k).
Proof.
  induction ks as [|k ks IH]; [done|]. cbn [mbind list_bind].
  change ((f k ++ g k) ++ (k0 ← ks; f k0 ++ g k0)
          ≡ₚ (f k ++ (k0 ← ks; f k0)) ++ g k ++ (k0 ← ks; g k0)).
  rewrite IH. rewrite <- !app_assoc. f_equiv.
  rewrite !app_assoc. f_equiv. apply Permutation_app_comm.
Qed.

Lemma bind_option_list {A B} (f : A -> option B) (l : list A) :
  (x ← l; option_list (f x)) = omap f l.
Proof.
  induction l as [|x l IH]; [done|]. cbn. rewrite IH. by destruct (f x).
Qed.

Lemma omap_lookup_all {A} (l : list A) : omap (l !!.) (seq 0 (length l)) = l.
Proof.
  induction l as [|a l IH] using rev_ind; [reflexivity|].
  rewrite length_app, Nat.add_1_r, seq_S, omap_app. cbn.
  rewrite lookup_app_r, Nat.sub_diag by lia. cbn.
  replace (omap (fun i => (l ++ [a]) !! i) (seq 0 (length l))) with l; [done|].
  rewrite <- IH at 1. apply list_omap_ext.
  apply Forall_Forall2_diag, Forall_forall. intros i Hi%elem_of_seq.
  by rewrite lookup_app_l by lia.
Qed.

(** The transposed matrix holds the elements of the matrix. *)
Lemma transpose_list_perm {A} n : forall c (l : list A),
  length l = (n * c)%nat -> TorchifyInPlace.transpose_list n c l ≡ₚ l.
Proof.
  induction n as [|n IH]; intros c l Hl.
  - destruct l; [|done]. unfold TorchifyInPlace.transpose_list. simpl.
    induction (seq 0 c) as [|k ks IHk]; [done|]. by cbn.
  - assert (Hsplit : l = take c l ++ drop c l) by (by rewrite take_drop).
    set (row := take c l) in *. set (rest := drop c l) in *.
    assert (Hrow : length row = c) by (unfold row; rewrite length_take; lia).
    assert (Hrest : length rest = (n * c)%nat)
      by (unfold rest; rewrite length_drop; lia).
    rewrite Hsplit at 2. rewrite <- (IH c rest Hrest).
    unfold TorchifyInPlace.transpose_list.
    assert (Hbody :
      (k ← seq 0 c; omap (fun i => l !! (i * c + k)%nat) (seq 0 (S n))) =
      (k ← seq 0 c;
       option_list (row !! k)
         ++ omap (fun i => rest !! (i * c + k)%nat) (seq 0 n))).
    { apply Forall_bind_ext, Forall_forall. intros k Hk%elem_of_seq.
      change (seq 0 (S n)) with (0%nat :: seq 1 n).
      rewrite <- fmap_S_seq. cbn [omap list_omap].
      replace (l !! (0 * c + k)%nat) with (row !! k)
        by (unfold row; rewrite lookup_take_lt by lia; done).
      assert (Htail :
        omap (fun i => l !! (i * c + k)%nat) (S <$> seq 0 n) =
        omap (fun i => rest !! (i * c + k)%nat) (seq 0 n)).
      { apply list_omap_ext. apply Forall2_fmap_l, Forall_Forall2_diag, Forall_forall.
        intros i _. unfold compose. cbn beta. unfold rest. rewrite lookup_drop. f_equal. lia. }
      rewrite Htail. by destruct (row !! k). }
    rewrite Hbody, bind_app_perm. f_equiv.
    rewrite bind_option_list. rewrite <- Hrow at 1. by rewrite omap_lookup_all.
Qed.

Lemma transpose_flat_perm n c (l : list scalar) :
  length l = (n * c)%nat -> transpose_flat n c l ≡ₚ l.
Proof. apply (transpose_list_perm n c l). Qed.

Lemma prod_shape_cons d sh : prod_shape (d :: sh) = (d * prod_shape sh)%nat.
Proof. reflexivity. Qed.

Lemma prod_shape_squeeze_all sh :
  prod_shape (filter (fun d => d <> 1%nat) sh) = prod_shape sh.
Proof.
  induction sh as [|d sh IH]; [done|].
  rewrite filter_cons. case_decide as Hd.
  - by rewrite !prod_shape_cons, IH.
  - rewrite prod_shape_cons, IH. assert (d = 1%nat) as -> by lia. lia.
Qed.

Lemma prod_shape_delete sh : forall k,
  sh !! k = Some 1%nat -> prod_shape (delete k sh) = prod_shape sh.
Proof.
  induction sh as [|d sh IH]; intros [|k] Hk; try done.
  - injection Hk as ->. rewrite prod_shape_cons.
    change (delete 0%nat (1%nat :: sh)) with sh. lia.
  - change (delete (S k) (d :: sh)) with (d :: delete k sh).
    rewrite !prod_shape_cons. by rewrite (IH k Hk).
Qed.

Lemma squeeze_axis_Ok axis a out :
  squeeze_axis axis a = Ok out ->
  flat out = flat a /\ size out = size a /\
  let n := Z.of_nat (ndim a) in
  let k := Z.to_nat (if axis <? 0 then axis + n else axis) in
  - n <= axis < n /\ shape a !! k = Some 1%nat /\ shape out = delete k (shape a).
Proof.
  unfold squeeze_axis. intros Hs.
  destruct (_ || _) eqn:Hb; [done|].
  apply orb_false_iff in Hb as [H1 H2].
  apply Z.ltb_ge in H1. apply Z.leb_gt in H2.
  destruct (shape a !! _) as [[|[|d]]|] eqn:Hk; try done.
  injection Hs as <-. cbn [flat shape]. split; [done|].
  split; [|by split_and!].
  unfold size. cbn [shape]. by apply prod_shape_delete.
Qed.

(** A successful call of [Torchify] returns the elements of its input,
    each NaN replaced by [nanvalue] as converted to the element type of
    the array, in another order: none is lost, none is added, and the
    shape of the result fits them. *)
Theorem Torchify_call_keeps_elements `{Casting} (self : Torchify) (dt : dtype)
    (array out : ndarray) :
  wf array ->
  Torchify_call self dt array = Ok out ->
  exists v,
    astype dt (nanvalue self) = Ok v /\
    flat out ≡ₚ (fun x => if scalar_isnan x then v else x) <$> flat array /\
    size out = size array /\
    wf out.
Proof.
  intros Hwf. unfold Torchify_call, torchify, moveaxis_last_first.
  destruct (last (shape array)) as [c|] eqn:Hlast; [|done].
  apply last_Some in Hlast as [front Hsh].
  rewrite Hsh, removelast_last. cbn [mbind result_bind].
  unfold nan_to_value. destruct (astype dt (nanvalue self)) as [v|e]; [|done].
  cbn [mbind result_bind shape flat].
  set (repl := fun x => if scalar_isnan x then v else x).
  set (cleaned := mk_ndarray (c :: front)
                    (map repl (transpose_flat (prod_shape front) c (flat array)))).
  assert (Hlen : length (flat array) = (prod_shape front * c)%nat).
  { unfold wf, size in Hwf. by rewrite Hwf, Hsh, NumPyFacts.prod_shape_snoc. }
  assert (Hperm : flat cleaned ≡ₚ repl <$> flat array).
  { cbn [cleaned flat]. change (map repl) with (fmap (M:=list) repl).
    by rewrite transpose_flat_perm. }
  assert (Hsize : size cleaned = size array).
  { unfold size. cbn [cleaned shape]. rewrite Hsh, NumPyFacts.prod_shape_snoc.
    rewrite prod_shape_cons. lia. }
  assert (Hwfc : wf cleaned).
  { unfold wf. rewrite Hsize, Hperm, length_fmap. exact Hwf. }
  intros Hrun. exists v. split; [done|].
  destruct (select_branch self) as [|axis|]; cbn [run_branch] in Hrun.
  - injection Hrun as <-. cbn [squeeze_all flat].
    assert (Hs : size (squeeze_all cleaned) = size array).
    { unfold size, squeeze_all. cbn [shape]. rewrite prod_shape_squeeze_all.
      exact Hsize. }
    split; [done|]. split; [done|].
    unfold wf. rewrite Hs. cbn [squeeze_all flat]. unfold wf in Hwfc.
    by rewrite Hwfc.
  - apply squeeze_axis_Ok in Hrun as (Hflat & Hs & _).
    rewrite Hflat. split; [done|]. split; [by rewrite Hs|].
    unfold wf. rewrite Hflat, Hs. exact Hwfc.
  - injection Hrun as <-. by split_and!.
Qed.

Lemma Torchify_call_keeps_elements_witness :
  wf Examples.array_2x1 /\
  exists out v,
    @Torchify_call Examples.numpy_astype (mk_Torchify (PyInt 1) (PyFloat Float64.lit_0_1))
      Examples.float32 Examples.array_2x1 = Ok out /\
    v = SFloat (S754_finite false 13421773 (-27)) /\
    flat out ≡ₚ (fun x => if scalar_isnan x then v else x)
                 <$> flat Examples.array_2x1 /\
    size out = 2%nat.
Proof.
  assert (Hwf : wf Examples.array_2x1) by reflexivity.
  split; [exact Hwf|].
  destruct (@Torchify_call_keeps_elements Examples.numpy_astype
              (mk_Torchify (PyInt 1) (PyFloat Float64.lit_0_1)) Examples.float32
              Examples.array_2x1
              (mk_ndarray [2]%nat
                 [SFloat Float64.one; SFloat (S754_finite false 13421773 (-27))])
              Hwf)
    as (v & Hv & Hperm & Hsize & _); [by vm_compute|].
  eexists _, v. split; [by vm_compute|].
  split; [vm_compute in Hv; by injection Hv as <-|].
  split; [exact Hperm|exact Hsize].
Defined.



End TorchifyFacts.

Module TorchifyInPlaceFacts.
Import NumPy Testing.
Import TorchifyInPlace (view, mk_view, vshape, voffsets, view_of,
                        view_read, transpose_list, assign_masked, squeeze_view).

Lemma omap_bind {A B C} (f : B -> option C) (g : A -> list B) (l : list A) :
  omap f (x ← l; g x) = (x ← l; omap f (g x)).
Proof.
  induction l as [|x l IH]; [done|]. cbn [mbind list_bind].
  change (omap f (g x ++ (x0 ← l; g x0)) = omap f (g x) ++ (x0 ← l; omap f (g x0))).
  by rewrite omap_app, IH.
Qed.

Lemma omap_omap {A B C} (f : B -> option C) (g : A -> option B) (l : list A) :
  omap f (omap g l) = omap (fun x => g x ≫= f) l.
Proof.
  induction l as [|x l IH]; [done|]. cbn. destruct (g x) as [y|]; cbn; [|done].
  rewrite IH. by destruct (f y).
Qed.

(** Reading through transposed places gives the transposed matrix. *)
Lemma transpose_list_read {A} n c (l : list A) :
  length l = (n * c)%nat ->
  omap (fun o => l !! o) (transpose_list n c (seq 0 (n * c))) = transpose_list n c l.
Proof.
  intros Hl. unfold transpose_list. rewrite omap_bind.
  apply Forall_bind_ext, Forall_forall. intros ci Hci%elem_of_seq.
  rewrite omap_omap. apply list_omap_ext, Forall_Forall2_diag, Forall_forall.
  intros i Hi%elem_of_seq. cbn beta.
  rewrite lookup_seq_lt by nia. reflexivity.
Qed.

Lemma transpose_list_fmap {A B} (f : A -> B) n c (l : list A) :
  transpose_list n c (f <$> l) = f <$> transpose_list n c l.
Proof.
  unfold transpose_list.
  assert (Hfb : forall (g : nat -> list A) (ks : list nat),
            f <$> (k ← ks; g k) = (k ← ks; f <$> g k)).
  { intros g ks. induction ks as [|k ks IH]; [done|]. cbn [mbind list_bind].
    change (f <$> (g k ++ (k0 ← ks; g k0)) = (f <$> g k) ++ (k0 ← ks; f <$> g k0)).
    by rewrite fmap_app, IH. }
  rewrite Hfb.
  apply Forall_bind_ext, Forall_forall. intros ci _.
  rewrite list_fmap_omap. apply list_omap_ext, Forall_Forall2_diag, Forall_forall.
  intros i _. cbn beta. by rewrite list_lookup_fmap.
Qed.

Lemma transpose_list_length {A} n c (l : list A) :
  length l = (n * c)%nat -> length (transpose_list n c l) = (n * c)%nat.
Proof.
  intros Hl. rewrite <- Hl.
  apply Permutation_length, TorchifyFacts.transpose_list_perm, Hl.
Qed.

Section Assign.
Context (orig : list scalar) (v : scalar).

Lemma assign_masked_lookup : forall (os : list nat) (b : list scalar),
  Forall (fun o => (o < length orig)%nat) os ->
  length b = length orig ->
  let b' := foldl (fun (b : list scalar) (om : nat * bool) =>
                     if om.2 then <[om.1 := v]> b else b) b
              (zip os (scalar_isnan <$> omap (fun o => orig !! o) os)) in
  length b' = length orig /\
  forall j, b' !! j =
    if bool_decide (j ∈ os) && default false (scalar_isnan <$> orig !! j)
    then Some v else b !! j.
Proof.
  induction os as [|o os IH]; intros b Hall Hlen; cbn zeta.
  - split; [done|]. intros j.
    by rewrite bool_decide_eq_false_2 by apply not_elem_of_nil.
  - apply Forall_cons in Hall as [Ho Hall].
    destruct (lookup_lt_is_Some_2 orig o Ho) as [x Hx].
    cbn [omap list_omap]. rewrite Hx. cbn [fmap list_fmap zip zip_with foldl fst snd].
    set (b1 := if scalar_isnan x then <[o:=v]> b else b).
    assert (Hlen1 : length b1 = length orig).
    { unfold b1. destruct (scalar_isnan x); [by rewrite length_insert|done]. }
    destruct (IH b1 Hall Hlen1) as [Hl Hlook]. split; [exact Hl|].
    intros j. rewrite Hlook.
    destruct (bool_decide (j ∈ os)) eqn:Hjos.
    + apply bool_decide_eq_true in Hjos.
      rewrite (bool_decide_eq_true_2 (j ∈ o :: os)) by (by right).
      cbn [andb]. destruct (default false (scalar_isnan <$> orig !! j)) eqn:Hn; [done|].
      unfold b1. destruct (scalar_isnan x) eqn:Hnx; [|done].
      destruct (decide (j = o)) as [->|Hne].
      * rewrite Hx in Hn. cbn in Hn. congruence.
      * by rewrite list_lookup_insert_ne.
    + apply bool_decide_eq_false in Hjos. cbn [andb].
      destruct (decide (j = o)) as [->|Hne].
      * rewrite (bool_decide_eq_true_2 (o ∈ o :: os)) by (by left). cbn [andb].
        rewrite Hx. cbn. unfold b1.
        destruct (scalar_isnan x); [|done].
        apply list_lookup_insert_eq. lia.
      * rewrite (bool_decide_eq_false_2 (j ∈ o :: os))
          by (by intros [?|?]%elem_of_cons). cbn [andb].
        unfold b1. destruct (scalar_isnan x); [|done].
        by rewrite list_lookup_insert_ne.
Qed.

End Assign.

(** Writing through a view that shows every place of the memory
    replaces every NaN of the memory. *)
Lemma assign_masked_all (buf : list scalar) (array : view) (v : scalar) :
  voffsets array ≡ₚ seq 0 (length buf) ->
  assign_masked buf array (np_isnan (view_read buf array)) v =
    (fun x => if scalar_isnan x then v else x) <$> buf.
Proof.
  intros Hperm. unfold assign_masked, np_isnan, view_read. cbn [flat].
  assert (Hall : Forall (fun o => (o < length buf)%nat) (voffsets array)).
  { rewrite Hperm. apply Forall_forall. intros o Ho%elem_of_seq. lia. }
  destruct (assign_masked_lookup buf v (voffsets array) buf Hall eq_refl)
    as [Hlen Hlook].
  cbn zeta in Hlen, Hlook. change (map scalar_isnan) with (fmap (M:=list) scalar_isnan).
  apply list_eq. intros j. rewrite Hlook, list_lookup_fmap.
  destruct (buf !! j) as [x|] eqn:Hj.
  - assert (Hin : j ∈ voffsets array).
    { rewrite Hperm. apply elem_of_seq. apply lookup_lt_Some in Hj. lia. }
    rewrite bool_decide_eq_true_2 by done. cbn [andb].
    cbn. by destruct (scalar_isnan x).
  - cbn. by rewrite andb_false_r.
Qed.

(** The call writes into the memory of its argument: when it returns,
    every NaN of the caller's array is replaced as well, by [nanvalue] as
    converted to the element type, and the array returned is a view of
    that memory. *)
Theorem Torchify_call_overwrites_input `{Casting} (self : Torchify) (dt : dtype)
    (array out : ndarray) :
  wf array ->
  Torchify_call self dt array = Ok out ->
  exists v buf' out_view,
    astype dt (nanvalue self) = Ok v /\
    TorchifyInPlace.Torchify_call self dt (flat array) (view_of array)
      = Ok (buf', out_view) /\
    view_read buf' out_view = out /\
    buf' = (fun x => if scalar_isnan x then v else x) <$> flat array /\
    view_read buf' (view_of array) = mk_ndarray (shape array) buf'.
Proof.
  intros Hwf. unfold Torchify_call, torchify, moveaxis_last_first.
  unfold TorchifyInPlace.Torchify_call, TorchifyInPlace.torchify.
  cbn [view_of vshape voffsets].
  destruct (last (shape array)) as [c|] eqn:Hlast; [|done].
  apply last_Some in Hlast as [front Hsh].
  rewrite Hsh, removelast_last. cbn [mbind result_bind].
  unfold nan_to_value, TorchifyInPlace.nan_to_value.
  destruct (astype dt (nanvalue self)) as [v|e]; [|done].
  cbn [mbind result_bind shape flat].
  set (repl := fun x => if scalar_isnan x then v else x).
  assert (Hlen : length (flat array) = (prod_shape front * c)%nat).
  { unfold wf, size in Hwf. by rewrite Hwf, Hsh, NumPyFacts.prod_shape_snoc. }
  set (moved := mk_view (c :: front)
                  (transpose_list (prod_shape front) c (seq 0 (length (flat array))))).
  assert (Hperm : voffsets moved ≡ₚ seq 0 (length (flat array))).
  { cbn [moved voffsets]. apply TorchifyFacts.transpose_list_perm.
    by rewrite length_seq. }
  rewrite (assign_masked_all (flat array) moved v Hperm). fold repl.
  assert (Hread : view_read (repl <$> flat array) moved =
                  mk_ndarray (c :: front)
                    (map repl (transpose_flat (prod_shape front) c (flat array)))).
  { unfold view_read. cbn [moved vshape voffsets]. f_equal.
    rewrite Hlen, transpose_list_read by (by rewrite length_fmap).
    by rewrite transpose_list_fmap. }
  unfold squeeze_view. rewrite Hread.
  intros Hrun. rewrite Hrun. cbn [mbind result_bind].
  exists v, (repl <$> flat array), (mk_view (shape out) (voffsets moved)).
  split; [done|]. split; [done|]. split; [|split; [done|]].
  - unfold view_read. cbn [vshape voffsets moved].
    rewrite Hlen, transpose_list_read by (by rewrite length_fmap).
    rewrite transpose_list_fmap.
    assert (Hflat : flat out = map repl (transpose_flat (prod_shape front) c (flat array))).
    { destruct (select_branch self) as [|axis|]; cbn [run_branch] in Hrun.
      - by injection Hrun as <-.
      - by apply TorchifyFacts.squeeze_axis_Ok in Hrun as (-> & _).
      - by injection Hrun as <-. }
    destruct out as [sh fl]. cbn in *. by rewrite Hflat.
  - unfold view_read, view_of. cbn [vshape voffsets]. f_equal; [done|].
    rewrite <- (length_fmap repl). apply TorchifyFacts.omap_lookup_all.
Qed.

Lemma Torchify_call_overwrites_input_witness :
  wf Examples.array_2x1 /\
  exists buf' out_view,
    @TorchifyInPlace.Torchify_call Examples.numpy_astype
      (mk_Torchify (PyInt 1) (PyInt 0)) Examples.float64
      (flat Examples.array_2x1) (view_of Examples.array_2x1) = Ok (buf', out_view) /\
    buf' = [SFloat Float64.one; SFloat (Float64.of_Z 0)].
Proof.
  assert (Hwf : wf Examples.array_2x1) by reflexivity.
  split; [exact Hwf|].
  destruct (@Torchify_call_overwrites_input Examples.numpy_astype
              (mk_Torchify (PyInt 1) (PyInt 0)) Examples.float64
              Examples.array_2x1
              (mk_ndarray [2]%nat [SFloat Float64.one; SFloat (S754_zero false)])
              Hwf)
    as (v & buf' & out_view & Hv & Hcall & _ & Hbuf & _); [by vm_compute|].
  exists buf', out_view. split; [exact Hcall|].
  rewrite Hbuf. vm_compute in Hv. by injection Hv as <-.
Defined.

End TorchifyInPlaceFacts.

Module CheckerFacts.
Import NumPy EOLearn DataAcquisition.

(** An array without elements passes both checks: [np.all] of nothing is
    true, and zero nonzero pixels are at least 5% of zero pixels. *)
Theorem checkers_accept_empty (a : ndarray) :
  wf a -> size a = 0%nat ->
  checker_nodata (VArray a) = Ok (PyBool true) /\
  checker_waterdata (VArray a) = Ok (PyBool true).
Proof.
  intros Hwf Hsize. unfold wf in Hwf. rewrite Hsize in Hwf.
  apply nil_length_inv in Hwf. split.
  - unfold checker_nodata. cbn. unfold np_all. by rewrite Hwf.
  - rewrite DataAcquisitionFacts.checker_waterdata_5_percent by (rewrite Hsize; done).
    unfold count_nonzero. by rewrite Hsize, Hwf.
Qed.

Lemma checkers_accept_empty_witness :
  checker_nodata (VArray (mk_ndarray [0; 256; 256; 1]%nat [])) = Ok (PyBool true) /\
  checker_waterdata (VArray (mk_ndarray [0; 256; 256; 1]%nat [])) = Ok (PyBool true).
Proof.
  exact (checkers_accept_empty (mk_ndarray [0; 256; 256; 1]%nat []) eq_refl eq_refl).
Defined.

(** [zipper] takes any number of arguments and answers whether every
    element of every argument is nonzero; without arguments it answers
    [True]. *)
Theorem zipper_all_arguments (arrays : list value) :
  (zipper arrays = Ok (PyBool true) <->
     Forall (fun array => np_all_value array = true) arrays) /\
  (zipper arrays = Ok (PyBool false) <->
     Exists (fun array => np_all_value array = false) arrays) /\
  zipper [] = Ok (PyBool true).
Proof.
  assert (Hz : zipper arrays = Ok (PyBool (forallb np_all_value arrays))).
  { unfold zipper, np_all. cbn [flat]. do 2 f_equal.
    induction arrays as [|x arrays IH]; [done|]. cbn. by rewrite IH. }
  rewrite Hz. split_and!; [| |done].
  - rewrite Forall_forall. split.
    + intros [= Hall]. intros x Hx%list_elem_of_In.
      by apply (proj1 (forallb_forall _ _) Hall).
    + intros Hall. do 2 f_equal. apply forallb_forall.
      intros x Hx%list_elem_of_In. by apply Hall.
  - assert (Hf : forallb np_all_value arrays = false <->
                 Exists (fun array => np_all_value array = false) arrays).
    { clear Hz. induction arrays as [|x arrays IH]; cbn [forallb].
      - split; [done|by inversion 1].
      - rewrite Exists_cons, <- IH. destruct (np_all_value x); cbn [andb].
        + split; [by right|by intros [?|?]].
        + split; [by left|done]. }
    rewrite <- Hf. split; [by intros [= ->]|by intros ->].
Qed.

End CheckerFacts.

Module TilesFacts.
Import Configuration Tiles.

Lemma dict_fromkeys_acc (crss : list string) : forall keys,
  NoDup keys ->
  NoDup (foldl (fun keys crs => if bool_decide (crs ∈ keys) then keys else keys ++ [crs])
               keys crss) /\
  forall c,
    c ∈ foldl (fun keys crs => if bool_decide (crs ∈ keys) then keys else keys ++ [crs])
              keys crss <-> c ∈ keys \/ c ∈ crss.
Proof.
  induction crss as [|crs crss IH]; intros keys Hnd; cbn [foldl].
  - split; [done|]. intros c. rewrite elem_of_nil. tauto.
  - case_bool_decide as Hin.
    + destruct (IH keys Hnd) as [Hn Hc]. split; [done|].
      intros c. rewrite Hc, elem_of_cons. split; [tauto|].
      intros [?|[->|?]]; tauto.
    + assert (Hnd' : NoDup (keys ++ [crs])).
      { apply NoDup_app. split; [done|]. split; [|apply NoDup_singleton].
        intros x Hx ->%list_elem_of_singleton. done. }
      destruct (IH _ Hnd') as [Hn Hc]. split; [done|].
      intros c. rewrite Hc, elem_of_app, list_elem_of_singleton, elem_of_cons. tauto.
Qed.

Lemma dict_fromkeys_NoDup crss : NoDup (dict_fromkeys crss).
Proof. apply dict_fromkeys_acc, NoDup_nil_2. Qed.

Lemma dict_fromkeys_elem_of crss c : c ∈ dict_fromkeys crss <-> c ∈ crss.
Proof.
  unfold dict_fromkeys.
  rewrite (proj2 (dict_fromkeys_acc crss [] (NoDup_nil_2)) c), elem_of_nil. tauto.
Qed.

(** [np.argmax(crss_unique == crs)] finds the place of [crs]. *)
Lemma np_argmax_key (keys : list string) crs :
  crs ∈ keys ->
  exists j, np_argmax ((fun c => bool_decide (c = crs)) <$> keys) = Ok j /\
            keys !! j = Some crs.
Proof.
  intros Hin. unfold np_argmax.
  destruct keys as [|k keys]; [by inversion Hin|].
  set (flags := (fun c => bool_decide (c = crs)) <$> k :: keys).
  assert (Htrue : true ∈ flags).
  { apply list_elem_of_fmap. exists crs. split; [|done].
    by rewrite bool_decide_eq_true_2. }
  destruct (list_find_elem_of (fun b => b = true) flags true Htrue eq_refl)
    as [[j b] Hfind].
  change ((fun c => bool_decide (c = crs)) <$> k :: keys) with flags.
  destruct flags as [|f flags'] eqn:Hflags; [by inversion Htrue|].
  rewrite Hfind. cbn. exists j. split; [done|].
  apply list_find_Some in Hfind as (Hj & -> & _).
  rewrite <- Hflags in Hj. unfold flags in Hj.
  rewrite list_lookup_fmap in Hj.
  destruct ((k :: keys) !! j) as [c|] eqn:Hc; [|done].
  cbn in Hj. injection Hj as Hj. apply bool_decide_eq_true in Hj. by subst c.
Qed.

Section Groups.
Context {A : Type} (f : BBox * Info -> A) (keys : list string).

(** The lists of the cell once the tiles [tiles] are sorted. *)
Let groups (tiles : list (BBox * Info)) : list (list A) :=
  (fun crs => f <$> with_crs crs tiles) <$> keys.

Lemma append_at_groups tiles j t :
  NoDup keys -> keys !! j = Some (bbox_crs t.1) ->
  append_at (groups tiles) j (f t) = Ok (groups (tiles ++ [t])).
Proof.
  intros Hnd Hj. unfold append_at, groups.
  rewrite list_lookup_fmap, Hj. cbn [fmap option_fmap option_map]. f_equal.
  apply list_eq. intros k.
  destruct (decide (k = j)) as [->|Hne].
  - rewrite list_lookup_insert_eq
      by (rewrite length_fmap; by eapply lookup_lt_Some).
    rewrite list_lookup_fmap, Hj. cbn. f_equal.
    unfold with_crs. rewrite filter_app, fmap_app. f_equal.
    rewrite filter_cons, decide_True by done. by rewrite filter_nil.
  - rewrite list_lookup_insert_ne by done.
    rewrite !list_lookup_fmap.
    destruct (keys !! k) as [c|] eqn:Hk; [|done]. cbn. f_equal.
    unfold with_crs. rewrite filter_app.
    rewrite filter_cons, decide_False, filter_nil, app_nil_r; [done|].
    intros Heq. apply Hne. apply (NoDup_lookup keys k j c); [done|done|].
    by rewrite Hj, Heq.
Qed.

End Groups.

Lemma sort_loop_spec keys bbox_list :
  NoDup keys -> (forall b, b ∈ bbox_list -> bbox_crs b ∈ keys) ->
  forall info_list i done bs,
    drop i bbox_list = bs -> (length info_list <= length bs)%nat ->
    sort_loop keys bbox_list i info_list (sorted_of keys done) =
      Ok (sorted_of keys (done ++ zip bs info_list)).
Proof.
  intros Hnd Hkeys. induction info_list as [|info rest IH]; intros i done bs Hdrop Hlen.
  - cbn [sort_loop]. destruct bs; cbn; by rewrite app_nil_r.
  - destruct bs as [|b bs']; [cbn in Hlen; lia|].
    assert (Hb : bbox_list !! i = Some b).
    { pose proof (lookup_drop bbox_list i 0) as Hl. rewrite Hdrop in Hl.
      cbn in Hl. by rewrite Nat.add_0_r in Hl. }
    assert (Hdrop' : drop (S i) bbox_list = bs').
    { change (S i) with (1 + i)%nat. rewrite Nat.add_comm, <- drop_drop, Hdrop.
      reflexivity. }
    destruct (np_argmax_key keys (bbox_crs b)) as (j & Harg & Hj).
    { apply Hkeys. by eapply list_elem_of_lookup_2. }
    cbn [sort_loop]. unfold sort_body. rewrite Hb. cbn [mbind result_bind].
    rewrite Harg. cbn [mbind result_bind].
    set (done' := done ++ [(b, info)]).
    assert (H1 : append_at (geometries (sorted_of keys done)) j (Polygon_of b)
                 = Ok (geometries (sorted_of keys done')))
      by exact (append_at_groups (fun t => Polygon_of t.1) keys done j (b, info) Hnd Hj).
    assert (H2 : append_at (idxs (sorted_of keys done)) j (index info)
                 = Ok (idxs (sorted_of keys done')))
      by exact (append_at_groups (fun t => index t.2) keys done j (b, info) Hnd Hj).
    assert (H3 : append_at (idxs_x (sorted_of keys done)) j (index_x info)
                 = Ok (idxs_x (sorted_of keys done')))
      by exact (append_at_groups (fun t => index_x t.2) keys done j (b, info) Hnd Hj).
    assert (H4 : append_at (idxs_y (sorted_of keys done)) j (index_y info)
                 = Ok (idxs_y (sorted_of keys done')))
      by exact (append_at_groups (fun t => index_y t.2) keys done j (b, info) Hnd Hj).
    rewrite H1, H2, H3, H4. cbn [mbind result_bind].
    change (mk_sorted _ _ _ _) with (sorted_of keys done'). unfold done'.
    rewrite (IH (S i) (done ++ [(b, info)]) bs' Hdrop') by (cbn in Hlen; lia).
    cbn [zip zip_with]. by rewrite <- app_assoc.
Qed.

Lemma tile_loop_spec system dir_results name keys tiles : forall k rest,
  drop k keys = rest ->
  tile_loop system dir_results name keys (sorted_of keys tiles) (seq k (length rest)) =
    Ok (imap (fun i crs => frame_of system dir_results name tiles (k + i) crs) rest).
Proof.
  intros k rest. revert k. induction rest as [|crs rest IH]; intros k Hdrop; [done|].
  assert (Hk : keys !! k = Some crs).
  { pose proof (lookup_drop keys k 0) as Hl. rewrite Hdrop in Hl.
    cbn in Hl. by rewrite Nat.add_0_r in Hl. }
  assert (Hdrop' : drop (S k) keys = rest).
  { change (S k) with (1 + k)%nat. rewrite Nat.add_comm, <- drop_drop, Hdrop.
    reflexivity. }
  cbn [length seq tile_loop]. unfold tile_body, item, sorted_of.
  cbn [geometries idxs idxs_x idxs_y]. rewrite !list_lookup_fmap, Hk.
  cbn [fmap option_fmap option_map mbind result_bind].
  fold (sorted_of keys tiles). rewrite (IH (S k) Hdrop').
  cbn [mbind result_bind imap]. f_equal. f_equal.
  - unfold frame_of. by rewrite Nat.add_0_r.
  - apply imap_ext. intros i c _. cbn. f_equal. lia.
Qed.

Lemma sort_tiles_spec system dir_results name bbox_list info_list :
  (length info_list <= length bbox_list)%nat ->
  sort_tiles system dir_results name bbox_list info_list =
    Ok (imap (frame_of system dir_results name (zip bbox_list info_list))
             (dict_fromkeys (bbox_crs <$> bbox_list))).
Proof.
  intros Hlen. unfold sort_tiles. cbv beta zeta.
  set (keys := dict_fromkeys (bbox_crs <$> bbox_list)).
  assert (Hempty : forall A (f : BBox * Info -> A),
            (fun _ : nat => @nil A) <$> seq 0 (length keys)
            = (fun crs => f <$> with_crs crs []) <$> keys).
  { intros A f. apply list_eq. intros i. rewrite !list_lookup_fmap.
    destruct (keys !! i) as [c|] eqn:Hc.
    - rewrite lookup_seq_lt by (by eapply lookup_lt_Some). done.
    - rewrite lookup_seq_ge; [done|]. by apply lookup_ge_None. }
  pose proof (Hempty _ (fun t => Polygon_of t.1)) as Hg.
  pose proof (Hempty _ (fun t => index t.2)) as Hi.
  pose proof (Hempty _ (fun t => index_x t.2)) as Hx.
  pose proof (Hempty _ (fun t => index_y t.2)) as Hy.
  replace (mk_sorted ((fun _ : nat => []) <$> seq 0 (length keys))
                     ((fun _ : nat => []) <$> seq 0 (length keys))
                     ((fun _ : nat => []) <$> seq 0 (length keys))
                     ((fun _ : nat => []) <$> seq 0 (length keys)))
    with (sorted_of keys [])
    by (unfold sorted_of; by rewrite <- Hg, <- Hi, <- Hx, <- Hy).
  rewrite (sort_loop_spec keys bbox_list (dict_fromkeys_NoDup _)
             ltac:(intros b Hb; apply dict_fromkeys_elem_of, list_elem_of_fmap; eauto)
             info_list 0%nat [] bbox_list eq_refl Hlen).
  cbn [mbind result_bind app].
  pose proof (tile_loop_spec system dir_results name keys (zip bbox_list info_list)
                0%nat keys eq_refl) as Ht.
  rewrite Ht. f_equal.
Qed.

Lemma bind_imap_frame {B} system dir_results name tiles (g : GeoDataFrame * string -> list B)
    (G : string -> list B) :
  (forall i crs, g (frame_of system dir_results name tiles i crs) = G crs) ->
  forall keys k,
    (t ← imap (fun i crs => frame_of system dir_results name tiles (k + i) crs) keys; g t)
    = (crs ← keys; G crs).
Proof.
  intros Hg. induction keys as [|crs keys IH]; intros k; [done|].
  cbn [imap mbind list_bind]. rewrite Hg. f_equal.
  rewrite <- (IH (S k)). f_equal. apply imap_ext. intros i c _. cbn. f_equal. lia.
Qed.

Lemma fmap_bind_list {A B C} (f : B -> C) (g : A -> list B) (l : list A) :
  f <$> (x ← l; g x) = (x ← l; f <$> g x).
Proof.
  induction l as [|x l IH]; [done|]. cbn [mbind list_bind].
  change (f <$> (g x ++ (y ← l; g y)) = (f <$> g x) ++ (y ← l; f <$> g y)).
  by rewrite fmap_app, IH.
Qed.

Lemma bind_singleton_key {A} (t : A) (keys : list string) k :
  NoDup keys -> k ∈ keys ->
  (c ← keys; if decide (k = c) then [t] else []) = [t].
Proof.
  induction keys as [|c keys IH]; intros Hnd Hin; [by inversion Hin|].
  apply NoDup_cons in Hnd as [Hc Hnd]. cbn [mbind list_bind].
  destruct (decide (k = c)) as [->|Hne].
  - cbn. f_equal.
    assert (Hnil : forall l : list string, c ∉ l ->
              (c' ← l; if decide (c = c') then [t] else []) = []).
    { induction l as [|c' l IHl]; intros Hnot; [done|]. cbn [mbind list_bind].
      rewrite decide_False by (intros ->; apply Hnot; by left).
      cbn. apply IHl. intros ?. apply Hnot. by right. }
    by apply Hnil.
  - cbn. apply IH; [done|]. apply elem_of_cons in Hin as [?|?]; done.
Qed.

(** Sorting is a partition: the lists of the keys hold the tiles. *)
Lemma with_crs_partition (keys : list string) (tiles : list (BBox * Info)) :
  NoDup keys -> (forall t, t ∈ tiles -> bbox_crs t.1 ∈ keys) ->
  (crs ← keys; with_crs crs tiles) ≡ₚ tiles.
Proof.
  intros Hnd. induction tiles as [|t tiles IH]; intros Hin.
  - clear. induction keys as [|c keys IHk]; [done|]. cbn [mbind list_bind].
    by rewrite IHk.
  - assert (Hbody : (crs ← keys; with_crs crs (t :: tiles)) =
                    (crs ← keys;
                     (if decide (bbox_crs t.1 = crs) then [t] else [])
                       ++ with_crs crs tiles)).
    { apply Forall_bind_ext, Forall_forall. intros c _. unfold with_crs.
      rewrite filter_cons. by destruct (decide (bbox_crs t.1 = c)). }
    rewrite Hbody, TorchifyFacts.bind_app_perm.
    rewrite bind_singleton_key by (try done; apply Hin; by left).
    cbn. f_equiv. apply IH. intros t' Ht'. apply Hin. by right.
Qed.

(** The frames that the cell builds: the frame of a coordinate reference
    system holds the indices and the polygons of the tiles with that
    system, in the order of [bbox_list], and the frames follow the order
    in which the systems come first in [bbox_list]. *)
Theorem tiles_sorted_by_crs system dir_results name bbox_list info_list :
  (length info_list <= length bbox_list)%nat ->
  sort_tiles system dir_results name bbox_list info_list =
    Ok (imap (frame_of system dir_results name (zip bbox_list info_list))
             (dict_fromkeys (bbox_crs <$> bbox_list))) /\
  NoDup (dict_fromkeys (bbox_crs <$> bbox_list)) /\
  forall crs, crs ∈ dict_fromkeys (bbox_crs <$> bbox_list) <->
              exists b, b ∈ bbox_list /\ bbox_crs b = crs.
Proof.
  intros Hlen. split; [by apply sort_tiles_spec|]. split; [apply dict_fromkeys_NoDup|].
  intros crs. rewrite dict_fromkeys_elem_of, list_elem_of_fmap.
  split; intros (b & ? & ?); by exists b.
Qed.

Lemma tiles_sorted_by_crs_witness :
  exists frames,
    sort_tiles Posix "results" "train"
      [mk_BBox "32642" (0, 0, 5120, 5120); mk_BBox "32643" (0, 0, 5120, 5120);
       mk_BBox "32642" (5120, 0, 10240, 5120)]
      [mk_Info 0 0 0; mk_Info 1 0 0; mk_Info 2 1 0] = Ok frames /\
    (fun t => gdf_index t.1) <$> frames = [[0; 2]; [1]].
Proof.
  eexists. split.
  - apply tiles_sorted_by_crs. cbn. lia.
  - by vm_compute.
Defined.

(** Every tile is in the frame of its coordinate reference system and in
    no other: the frames are as many as the systems, none is empty, and
    together they hold each index and each polygon once. *)
Theorem tiles_partition system dir_results name bbox_list info_list :
  length info_list = length bbox_list ->
  exists frames,
    sort_tiles system dir_results name bbox_list info_list = Ok frames /\
    NoDup ((fun t => gdf_crs t.1) <$> frames) /\
    Forall (fun t => gdf_index t.1 <> []) frames /\
    (t ← frames; gdf_index t.1) ≡ₚ index <$> info_list /\
    (t ← frames; gdf_geometry t.1) ≡ₚ Polygon_of <$> bbox_list.
Proof.
  intros Hlen. eexists. split; [apply sort_tiles_spec; lia|].
  set (keys := dict_fromkeys (bbox_crs <$> bbox_list)).
  set (tiles := zip bbox_list info_list).
  assert (Hnd : NoDup keys) by apply dict_fromkeys_NoDup.
  assert (Hin : forall t, t ∈ tiles -> bbox_crs t.1 ∈ keys).
  { intros [b info] Ht. apply dict_fromkeys_elem_of, list_elem_of_fmap.
    exists b. split; [done|]. by eapply elem_of_zip_l. }
  split_and!.
  - rewrite fmap_imap.
    assert (Heq : imap (fun n => (fun t => gdf_crs t.1) ∘ frame_of system dir_results name tiles n) keys
                  = String.app "EPSG:" <$> keys).
    { rewrite <- imap_const. by apply imap_ext. }
    rewrite Heq. by apply (NoDup_fmap_2 _).
  - apply Forall_forall. intros t Ht.
    apply list_elem_of_lookup in Ht as [i Hi].
    rewrite list_lookup_imap in Hi.
    destruct (keys !! i) as [crs|] eqn:Hk; [|done]. cbn in Hi. injection Hi as <-.
    cbn [fst frame_of gdf_index].
    assert (Hcrs : crs ∈ bbox_crs <$> bbox_list)
      by (apply dict_fromkeys_elem_of; by eapply list_elem_of_lookup_2).
    apply list_elem_of_fmap in Hcrs as (b & -> & Hb).
    apply list_elem_of_lookup in Hb as [k Hk'].
    destruct (lookup_lt_is_Some_2 info_list k) as [info Hinfo];
      [rewrite Hlen; by eapply lookup_lt_Some|].
    assert (Ht : (b, info) ∈ with_crs (bbox_crs b) tiles).
    { apply list_elem_of_filter. split; [done|].
      apply list_elem_of_lookup. exists k. by apply lookup_zip_Some. }
    intros Hnil. apply (f_equal length) in Hnil. rewrite length_fmap in Hnil.
    destruct (with_crs (bbox_crs b) tiles); [by inversion Ht|done].
  - pose proof (bind_imap_frame system dir_results name tiles (fun t => gdf_index t.1)
                  (fun crs => (fun t => index t.2) <$> with_crs crs tiles)
                  ltac:(done) keys 0%nat) as Hb.
    cbn [Nat.add] in Hb.
    change (imap (fun i crs => frame_of system dir_results name tiles i crs) keys)
      with (imap (frame_of system dir_results name tiles) keys) in Hb.
    rewrite Hb, <- fmap_bind_list.
    rewrite (with_crs_partition keys tiles Hnd Hin).
    unfold tiles. rewrite <- (snd_zip bbox_list info_list) at 2 by lia.
    by rewrite <- list_fmap_compose.
  - pose proof (bind_imap_frame system dir_results name tiles (fun t => gdf_geometry t.1)
                  (fun crs => (fun t => Polygon_of t.1) <$> with_crs crs tiles)
                  ltac:(done) keys 0%nat) as Hb.
    cbn [Nat.add] in Hb.
    change (imap (fun i crs => frame_of system dir_results name tiles i crs) keys)
      with (imap (frame_of system dir_results name tiles) keys) in Hb.
    rewrite Hb, <- fmap_bind_list.
    rewrite (with_crs_partition keys tiles Hnd Hin).
    unfold tiles. rewrite <- (fst_zip bbox_list info_list) at 2 by lia.
    by rewrite <- list_fmap_compose.
Qed.

Lemma tiles_partition_witness :
  exists frames,
    sort_tiles Posix "results" "train"
      [mk_BBox "32642" (0, 0, 5120, 5120); mk_BBox "32643" (0, 0, 5120, 5120);
       mk_BBox "32642" (5120, 0, 10240, 5120)]
      [mk_Info 0 0 0; mk_Info 1 0 0; mk_Info 2 1 0] = Ok frames /\
    (t ← frames; gdf_index t.1) ≡ₚ [0; 1; 2].
Proof.
  destruct (tiles_partition Posix "results" "train"
      [mk_BBox "32642" (0, 0, 5120, 5120); mk_BBox "32643" (0, 0, 5120, 5120);
       mk_BBox "32642" (5120, 0, 10240, 5120)]
      [mk_Info 0 0 0; mk_Info 1 0 0; mk_Info 2 1 0] eq_refl)
    as (frames & Hrun & _ & _ & Hperm & _).
  exists frames. split; [exact Hrun|exact Hperm].
Defined.

End TilesFacts.

Module DataAcquisitionCellsFacts.
Import NumPy EOLearn Effects Configuration DataAcquisition DataAcquisitionCells.

Lemma bbox_body_ok `{Queries} config s l i bbox ts st :
  queries_raise_Exception ->
  l !! i = Some bbox ->
  get_available_timestamps SENTINEL2_L1C bbox (split_interval config s) = Ok ts ->
  exists st',
    bbox_body config s l i st = (Ok tt, st') /\
    workflow_args st' = workflow_args st ++ bbox_appends config s l i.
Proof.
  intros Hexn Hi Hq. unfold bbox_body, bbox_appends.
  unfold mbind, M_bind, bind, print, modify, lift, query_timestamps.
  rewrite Hi. cbn [workflow_args stdout queried]. rewrite Hq.
  rewrite (WorkflowArgsFacts.timestamp_loop config s i bbox
             (fun interval e => Hexn SENTINEL1_IW bbox interval e)).
  eexists. split; [reflexivity|]. reflexivity.
Qed.

Lemma bbox_loop_ok `{Queries} config s l :
  queries_raise_Exception ->
  forall idxs st,
    Forall (fun i => exists bbox, l !! i = Some bbox /\
              is_Ok (get_available_timestamps SENTINEL2_L1C bbox
                       (split_interval config s)) = true) idxs ->
    exists st',
      for_each idxs (bbox_body config s l) st = (Ok tt, st') /\
      workflow_args st' = workflow_args st ++ idxs ≫= bbox_appends config s l.
Proof.
  intros Hexn. induction idxs as [|i idxs IH]; intros st Hall.
  - exists st. cbn. by rewrite app_nil_r.
  - apply Forall_cons in Hall as [(bbox & Hi & Hok) Hall].
    destruct (get_available_timestamps SENTINEL2_L1C bbox (split_interval config s))
      as [ts|e] eqn:Hq; [|done].
    destruct (bbox_body_ok config s l i bbox ts st Hexn Hi Hq) as (st1 & Hrun & Hargs).
    destruct (IH st1 Hall) as (st2 & Hrun2 & Hargs2).
    exists st2. cbn [for_each]. unfold bind at 1. rewrite Hrun, Hrun2.
    split; [done|]. rewrite Hargs2, Hargs. cbn [mbind list_bind].
    by rewrite <- app_assoc.
Qed.

Lemma split_body_ok `{Queries} config bbox_lists s st :
  queries_raise_Exception -> sentinel2_answers config bbox_lists ->
  exists st',
    split_body config bbox_lists s st = (Ok tt, st') /\
    workflow_args st' =
      workflow_args st ++ drawn bbox_lists s ≫= bbox_appends config s (bbox_lists s).
Proof.
  intros Hexn Hans. destruct (Hans s) as [Hdraw Hidx].
  unfold split_body. unfold mbind, M_bind, bind, print, modify, lift.
  unfold drawn in *. fold (draws s).
  destruct (randint s (length (bbox_lists s)) (draws s)) as [idxs|e]; [|done].
  destruct (bbox_loop_ok config s (bbox_lists s) Hexn idxs
              (mk_cell_state (workflow_args st) (stdout st ++ [PrintText (split_name s)])
                 (queried st)))
    as (st1 & Hrun & Hargs).
  { apply Forall_forall. intros i Hi. by apply Hidx. }
  rewrite Hrun. eexists. split; [reflexivity|]. by rewrite Hargs.
Qed.

Lemma collect_workflow_args_ok `{Queries} config bbox_lists st :
  queries_raise_Exception -> sentinel2_answers config bbox_lists ->
  exists st',
    collect_workflow_args config bbox_lists st = (Ok tt, st') /\
    workflow_args st' =
      (s ← [train; validation; test];
       drawn bbox_lists s ≫= bbox_appends config s (bbox_lists s)) /\
    last (stdout st') =
      Some (PrintText ("Number of downloads: " ++ pretty (length (workflow_args st')))).
Proof.
  intros Hexn Hans. unfold collect_workflow_args.
  unfold mbind at 1, M_bind at 1, bind at 1, modify at 1.
  cbn [for_each].
  set (st0 := mk_cell_state [] (stdout st) (queried st)).
  destruct (split_body_ok config bbox_lists train st0 Hexn Hans) as (st1 & H1 & A1).
  destruct (split_body_ok config bbox_lists validation st1 Hexn Hans) as (st2 & H2 & A2).
  destruct (split_body_ok config bbox_lists test st2 Hexn Hans) as (st3 & H3 & A3).
  unfold mbind, M_bind, bind, Effects.ret, gets, print, modify.
  rewrite H1, H2, H3. eexists. split; [reflexivity|].
  cbn [workflow_args stdout].
  assert (Hargs : workflow_args st3 =
            (s ← [train; validation; test];
             drawn bbox_lists s ≫= bbox_appends config s (bbox_lists s))).
  { rewrite A3, A2, A1. cbn [mbind list_bind workflow_args st0 app].
    by rewrite app_nil_r, <- app_assoc. }
  split; [exact Hargs|]. by rewrite last_snoc.
Qed.

(** The cell that collects the workflow arguments, when the queries for
    Sentinel-2 return: it ends without an exception, what was in
    [workflow_args] before is dropped, the list holds the arguments of
    the indices drawn, split after split and in the order drawn, each as
    often as it was drawn, and the last line printed gives the length of
    the list. *)
Theorem collect_workflow_args_collected `{Queries} config bbox_lists st :
  queries_raise_Exception -> sentinel2_answers config bbox_lists ->
  exists st',
    collect_workflow_args config bbox_lists st = (Ok tt, st') /\
    workflow_args st' =
      (s ← [train; validation; test];
       drawn bbox_lists s ≫= bbox_appends config s (bbox_lists s)) /\
    last (stdout st') =
      Some (PrintText ("Number of downloads: " ++ pretty (length (workflow_args st')))).
Proof. apply collect_workflow_args_ok. Qed.

Lemma collect_workflow_args_collected_witness :
  exists st',
    @collect_workflow_args Examples.queries_sentinel1_fails Examples.config
      (fun _ => [Examples.bbox_0; Examples.bbox_1]) (mk_cell_state [] [] [])
    = (Ok tt, st') /\
    last (stdout st') =
      Some (PrintText ("Number of downloads: " ++ pretty (length (workflow_args st')))).
Proof.
  destruct (@collect_workflow_args_collected Examples.queries_sentinel1_fails
              Examples.config (fun _ => [Examples.bbox_0; Examples.bbox_1])
              (mk_cell_state [] [] []))
    as (st' & Hrun & _ & Hlast).
  - intros c b interval e. cbn. destruct c; [done|].
    destruct (interval.2 =? 1661904000); [|done]. by intros [= <-].
  - intros s. split; [done|]. intros i Hi. exists Examples.bbox_0.
    unfold drawn in Hi. cbn in Hi. apply elem_of_replicate in Hi as [-> _].
    by split.
  - exists st'. by split.
Defined.



End DataAcquisitionCellsFacts.

Module ShowcaseArgsFacts.
Import NumPy EOLearn Effects Configuration ModelForward.
Import DataAcquisition (BBox, Queries, system, path_exists, strftime,
                        printed, PrintText, PrintException).

(** The time interval printed with an exception is not the one of the
    bounding box that failed: [timeinterval] still holds the interval of
    the bounding box parsed before it. *)
Theorem showcase_exception_shows_earlier_interval `{Queries} `{Observations}
    config (l : list BBox) i j b1 b2 ti1 e st :
  l !! i = Some b1 -> l !! j = Some b2 ->
  parse_time_interval_observations b1 = Ok ti1 ->
  parse_time_interval_observations b2 = Raised e ->
  is_Exception e = true ->
  exists st',
    for_each [i; j] (bbox_body config l) st = (Ok tt, st') /\
    last (stdout st') = Some (PrintException e ti1) /\
    timeinterval st' = Some ti1 /\
    parsed st' = parsed st ++ [b1; b2] /\
    (length (workflow_args st') <= S (length (workflow_args st)))%nat.
Proof.
  intros Hi Hj H1 H2 He. destruct st as [args ti out ps].
  cbn [for_each]. unfold bind at 1.
  unfold bbox_body at 1.
  unfold mbind, M_bind, bind, try_except, print, modify, lift,
    assign_timeinterval, handler, append_args, Effects.ret.
  rewrite Hi. cbn [workflow_args stdout parsed timeinterval]. rewrite H1.
  destruct (negb (path_exists _)).
  - unfold bbox_body. unfold mbind, M_bind, bind, try_except, print, modify, lift,
      assign_timeinterval, handler, append_args, Effects.ret.
    rewrite Hj. cbn [workflow_args stdout parsed timeinterval]. rewrite H2, He.
    cbn [workflow_args stdout parsed timeinterval].
    eexists. split; [reflexivity|]. cbn [workflow_args stdout parsed timeinterval].
    rewrite last_snoc, <- app_assoc, length_app. cbn. split_and!; try done. lia.
  - unfold bbox_body. unfold mbind, M_bind, bind, try_except, print, modify, lift,
      assign_timeinterval, handler, append_args, Effects.ret.
    rewrite Hj. cbn [workflow_args stdout parsed timeinterval]. rewrite H2, He.
    cbn [workflow_args stdout parsed timeinterval].
    eexists. split; [reflexivity|]. cbn [workflow_args stdout parsed timeinterval].
    rewrite last_snoc, <- app_assoc. cbn. split_and!; try done. lia.
Qed.

Lemma showcase_exception_shows_earlier_interval_witness :
  exists st',
    for_each [0; 1]%nat
      (@bbox_body Examples.queries_sentinel1_fails Examples.observations
         Examples.config [Examples.bbox_0; Examples.bbox_1])
      (mk_cell_state [] None [] []) = (Ok tt, st') /\
    last (stdout st') =
      Some (PrintException Examples.download_failed (1599264000, 1599436800)).
Proof.
  destruct (@showcase_exception_shows_earlier_interval
              Examples.queries_sentinel1_fails Examples.observations
              Examples.config [Examples.bbox_0; Examples.bbox_1] 0%nat 1%nat
              Examples.bbox_0 Examples.bbox_1 (1599264000, 1599436800)
              Examples.download_failed (mk_cell_state [] None [] [])
              eq_refl eq_refl eq_refl eq_refl eq_refl)
    as (st' & Hrun & Hlast & _).
  exists st'. by split.
Defined.

End ShowcaseArgsFacts.

Module StorageFacts.
Import Configuration Storage.

Lemma string_app_assoc (a b c : string) : (a +:+ b) +:+ c = a +:+ (b +:+ c).
Proof.
  induction a as [|x a IH]; [done|].
  change (String x ((a +:+ b) +:+ c) = String x (a +:+ (b +:+ c))). by rewrite IH.
Qed.

Lemma string_length_app (a b : string) :
  String.length (a +:+ b) = (String.length a + String.length b)%nat.
Proof.
  induction a as [|x a IH]; [done|].
  change (S (String.length (a +:+ b)) = S (String.length a + String.length b)).
  by rewrite IH.
Qed.

(** The last character of [a ++ b] is the last character of [b]. *)
Lemma get_last_app (a b : string) :
  b <> EmptyString ->
  String.get (String.length (a +:+ b) - 1) (a +:+ b) =
  String.get (String.length b - 1) b.
Proof.
  intros Hb. induction a as [|x a IH]; [done|].
  change (String x a +:+ b) with (String x (a +:+ b)).
  cbn [String.length].
  assert (Hlen : (0 < String.length (a +:+ b))%nat).
  { rewrite string_length_app. destruct b; [done|]. cbn. lia. }
  rewrite <- IH.
  destruct (String.length (a +:+ b)) as [|n] eqn:Hn; [lia|].
  replace (S (S n) - 1)%nat with (S n) by lia.
  replace (S n - 1)%nat with n by lia. reflexivity.
Qed.

(** [os.path.join] below a directory whose name does not end with a
    slash. *)
Lemma path_join_below (a q b : string) (c : ascii) :
  String.get (String.length q - 1) q = Some c -> c <> "/"%char ->
  String.prefix "/" b = false ->
  path_join (a +:+ q) b = a +:+ q +:+ "/" +:+ b.
Proof.
  intros Hq Hc Hb. unfold path_join. rewrite Hb.
  assert (Hne : q <> EmptyString) by (by intros ->).
  destruct (a +:+ q) as [|x r] eqn:Haq.
  { destruct a as [|y a]; [by change (q = EmptyString) in Haq|].
    change (String y (a +:+ q) = EmptyString) in Haq. discriminate Haq. }
  rewrite <- Haq, get_last_app, Hq by done.
  rewrite string_app_assoc.
  destruct c as [[] [] [] [] [] [] [] []]; try done.
Qed.

Lemma basedir_ends cwd cuda :
  exists p, basedir (configuration cwd Posix cuda) = p +:+ "WaterSegmentationRun".
Proof.
  cbn [configuration basedir os_path_join]. unfold path_join at 1.
  cbn [String.prefix]. destruct cwd as [|x cwd]; [by exists ""|].
  destruct (String.get _ _) as [c|].
  - destruct (Ascii.eqb_spec c "/") as [->|Hne].
    + by eexists.
    + exists (String x cwd +:+ "/").
      destruct c as [[] [] [] [] [] [] [] []]; try done;
        by rewrite string_app_assoc.
  - exists (String x cwd +:+ "/"). by rewrite string_app_assoc.
Qed.

Lemma dir_data_ends cwd cuda :
  exists p, dir_data (configuration cwd Posix cuda) = p +:+ "data" /\
    forall b, String.prefix "/" b = false ->
      path_join (dir_data (configuration cwd Posix cuda)) b
      = dir_data (configuration cwd Posix cuda) +:+ "/" +:+ b.
Proof.
  destruct (basedir_ends cwd cuda) as [p Hp].
  cbn [configuration basedir dir_data os_path_join] in *. rewrite Hp.
  rewrite (path_join_below p "WaterSegmentationRun" "data" "n") by done.
  exists (p +:+ "WaterSegmentationRun/"). split.
  { rewrite !string_app_assoc. reflexivity. }
  intros b Hb.
  replace (p +:+ "WaterSegmentationRun" +:+ "/" +:+ "data")
    with ((p +:+ "WaterSegmentationRun/") +:+ "data")
    by (rewrite !string_app_assoc; reflexivity).
  rewrite (path_join_below _ "data" b "a") by done.
  by rewrite !string_app_assoc.
Qed.

Lemma path_join_child (d name b : string) (c : ascii) :
  String.get (String.length name - 1) name = Some c -> c <> "/"%char ->
  String.prefix "/" b = false ->
  path_join (d +:+ "/" +:+ name) b = d +:+ "/" +:+ name +:+ "/" +:+ b.
Proof.
  intros Hn Hc Hb.
  replace (d +:+ "/" +:+ name) with ((d +:+ "/") +:+ name)
    by (by rewrite string_app_assoc).
  rewrite (path_join_below _ name b c) by done.
  by rewrite !string_app_assoc.
Qed.

(** On a POSIX system, the folder in which the acquisition workflow
    saves an EOPatch of a split is an entry of the directory of that
    split, whatever the working directory; so is the folder of a showcase
    EOPatch in [dir_showcase].  These are the directories that the other
    notebooks list. *)
Theorem patch_folder_in_split_directory `{DataAcquisition.Queries}
    cwd cuda (s : DataAcquisition.split) (i : nat) (timestamp_ : Z)
    (ti : Z * Z) :
  let config := configuration cwd Posix cuda in
  path_join (dir_data config) (DataAcquisition.eopatch_dir s i timestamp_) =
    path_join (split_dir config s)
      ("eopatch_" +:+ pretty i +:+ "_" +:+ DataAcquisition.strftime timestamp_) /\
  path_join (dir_data config)
    ("showcase/eopatch_" +:+ pretty i +:+ "_" +:+ ModelForward.timeintervalstring ti) =
    path_join (dir_showcase config)
      ("eopatch_" +:+ pretty i +:+ "_" +:+ ModelForward.timeintervalstring ti) /\
  split_dir config s = dir_data config +:+ "/" +:+ DataAcquisition.split_name s /\
  dir_showcase config = dir_data config +:+ "/showcase".
Proof.
  intros config. destruct (dir_data_ends cwd cuda) as (p & Hp & Hjoin).
  fold config in Hp, Hjoin.
  assert (Hsplit : split_dir config s
                   = dir_data config +:+ "/" +:+ DataAcquisition.split_name s).
  { destruct s; cbn [split_dir DataAcquisition.split_name];
      [change (dir_train config) with (path_join (dir_data config) "train")
      |change (dir_validation config) with (path_join (dir_data config) "validation")
      |change (dir_test config) with (path_join (dir_data config) "test")];
      by rewrite Hjoin. }
  assert (Hshow : dir_showcase config = dir_data config +:+ "/showcase").
  { change (dir_showcase config) with (path_join (dir_data config) "showcase").
    by rewrite Hjoin. }
  split_and!; [| |done|done].
  - rewrite Hsplit. unfold DataAcquisition.eopatch_dir.
    rewrite Hjoin by (by destruct s).
    destruct s; cbn [DataAcquisition.split_name].
    + rewrite (path_join_child _ "train" _ "n") by done.
      rewrite ?string_app_assoc. reflexivity.
    + rewrite (path_join_child _ "validation" _ "n") by done.
      rewrite ?string_app_assoc. reflexivity.
    + rewrite (path_join_child _ "test" _ "t") by done.
      rewrite ?string_app_assoc. reflexivity.
  - rewrite Hshow, Hjoin by done.
    replace (dir_data config +:+ "/showcase")
      with (dir_data config +:+ "/" +:+ "showcase") by reflexivity.
    rewrite (path_join_child _ "showcase" _ "e") by done.
    rewrite ?string_app_assoc. reflexivity.
Qed.

End StorageFacts.

Module RasterMergeFacts.
Import EOLearn Configuration RasterMerge.

Lemma str_split_cons sep s : exists word words, str_split sep s = word :: words.
Proof.
  induction s as [|c s (w & ws & IH)]; [by eexists _, _|]. cbn [str_split].
  destruct (Ascii.eqb c sep); [by eexists _, _|]. rewrite IH. by eexists _, _.
Qed.

(** The words of [word ++ sep ++ rest] are [word] and the words of
    [rest]. *)
Lemma str_split_app sep (word rest : string) :
  (forall n, String.get n word <> Some sep) ->
  str_split sep (word +:+ String sep rest) = word :: str_split sep rest.
Proof.
  induction word as [|c word IH]; intros Hsep.
  - change (EmptyString +:+ String sep rest) with (String sep rest).
    cbn [str_split]. by rewrite Ascii.eqb_refl.
  - change (String c word +:+ String sep rest)
      with (String c (word +:+ String sep rest)).
    cbn [str_split].
    destruct (Ascii.eqb_spec c sep) as [->|_]; [by destruct (Hsep 0%nat)|].
    rewrite IH; [done|]. intros n. apply (Hsep (S n)).
Qed.

(** Every GeoTiff that the showcase workflow exports is among the files
    that are merged: the file name given to the export node starts with
    the word [water], and a file of the listing whose name does is
    selected, with any extension. *)
Theorem exported_tiffs_are_merged `{DataAcquisition.Queries} config i bbox ti
    (extension dir_tiffs_showcase : string) (listdir : list string) :
  let filename :=
    kwarg_str (node_args (ModelForward.showcase_args config i bbox ti)
                 (ModelForward.node_tiff config)) "filename" in
  filename = "water_" +:+ pretty i +:+ "_" +:+ ModelForward.timeintervalstring ti /\
  "water" ∈ str_split "_" (filename +:+ extension) /\
  (filename +:+ extension ∈ listdir ->
   os_path_join DataAcquisition.system dir_tiffs_showcase (filename +:+ extension)
     ∈ inputfiles DataAcquisition.system dir_tiffs_showcase listdir).
Proof.
  intros filename.
  assert (Hname : filename
            = "water_" +:+ pretty i +:+ "_" +:+ ModelForward.timeintervalstring ti).
  { unfold filename, node_args, ModelForward.showcase_args, kwarg_str.
    rewrite lookup_insert_ne by done. rewrite lookup_insert_eq.
    cbn [default from_option id]. by rewrite lookup_singleton_eq. }
  assert (Hword : "water" ∈ str_split "_" (filename +:+ extension)).
  { rewrite Hname.
    change (("water_" +:+ pretty i +:+ "_" +:+ ModelForward.timeintervalstring ti)
              +:+ extension)
      with ("water" +:+ String "_"
              ((pretty i +:+ "_" +:+ ModelForward.timeintervalstring ti) +:+ extension)).
    rewrite str_split_app; [by left|].
    intros [|[|[|[|[|n]]]]]; done. }
  split; [done|]. split; [done|].
  intros Hin. unfold inputfiles. apply list_elem_of_fmap.
  eexists. split; [reflexivity|]. by apply list_elem_of_filter.
Qed.

End RasterMergeFacts.

Module EvalscriptSetupFacts.
Import EOLearn Evalscript EvalscriptSetup.

(** For every pixel the evalscript returns the outputs that [setup]
    declares, under the names of the features of the task and in their
    order, each with as many values as bands declared; the six bands and
    the data mask are returned as they come, the water label and the
    cloud mask fit the type UINT8, and the cloud mask is true exactly
    where [CLM] is 0 or NaN. *)
Theorem evalscript_outputs_declared `{Utilities} (samples : Samples) :
  let o := evaluatePixel samples in
  (returned o).*1 = id <$> output setup /\
  (returned o).*1 = features.*2 /\
  Forall2 (fun r b => length r.2 = bands b) (returned o) (output setup) /\
  (out_B02 o, out_B03 o, out_B04 o, out_B08 o, out_B8A o, out_B11 o)
    = ([JNum (B02 samples)], [JNum (B03 samples)], [JNum (B04 samples)],
       [JNum (B08 samples)], [JNum (B8A samples)], [JNum (B11 samples)]) /\
  out_dmask_reference o = [JNum (dataMask samples)] /\
  Forall (fits UINT8) (out_reference o) /\
  Forall (fits UINT8) (out_cmask_reference o) /\
  (out_cmask_reference o = [JBool true] <->
     Float64.is_zero (CLM samples) = true \/ Float64.is_nan (CLM samples) = true).
Proof.
  intros o. split_and!; try reflexivity.
  - repeat constructor.
  - unfold o, evaluatePixel. cbn [out_reference]. constructor; [|constructor].
    destruct (js_gt _ _); [by exists 1|by exists 0].
  - repeat constructor.
  - unfold o, evaluatePixel, js_not. cbn [out_cmask_reference].
    rewrite <- orb_true_iff. split; [by intros [= ->]|by intros ->].
Qed.

End EvalscriptSetupFacts.

Module DataNormalizationCellsFacts.
Import NumPy EOLearn Effects Configuration DataNormalization.

(** The notebook reads the digests of two bands by their index.  When
    the merge returns fewer than two digests, the notebook stops with
    [IndexError] in the cell of the analysis: the merged digest is
    assigned, [quantilesVH] is not, and neither the digest nor a scaler
    is created or stored. *)
Theorem notebook_needs_two_bands `{Library} config system st dirs td :
  listdir (dir_train config) = Ok dirs ->
  mergeTDigests (os_path_join system (dir_train config) <$> dirs)
    (SCALAR_TIMELESS, "tdigest_data")
    (if is_Windows system then 0 else threads config) = Ok td ->
  (length td < 2)%nat ->
  exists e st',
    notebook config system st = (Raised e, st') /\
    exn_cls e = IndexError /\
    tdigest st' = Some td /\
    quantilesVH st' = quantilesVH st /\
    Scaler st' = Scaler st /\
    written st' = written st.
Proof.
  intros Hl Hm Hlen. destruct st as [td0 qvv qvh sc wr ms].
  destruct td as [|vv [|vh rest]]; [| |simpl in Hlen; lia].
  all: unfold notebook, merge_cell, analyse_cell, call_mergeTDigests, read,
         modify, lift, index, mbind, M_bind, bind.
  all: rewrite Hl; cbn -[os_path_join is_Windows mergeTDigests]; rewrite Hm.
  all: cbn -[os_path_join is_Windows mergeTDigests]; by eexists _, _.
Qed.

Lemma notebook_needs_two_bands_witness :
  exists e st',
    @notebook MoreExamples.library_one_band Examples.config Posix
      (mk_cell_state None None None None [] []) = (Raised e, st') /\
    exn_cls e = IndexError /\ written st' = [].
Proof.
  destruct (@notebook_needs_two_bands MoreExamples.library_one_band
              Examples.config Posix (mk_cell_state None None None None [] [])
              _ _ eq_refl eq_refl ltac:(simpl; lia))
    as (e & st' & Hrun & He & _ & _ & _ & Hw).
  exists e, st'. by split_and!.
Defined.

End DataNormalizationCellsFacts.
